(** * SHARPy: the linear aeroelastic assembler and the T-tail template

    A shallow embedding of

    - [sharpy/linear/assembler/linearaeroelastic.py] (class
      [LinearAeroelastic]: [__init__], [initialise], [assemble], [update],
      [load_uvlm]), and
    - [cases/templates/Ttail.py] (class [Ttail_3beams]: the panelling block
      of [__init__], [update_fem_prop] and [update_aero_prop]).

    Python objects become records, dictionaries become finite maps, numpy
    arrays become shaped tables of IEEE binary64 numbers, and a method
    becomes a computation in a state-and-exception monad over the assembler
    object.  Every call that leaves the two files (the state-space library,
    the UVLM and beam wrappers, the gain computation, the settings and HDF5
    utilities) is recorded in a trace and answered by a collaborator
    interface; the theorems hold for every implementation of it.  The
    methods of the template read the attributes of the object and return
    the attributes they set; what they take from numpy beyond indexing
    ([np.tan], [np.linspace]) and from [geo_utils] is a second interface. *)

From Stdlib Require Import ZArith Floats.
From stdpp Require Import gmap strings list fin_maps.

Local Open Scope Z_scope.

(** * Python exceptions and results *)

Module py.

Inductive exn :=
| KeyError
| TypeError
| AttributeError
| ValueError
| ZeroDivisionError
| AssertionError
| OtherError (what : string).

Inductive result (A : Type) :=
| Ok (a : A)
| Raise (e : exn).
Arguments Ok {A} a.
Arguments Raise {A} e.

Definition rbind {A B} (r : result A) (k : A -> result B) : result B :=
  match r with
  | Ok a => k a
  | Raise e => Raise e
  end.

(** [assert cond] *)
Definition assert (cond : bool) : result unit :=
  if cond then Ok tt else Raise AssertionError.

(** The Python values that occur in settings dictionaries.  [PyCBool] is a
    [ctypes.c_bool], the form in which [to_custom_types] leaves a setting of
    type ['bool']; its content is read with [.value]. *)
#[warnings="-register-all"]
Inductive pyval :=
| PyNone
| PyStr (s : string)
| PyCBool (b : bool)
| PyDict (items : gmap string pyval).

(** [v[k]] for a string key: only a dictionary can be subscripted this way,
    and a missing key is a [KeyError]. *)
Definition subscript (v : pyval) (k : string) : result pyval :=
  match v with
  | PyDict items =>
      match items !! k with
      | Some x => Ok x
      | None => Raise KeyError
      end
  | _ => Raise TypeError
  end.

(** [v.value] *)
Definition value (v : pyval) : result bool :=
  match v with
  | PyCBool b => Ok b
  | _ => Raise AttributeError
  end.

(** [v == s] for a string literal [s] *)
Definition eq_str (v : pyval) (s : string) : bool :=
  match v with
  | PyStr t => bool_decide (t = s)
  | _ => false
  end.

(** [d[k]] on a dictionary of a fixed value type *)
Definition lookup_key {V} (d : gmap string V) (k : string) : result V :=
  match d !! k with
  | Some x => Ok x
  | None => Raise KeyError
  end.

(** [x / y] on Python floats *)
Definition truediv (x y : float) : result float :=
  if (y =? 0)%float then Raise ZeroDivisionError else Ok (x / y)%float.

End py.
Import py.

Notation "'let?' x := r 'in' k" := (rbind r (fun x => k))
  (at level 10, x pattern, r at level 100, k at level 200).

(** * numpy arrays

    A two-dimensional [float64] array: its shape and its rows.  Every
    operation below builds its result with [tabulate], so the rows of a
    computed array always agree with its shape.  Entries are IEEE binary64
    numbers: a division by zero gives an infinity or a NaN as in numpy, and
    the [RuntimeWarning] numpy prints for it is not recorded. *)

Module np.

Record ndarray := {
  shape0 : nat;
  shape1 : nat;
  data : list (list float)
}.

Definition tabulate (r c : nat) (f : nat -> nat -> float) : ndarray :=
  {| shape0 := r;
     shape1 := c;
     data := map (fun i => map (f i) (seq 0 c)) (seq 0 r) |}.

(** [a[i, j]] for indices inside the shape *)
Definition item (a : ndarray) (i j : nat) : float :=
  nth j (nth i (data a) []) 0%float.

(** [np.zeros((r, c))]; a negative dimension is a [ValueError]. *)
Definition zeros (r c : Z) : result ndarray :=
  if (r <? 0) || (c <? 0) then Raise ValueError
  else Ok (tabulate (Z.to_nat r) (Z.to_nat c) (fun _ _ => 0%float)).

(** [np.zeros_like(a)] *)
Definition zeros_like (a : ndarray) : ndarray :=
  tabulate (shape0 a) (shape1 a) (fun _ _ => 0%float).

(** [np.eye(N, M)] *)
Definition eye (N M : Z) : result ndarray :=
  if (N <? 0) || (M <? 0) then Raise ValueError
  else Ok (tabulate (Z.to_nat N) (Z.to_nat M)
             (fun i j => if (i =? j)%nat then 1%float else 0%float)).

(** A slice [start:stop] with unit step; [None] is an omitted bound. *)
Record slice := { start : option Z; stop : option Z }.

Definition upto (n : Z) : slice := {| start := None; stop := Some n |}.
Definition from (n : Z) : slice := {| start := Some n; stop := None |}.
Definition between (m n : Z) : slice := {| start := Some m; stop := Some n |}.
Definition all : slice := {| start := None; stop := None |}.

(** Python clips a slice bound to the axis: a negative bound counts from
    the end, and whatever still falls outside is moved to the nearest end. *)
Definition clip (d : nat) (n : Z) : nat :=
  if n <? 0 then Z.to_nat (Z.max 0 (n + Z.of_nat d))
  else Z.to_nat (Z.min n (Z.of_nat d)).

Definition lower (d : nat) (s : slice) : nat :=
  match start s with Some n => clip d n | None => 0%nat end.

Definition upper (d : nat) (s : slice) : nat :=
  match stop s with Some n => clip d n | None => d end.

Definition selects (d : nat) (s : slice) (i : nat) : bool :=
  (lower d s <=? i)%nat && (i <? upper d s)%nat.

Definition extent (d : nat) (s : slice) : nat := (upper d s - lower d s)%nat.

(** [a[rs, cs]] *)
Definition getitem (a : ndarray) (rs cs : slice) : ndarray :=
  tabulate (extent (shape0 a) rs) (extent (shape1 a) cs)
    (fun i j => item a (lower (shape0 a) rs + i) (lower (shape1 a) cs + j)).

(** Broadcasting of a value [v] to a target of shape [(h, w)]: an axis of
    [v] must have the target's length or length one. *)
Definition broadcastable (v : ndarray) (h w : nat) : bool :=
  ((shape0 v =? h)%nat || (shape0 v =? 1)%nat)
  && ((shape1 v =? w)%nat || (shape1 v =? 1)%nat).

Definition broadcast_item (v : ndarray) (i j : nat) : float :=
  item v (if (shape0 v =? 1)%nat then 0%nat else i)
         (if (shape1 v =? 1)%nat then 0%nat else j).

(** [a[rs, cs] = v] *)
Definition setitem (a : ndarray) (rs cs : slice) (v : ndarray) : result ndarray :=
  let r := shape0 a in
  let c := shape1 a in
  if broadcastable v (extent r rs) (extent c cs) then
    Ok (tabulate r c (fun i j =>
          if selects r rs i && selects c cs j
          then broadcast_item v (i - lower r rs) (j - lower c cs)
          else item a i j))
  else Raise ValueError.

(** [a[rs, cs] /= x] *)
Definition idiv (a : ndarray) (rs cs : slice) (x : float) : ndarray :=
  let r := shape0 a in
  let c := shape1 a in
  tabulate r c (fun i j =>
    if selects r rs i && selects c cs j
    then (item a i j / x)%float
    else item a i j).

(** [a / x] *)
Definition divide (a : ndarray) (x : float) : ndarray :=
  tabulate (shape0 a) (shape1 a) (fun i j => (item a i j / x)%float).

(** [a *= x] *)
Definition imul (a : ndarray) (x : float) : ndarray :=
  tabulate (shape0 a) (shape1 a) (fun i j => (item a i j * x)%float).

(** [a += v] *)
Definition iadd (a v : ndarray) : result ndarray :=
  if broadcastable v (shape0 a) (shape1 a) then
    Ok (tabulate (shape0 a) (shape1 a)
          (fun i j => (item a i j + broadcast_item v i j)%float))
  else Raise ValueError.

(** [np.block([[a, b], [c, d]])] *)
Definition block (a b c d : ndarray) : result ndarray :=
  if (shape0 a =? shape0 b)%nat && (shape0 c =? shape0 d)%nat
     && (shape1 a + shape1 b =? shape1 c + shape1 d)%nat
  then
    Ok (tabulate (shape0 a + shape0 c) (shape1 a + shape1 b) (fun i j =>
          if (i <? shape0 a)%nat then
            if (j <? shape1 a)%nat then item a i j else item b i (j - shape1 a)
          else
            if (j <? shape1 c)%nat then item c (i - shape0 a) j
            else item d (i - shape0 a) (j - shape1 c)))
  else Raise ValueError.

(** [a.T] *)
Definition T (a : ndarray) : ndarray :=
  tabulate (shape1 a) (shape0 a) (fun i j => item a j i).

End np.

(** [scipy.linalg.block_diag(a, b)] *)
Module sclalg.

Definition block_diag (a b : np.ndarray) : np.ndarray :=
  np.tabulate (np.shape0 a + np.shape0 b) (np.shape1 a + np.shape1 b) (fun i j =>
    if (i <? np.shape0 a)%nat then
      if (j <? np.shape1 a)%nat then np.item a i j else 0%float
    else
      if (j <? np.shape1 a)%nat then 0%float
      else np.item b (i - np.shape0 a) (j - np.shape1 a)).

End sclalg.

(** * cases/templates/Ttail.py *)

Module Ttail.

(** The attributes that the parametrisation block of [Ttail_3beams.__init__]
    derives from the three panelling arguments.  Python's [%] and [//] on
    integers with a positive right operand are [Z.modulo] and [Z.div]. *)
Record Ttail_3beams := {
  M : Z;
  Nv : Z;
  Nh : Z;
  Nh_semi : Z;
  n_surfaces : Z;
  num_nodes_elem : Z;
  num_elem_vtp : Z;
  num_elem_htpL : Z;
  num_elem_htpR : Z;
  num_elem_tot : Z;
  num_nodes_vtp : Z;
  num_nodes_htpL : Z;
  num_nodes_htpR : Z;
  num_nodes_tot : Z
}.

Definition parametrisation (M Nv Nh : Z) : result Ttail_3beams :=
  let? _ := assert (negb (Nv mod 2 =? 1)) in
  let? _ := assert (negb (Nh mod 4 =? 1)) in
  let Nh_semi := Nh / 2 in
  let num_elem_vtp := Nv / 2 in
  let num_elem_htpL := Nh_semi / 2 in
  let num_elem_htpR := Nh_semi / 2 in
  Ok {| M := M;
        Nv := Nv;
        Nh := Nh;
        Nh_semi := Nh_semi;
        n_surfaces := 3;
        num_nodes_elem := 3;
        num_elem_vtp := num_elem_vtp;
        num_elem_htpL := num_elem_htpL;
        num_elem_htpR := num_elem_htpR;
        num_elem_tot := num_elem_vtp + num_elem_htpL + num_elem_htpR;
        num_nodes_vtp := 2 * num_elem_vtp + 1;
        num_nodes_htpL := 2 * num_elem_htpL + 1;
        num_nodes_htpR := 2 * num_elem_htpR + 1;
        num_nodes_tot :=
          2 * num_elem_vtp + 2 * num_elem_htpL + 2 * num_elem_htpR + 1 |}.

Definition raises_assertion {A} (r : result A) : Prop := r = Raise AssertionError.

Definition accepted {A} (r : result A) : Prop := exists a, r = Ok a.

(** ** The arrays of the template

    Index arrays and coordinates are one-dimensional, the connectivity is a
    table of integers.  [np.int] and [np.float] are the builtin [int] and
    [float], as in the numpy releases the template was written for. *)

Definition IndexError : exn := OtherError "IndexError".

(** Python's [range(n)] *)
Definition range (n : Z) : list Z := map Z.of_nat (seq 0 (Z.to_nat n)).

(** The position that the index [i] has on an axis of length [d]: a
    negative index counts from the end, and an index outside the axis is an
    [IndexError]. *)
Definition index (d : nat) (i : Z) : result nat :=
  if (0 <=? i) && (i <? Z.of_nat d) then Ok (Z.to_nat i)
  else if (i <? 0) && (- Z.of_nat d <=? i) then Ok (Z.to_nat (i + Z.of_nat d))
  else Raise IndexError.

Section vectors.

Context {A : Type}.

(** [np.zeros((n,))] and [np.ones((n,))]: [n] copies of [x] *)
Definition full (n : Z) (x : A) : result (list A) :=
  if n <? 0 then Raise ValueError else Ok (replicate (Z.to_nat n) x).

(** [a[s] = x] for a slice [s] *)
Definition fill (a : list A) (s : np.slice) (x : A) : list A :=
  imap (fun i y => if np.selects (length a) s i then x else y) a.

(** [a[i]] *)
Definition get (a : list A) (i : Z) : result A :=
  let? k := index (length a) i in
  match a !! k with
  | Some x => Ok x
  | None => Raise IndexError
  end.

(** [a[i] = x] *)
Definition set (a : list A) (i : Z) (x : A) : result (list A) :=
  let? k := index (length a) i in
  Ok (<[k := x]> a).

(** [a[idx]] for a list of indices *)
Fixpoint take_at (a : list A) (idx : list Z) : result (list A) :=
  match idx with
  | [] => Ok []
  | i :: idx =>
      let? x := get a i in
      let? xs := take_at a idx in
      Ok (x :: xs)
  end.

Fixpoint put_at (a : list A) (idx : list Z) (vs : list A) : result (list A) :=
  match idx, vs with
  | i :: idx, v :: vs => let? a := set a i v in put_at a idx vs
  | _, _ => Ok a
  end.

(** [a[idx] = vs] for a list of indices: the values have the length of the
    index list or length one, and of two writes to one place the later one
    stays. *)
Definition setitems (a : list A) (idx : list Z) (vs : list A) : result (list A) :=
  if (length vs =? length idx)%nat then put_at a idx vs
  else
    match vs with
    | [v] => put_at a idx (replicate (length idx) v)
    | _ => Raise ValueError
    end.

End vectors.

(** A two-dimensional array of integers. *)
Record table := {
  width : nat;
  rows : list (list Z)
}.

(** [np.zeros((r, c), dtype=int)] *)
Definition zeros_table (r c : Z) : result table :=
  if (r <? 0) || (c <? 0) then Raise ValueError
  else Ok {| width := Z.to_nat c;
             rows := replicate (Z.to_nat r) (replicate (Z.to_nat c) 0) |}.

(** [a[i, :] = v] *)
Definition setrow (a : table) (i : Z) (v : list Z) : result table :=
  let? k := index (length (rows a)) i in
  if (length v =? width a)%nat then
    Ok {| width := width a; rows := <[k := v]> (rows a) |}
  else
    match v with
    | [x] => Ok {| width := width a; rows := <[k := replicate (width a) x]> (rows a) |}
    | _ => Raise ValueError
    end.

(** [a[i, j] = x] *)
Definition setentry (a : table) (i j : Z) (x : Z) : result table :=
  let? k := index (length (rows a)) i in
  let? l := index (width a) j in
  Ok {| width := width a; rows := alter (fun row => <[l := x]> row) k (rows a) |}.

(** The numerical library behind the template: [np.tan],
    [np.linspace(start, stop, num)] and the flat-plate camber line
    [np.column_stack(geo_utils.generate_naca_camber(0, 2))]. *)
Class Library := {
  tan : float -> float;
  linspace : float -> float -> Z -> result (list float);
  naca_camber : result np.ndarray
}.

(** [np.pi] *)
Definition pi : float := 0x1.921fb54442d18p+1%float.

(** The lengths and angles that [Ttail_3beams.__init__] stores (lines
    138-147). *)
Record geometry := {
  chord_htp_root : float;
  chord_htp_tip : float;
  chord_vtp_root : float;
  span_htp : float;
  height_vtp : float;
  main_ea : float;
  alpha_htp_deg : float;
  sweep_htp_deg : float;
  sweep_vtp_deg : float
}.

(** The attributes that [update_fem_prop] sets. *)
Record fem_prop := {
  frame_of_reference_delta : list (list (list float));
  boundary_conditions : list Z;
  beam_number : list Z;
  conn_loc : list Z;
  conn_surf_vtp : list Z;
  conn_surf_htpL : list Z;
  conn_surf_htpR : list Z;
  conn_glob : table;
  x : list float;
  y : list float;
  z : list float
}.

(** The loop that numbers the nodes of the elements [elems] of one beam:
    [for ee in elems: conn_glob[ee,:] = node_here + conn_loc; node_here += 2]. *)
Fixpoint add_elements (conn_loc : list Z) (elems : list Z)
    (conn_glob : table) (node_here : Z) : result (table * Z) :=
  match elems with
  | [] => Ok (conn_glob, node_here)
  | ee :: elems =>
      let? conn_glob := setrow conn_glob ee (map (Z.add node_here) conn_loc) in
      add_elements conn_loc elems conn_glob (node_here + 2)
  end.

Section fem.

Context {library : Library}.

(** ** [update_fem_prop] *)

(** Lines 203-212: for each element, the beam it belongs to. *)
Definition beam_numbers (self : Ttail_3beams) : result (list Z) :=
  let num_elem_vtp := num_elem_vtp self in
  let num_elem_htpL := num_elem_htpL self in
  let num_elem_htpR := num_elem_htpR self in
  let num_elem_tot := num_elem_tot self in
  let? beam_number := full num_elem_tot 0 in
  let beam_number := fill beam_number (np.upto num_elem_vtp) 0 in
  let beam_number :=
    fill beam_number (np.between num_elem_vtp (num_elem_vtp + num_elem_htpL)) 1 in
  let beam_number := fill beam_number (np.from (- num_elem_htpR)) 2 in
  Ok beam_number.

(** Lines 215-244: the connectivity, and the three nodes it singles out. *)
Record connectivity := {
  loc : list Z;
  surf_vtp : list Z;
  surf_htpL : list Z;
  surf_htpR : list Z;
  glob : table;
  node_intersection : Z;
  node_free_htpL : Z;
  node_free_htpR : Z
}.

Definition connectivities (self : Ttail_3beams) : result connectivity :=
  let num_nodes_elem := num_nodes_elem self in
  let num_elem_vtp := num_elem_vtp self in
  let num_elem_htpL := num_elem_htpL self in
  let num_elem_htpR := num_elem_htpR self in
  let num_elem_tot := num_elem_tot self in
  let conn_loc := [0; 2; 1] in
  let conn_surf_vtp := range num_elem_vtp in
  let conn_surf_htpL := map (fun ee => num_elem_vtp + ee) (range num_elem_htpL) in
  let conn_surf_htpR :=
    map (fun ee => num_elem_vtp + num_elem_htpL + ee) (range num_elem_htpR) in
  let? conn_glob := zeros_table num_elem_tot num_nodes_elem in
  (* add vtp *)
  let node_here := 0 in
  let? (conn_glob, node_here) :=
    add_elements conn_loc conn_surf_vtp conn_glob node_here in
  let node_intersection := node_here in
  (* add htp left *)
  let node_here := node_here + 1 in
  let node_free_htpL := node_here in
  let? (conn_glob, node_here) :=
    add_elements conn_loc conn_surf_htpL conn_glob node_here in
  let? conn_glob :=
    setentry conn_glob (num_elem_vtp + num_elem_htpL - 1) 1 node_intersection in
  let node_here := node_here - 1 in
  (* add htp right *)
  let? (conn_glob, node_here) :=
    add_elements conn_loc conn_surf_htpR conn_glob node_here in
  let? conn_glob :=
    setentry conn_glob (num_elem_vtp + num_elem_htpL) 0 node_intersection in
  let node_free_htpR := node_here in
  Ok {| loc := conn_loc;
        surf_vtp := conn_surf_vtp;
        surf_htpL := conn_surf_htpL;
        surf_htpR := conn_surf_htpR;
        glob := conn_glob;
        node_intersection := node_intersection;
        node_free_htpL := node_free_htpL;
        node_free_htpR := node_free_htpR |}.

(** Lines 247-269: the coordinates of the nodes. *)
Definition nodal_coordinates (self : Ttail_3beams) (g : geometry)
    (node_intersection node_free_htpR : Z)
  : result (list float * list float * list float) :=
  let num_nodes_vtp := num_nodes_vtp self in
  let num_nodes_htpL := num_nodes_htpL self in
  let num_nodes_htpR := num_nodes_htpR self in
  let num_nodes_tot := num_nodes_tot self in
  let sweep_htp := (pi / 180 * sweep_htp_deg g)%float in
  let sweep_vtp := (pi / 180 * sweep_vtp_deg g)%float in
  let? xv := full num_nodes_tot 0%float in
  let? yv := full num_nodes_tot 0%float in
  let? zv := full num_nodes_tot 0%float in
  (* vtp *)
  let nnvec := range num_nodes_vtp in
  let? line := linspace 0 (height_vtp g) num_nodes_vtp in
  let? zv := setitems zv nnvec line in
  let? zs := take_at zv nnvec in
  let? xv := setitems xv nnvec (map (fun zn => zn * tan sweep_vtp)%float zs) in
  (* increment all other nodes *)
  let? x_intersection := get xv node_intersection in
  let xv := fill xv (np.from node_intersection) x_intersection in
  let? z_intersection := get zv node_intersection in
  let zv := fill zv (np.from node_intersection) z_intersection in
  (* htpL *)
  let nnvec := map (fun nn => 1 + node_intersection + nn) (range num_nodes_htpL) in
  let? nnvec := set nnvec (-1) node_intersection in
  let? line := linspace ((-0.5) * span_htp g)%float 0 num_nodes_htpL in
  let? yv := setitems yv nnvec line in
  let? xs := take_at xv nnvec in
  let? ys := take_at yv nnvec in
  let? xv :=
    setitems xv nnvec
      (zip_with (fun xn yn => xn - yn * tan sweep_htp)%float xs ys) in
  (* htpR *)
  let nnvec :=
    reverse (map (fun nn => node_free_htpR - nn) (range num_nodes_htpR)) in
  let? nnvec := set nnvec 0 node_intersection in
  let? line := linspace 0 (0.5 * span_htp g)%float num_nodes_htpR in
  let? yv := setitems yv nnvec line in
  let? xs := take_at xv nnvec in
  let? ys := take_at yv nnvec in
  let? xv :=
    setitems xv nnvec
      (zip_with (fun xn yn => xn + yn * tan sweep_htp)%float xs ys) in
  Ok (xv, yv, zv).

(** Lines 272-276: the clamped node and the two free ends. *)
Definition boundary (self : Ttail_3beams) (node_free_htpL node_free_htpR : Z)
  : result (list Z) :=
  let? boundary_conditions := full (num_nodes_tot self) 0 in
  let? boundary_conditions := set boundary_conditions 0 1 in
  let? boundary_conditions := set boundary_conditions node_free_htpL (-1) in
  set boundary_conditions node_free_htpR (-1).

(** The method: its blocks in turn, then the attributes (lines 286-298). *)
Definition update_fem_prop (self : Ttail_3beams) (g : geometry) : result fem_prop :=
  let? beam_number := beam_numbers self in
  let? conn := connectivities self in
  let? (xv, yv, zv) :=
    nodal_coordinates self g (node_intersection conn) (node_free_htpR conn) in
  let? boundary_conditions :=
    boundary self (node_free_htpL conn) (node_free_htpR conn) in
  (* Define yB, where yB points to the LE *)
  let frame_of_reference_delta :=
    map (fun ielem =>
           map (fun inode => [-1; 0; 0]%float) (range (num_nodes_elem self)))
      (range (num_elem_tot self)) in
  Ok {| frame_of_reference_delta := frame_of_reference_delta;
        boundary_conditions := boundary_conditions;
        beam_number := beam_number;
        conn_loc := loc conn;
        conn_surf_vtp := surf_vtp conn;
        conn_surf_htpL := surf_htpL conn;
        conn_surf_htpR := surf_htpR conn;
        conn_glob := glob conn;
        x := xv;
        y := yv;
        z := zv |}.

End fem.

(** ** Numbers and arrays of [update_aero_prop]

    The chord, twist and sweep are arrays of floats with two axes.  The
    node counters are Python integers, so [np.float(n) / d] converts both to
    binary64 and raises where Python does. *)

Definition OverflowError : exn := OtherError "OverflowError".

(** [float(n)] for an integer [n]: the nearest binary64 number, ties to
    even, and an [OverflowError] beyond the range of the format. *)
Definition float_of_int (n : Z) : result float :=
  let f := SF2Prim (binary_normalize prec emax n 0 false) in
  if is_infinity f then Raise OverflowError else Ok f.

(** [float(n) / d] for integers [n] and [d] *)
Definition ratio (n d : Z) : result float :=
  let? numerator := float_of_int n in
  let? denominator := float_of_int d in
  truediv numerator denominator.

(** [a[i, j] = v] on an array of floats *)
Definition put (a : np.ndarray) (i j : Z) (v : float) : result np.ndarray :=
  let? k := index (np.shape0 a) i in
  let? l := index (np.shape1 a) j in
  Ok (np.tabulate (np.shape0 a) (np.shape1 a) (fun i' j' =>
        if (i' =? k)%nat && (j' =? l)%nat then v else np.item a i' j')).

(** the positions of a list of indices on an axis *)
Fixpoint positions (d : nat) (idx : list Z) : result (list nat) :=
  match idx with
  | [] => Ok []
  | i :: idx =>
      let? k := index d i in
      let? ks := positions d idx in
      Ok (k :: ks)
  end.

(** [a[idx, :] = v] for a list of row indices *)
Definition put_rows (a : np.ndarray) (idx : list Z) (v : float) : result np.ndarray :=
  let? ks := positions (np.shape0 a) idx in
  Ok (np.tabulate (np.shape0 a) (np.shape1 a) (fun i' j' =>
        if bool_decide (i' ∈ ks) then v else np.item a i' j')).

(** [for a in l: s = body(a, s)] *)
Fixpoint for_each {S A : Type} (l : list A) (body : A -> S -> result S) (s : S)
  : result S :=
  match l with
  | [] => Ok s
  | a :: l => let? s := body a s in for_each l body s
  end.

(** The attributes that [update_aero_prop] sets. *)
Record aero_prop := {
  Airfoils_surf : list np.ndarray;
  airfoil_distribution : table;
  aero_node : list bool;
  surface_m : list Z;
  twist : np.ndarray;
  sweep : np.ndarray;
  chord : np.ndarray;
  elastic_axis : np.ndarray
}.

Section aero.

Context {library : Library}.

(** ** [update_aero_prop] *)

(** Lines 354-358: one node of an element of the fin. *)
Definition vtp_node (self : Ttail_3beams) (g : geometry) (conn_loc : list Z)
    (ee nn_count nn : Z) (arrays : np.ndarray * np.ndarray)
  : result (np.ndarray * np.ndarray) :=
  let '(chord, sweep) := arrays in
  let? nn_loc := get conn_loc nn in
  let? eta := ratio (nn_count + nn) (num_nodes_vtp self - 1) in
  let? chord :=
    put chord ee nn_loc
      ((1 - eta) * chord_vtp_root g + eta * chord_htp_root g)%float in
  let? sweep :=
    put sweep ee nn_loc (eta * pi / 180 * (- alpha_htp_deg g))%float in
  Ok (chord, sweep).

(** Lines 364-368 and 373-377: one node of an element of the tail plane,
    between the chords [from] and [to]; the counter moves on with every
    node. *)
Definition htp_node (conn_loc : list Z) (num_nodes : Z) (chord_from chord_to : float)
    (ee nn : Z) (state : np.ndarray * Z) : result (np.ndarray * Z) :=
  let '(chord, nn_count) := state in
  let? nn_loc := get conn_loc nn in
  let? eta := ratio (nn_count + nn) (num_nodes - 1) in
  let? chord :=
    put chord ee nn_loc ((1 - eta) * chord_from + eta * chord_to)%float in
  Ok (chord, nn_count + 1).

Definition update_aero_prop (self : Ttail_3beams) (g : geometry)
    (fem : option fem_prop) : result aero_prop :=
  match fem with
  | None => Raise AssertionError
  | Some fem =>
      let num_elem_tot := num_elem_tot self in
      let num_nodes_vtp := num_nodes_vtp self in
      let num_nodes_htpL := num_nodes_htpL self in
      let num_nodes_htpR := num_nodes_htpR self in
      let num_nodes_tot := num_nodes_tot self in

      (* Generate aerofoil profiles: only flat plate *)
      let? airfoil_distribution := zeros_table num_elem_tot 3 in
      let? camber := naca_camber in
      let Airfoils_surf := [camber] in

      (* Define aerodynamic nodes *)
      let? aero_node := full num_nodes_tot true in

      (* Define chord-wise panelling *)
      let surface_m := map (Z.mul (M self)) [1; 1; 1] in

      (* Define chord-length, sweep, twist *)
      let? chord := np.zeros num_elem_tot 3 in
      let? twist := np.zeros num_elem_tot 3 in
      let? sweep := np.zeros num_elem_tot 3 in
      (* vtp *)
      let nn_count := 0 in
      let? (chord, sweep, nn_count) :=
        for_each (conn_surf_vtp fem)
          (fun ee '(chord, sweep, nn_count) =>
             let? (chord, sweep) :=
               for_each [0; 1; 2]
                 (vtp_node self g (conn_loc fem) ee nn_count) (chord, sweep) in
             Ok (chord, sweep, nn_count + 2))
          (chord, sweep, nn_count) in
      (* htpL *)
      let? twist :=
        put_rows twist (conn_surf_htpL fem) ((- pi) / 180 * alpha_htp_deg g)%float in
      let nn_count := 0 in
      let? (chord, nn_count) :=
        for_each (conn_surf_htpL fem)
          (fun ee state =>
             for_each [0; 1; 2]
               (htp_node (conn_loc fem) num_nodes_htpL
                  (chord_htp_tip g) (chord_htp_root g) ee) state)
          (chord, nn_count) in
      (* htpR *)
      let? twist :=
        put_rows twist (conn_surf_htpR fem) ((- pi) / 180 * alpha_htp_deg g)%float in
      let nn_count := 0 in
      let? (chord, nn_count) :=
        for_each (conn_surf_htpR fem)
          (fun ee state =>
             for_each [0; 1; 2]
               (htp_node (conn_loc fem) num_nodes_htpR
                  (chord_htp_root g) (chord_htp_tip g) ee) state)
          (chord, nn_count) in

      (* Define chord elastic axis position *)
      let elastic_axis :=
        np.tabulate (Z.to_nat num_elem_tot) 3 (fun _ _ => main_ea g * 1)%float in

      Ok {| Airfoils_surf := Airfoils_surf;
            airfoil_distribution := airfoil_distribution;
            aero_node := aero_node;
            surface_m := surface_m;
            twist := twist;
            sweep := sweep;
            chord := chord;
            elastic_axis := elastic_axis |}
  end.

End aero.

End Ttail.

(** * The meshes of the T-tail

    What a run of [update_fem_prop] and of [update_aero_prop] leaves behind,
    for beams of [v], [l] and [r] elements. *)

Module Ttail_meshes.
Import Ttail.

(** the nodes of the [k]-th element of a beam whose first node is [h] *)
Definition run_nodes (h : Z) (k : Z) : list Z :=
  [h + 2 * k; h + 2 * k + 2; h + 2 * k + 1].

(** the attributes of an object whose three beams have [v], [l] and [r]
    elements *)
Definition panelled (self : Ttail_3beams) (v l r : nat) : Prop :=
  num_nodes_elem self = 3
  /\ num_elem_vtp self = Z.of_nat v
  /\ num_elem_htpL self = Z.of_nat l
  /\ num_elem_htpR self = Z.of_nat r
  /\ num_elem_tot self = Z.of_nat (v + l + r)
  /\ num_nodes_vtp self = Z.of_nat (2 * v + 1)
  /\ num_nodes_htpL self = Z.of_nat (2 * l + 1)
  /\ num_nodes_htpR self = Z.of_nat (2 * r + 1)
  /\ num_nodes_tot self = Z.of_nat (2 * (v + l + r) + 1).

(** the nodes of element [e], in the order of [conn_glob]: first node, last
    node, middle node *)
Definition element_nodes (v l : nat) (e : nat) : list Z :=
  let i := 2 * Z.of_nat v in
  if (e <? v)%nat then run_nodes 0 (Z.of_nat e)
  else if (e <? v + l)%nat then
    if (e =? v + l - 1)%nat
    then [i + 2 * Z.of_nat l - 1; i; i + 2 * Z.of_nat l]
    else run_nodes (i + 1) (Z.of_nat e - Z.of_nat v)
  else
    if (e =? v + l)%nat
    then [i; i + 2 * Z.of_nat l + 2; i + 2 * Z.of_nat l + 1]
    else run_nodes (i + 2 * Z.of_nat l) (Z.of_nat e - Z.of_nat (v + l)).

Section mesh.

Context {library : Library}.

(** [np.linspace] returns as many samples as it is asked for *)
Definition linspace_sized : Prop :=
  forall a b n, 0 <= n ->
    exists line, linspace a b n = Ok line /\ length line = Z.to_nat n.

(** [update_fem_prop] has returned [fem] for beams of [v], [l] and [r]
    elements *)
Definition fem_built (g : geometry) (v l r : nat) (fem : fem_prop) : Prop :=
  let nodes := (2 * (v + l + r) + 1)%nat in
  length (beam_number fem) = (v + l + r)%nat
  /\ (forall e, (e < v + l + r)%nat ->
        beam_number fem !! e
        = Some (if (e <? v)%nat then 0 else if (e <? v + l)%nat then 1 else 2))
  /\ conn_loc fem = [0; 2; 1]
  /\ conn_surf_vtp fem = range (Z.of_nat v)
  /\ conn_surf_htpL fem = map (fun ee => Z.of_nat v + ee) (range (Z.of_nat l))
  /\ conn_surf_htpR fem
     = map (fun ee => Z.of_nat v + Z.of_nat l + ee) (range (Z.of_nat r))
  /\ width (conn_glob fem) = 3%nat
  /\ length (rows (conn_glob fem)) = (v + l + r)%nat
  /\ (forall e, (e < v + l + r)%nat ->
        rows (conn_glob fem) !! e = Some (element_nodes v l e))
  /\ boundary_conditions fem
     = <[(2 * (v + l + r))%nat := -1]>
         (<[(2 * v + 1)%nat := -1]> (<[0%nat := 1]> (replicate nodes 0)))
  /\ length (x fem) = nodes /\ length (y fem) = nodes /\ length (z fem) = nodes
  /\ (exists line,
        linspace 0 (height_vtp g) (Z.of_nat (2 * v + 1)) = Ok line
        /\ length line = (2 * v + 1)%nat
        /\ forall n, (n < nodes)%nat -> z fem !! n = line !! Nat.min n (2 * v))
  /\ (forall n, (n < 2 * v)%nat -> y fem !! n = Some 0%float).

End mesh.

(** the chord between [a] and [b] at [eta] *)
Definition between (eta a b : float) : float := ((1 - eta) * a + eta * b)%float.

(** the sweep entry that the fin receives at [eta] *)
Definition leaning (g : geometry) (eta : float) : float :=
  (eta * pi / 180 * (- alpha_htp_deg g))%float.

(** [update_aero_prop] has returned [aero] for beams of [v], [l] and [r]
    elements *)
Definition aero_built (self : Ttail_3beams) (g : geometry) (v l r : nat)
    (aero : aero_prop) : Prop :=
  np.shape0 (chord aero) = (v + l + r)%nat /\ np.shape1 (chord aero) = 3%nat
  /\ np.shape0 (sweep aero) = (v + l + r)%nat /\ np.shape1 (sweep aero) = 3%nat
  /\ np.shape0 (twist aero) = (v + l + r)%nat /\ np.shape1 (twist aero) = 3%nat
  /\ (forall k, (k < v)%nat ->
        exists eta0 eta1 eta2,
          ratio (2 * Z.of_nat k) (num_nodes_vtp self - 1) = Ok eta0
          /\ ratio (2 * Z.of_nat k + 1) (num_nodes_vtp self - 1) = Ok eta1
          /\ ratio (2 * Z.of_nat k + 2) (num_nodes_vtp self - 1) = Ok eta2
          /\ np.item (chord aero) k 0
             = between eta0 (chord_vtp_root g) (chord_htp_root g)
          /\ np.item (chord aero) k 2
             = between eta1 (chord_vtp_root g) (chord_htp_root g)
          /\ np.item (chord aero) k 1
             = between eta2 (chord_vtp_root g) (chord_htp_root g)
          /\ np.item (sweep aero) k 0 = leaning g eta0
          /\ np.item (sweep aero) k 2 = leaning g eta1
          /\ np.item (sweep aero) k 1 = leaning g eta2)
  /\ (forall k, (k < l)%nat ->
        exists eta0 eta1 eta2,
          ratio (3 * Z.of_nat k) (num_nodes_htpL self - 1) = Ok eta0
          /\ ratio (3 * Z.of_nat k + 2) (num_nodes_htpL self - 1) = Ok eta1
          /\ ratio (3 * Z.of_nat k + 4) (num_nodes_htpL self - 1) = Ok eta2
          /\ np.item (chord aero) (v + k) 0
             = between eta0 (chord_htp_tip g) (chord_htp_root g)
          /\ np.item (chord aero) (v + k) 2
             = between eta1 (chord_htp_tip g) (chord_htp_root g)
          /\ np.item (chord aero) (v + k) 1
             = between eta2 (chord_htp_tip g) (chord_htp_root g))
  /\ (forall k, (k < r)%nat ->
        exists eta0 eta1 eta2,
          ratio (3 * Z.of_nat k) (num_nodes_htpR self - 1) = Ok eta0
          /\ ratio (3 * Z.of_nat k + 2) (num_nodes_htpR self - 1) = Ok eta1
          /\ ratio (3 * Z.of_nat k + 4) (num_nodes_htpR self - 1) = Ok eta2
          /\ np.item (chord aero) (v + l + k) 0
             = between eta0 (chord_htp_root g) (chord_htp_tip g)
          /\ np.item (chord aero) (v + l + k) 2
             = between eta1 (chord_htp_root g) (chord_htp_tip g)
          /\ np.item (chord aero) (v + l + k) 1
             = between eta2 (chord_htp_root g) (chord_htp_tip g))
  /\ (forall e j, (v <= e < v + l + r)%nat -> (j < 3)%nat ->
        np.item (sweep aero) e j = 0%float)
  /\ (forall e j, (e < v + l + r)%nat -> (j < 3)%nat ->
        np.item (twist aero) e j
        = if (e <? v)%nat then 0%float
          else ((- pi) / 180 * alpha_htp_deg g)%float).

End Ttail_meshes.


(** * The objects the assembler works with

    These classes live in modules of the package that are not part of the
    two files; the records list the attributes the assembler reads or
    writes. *)

(** [sharpy.linear.src.libss]: a state-space object with its state, input,
    output and feed-through matrices, time step and derived counts. *)
Module libss.

Record ss := {
  A : np.ndarray;
  B : np.ndarray;
  C : np.ndarray;
  D : np.ndarray;
  dt : float;
  inputs : Z;
  outputs : Z;
  states : Z
}.

(** the [where] argument of [addGain] *)
Inductive side := gain_in | gain_out.

End libss.

(** [sharpy.linear.src.lin_aeroelastic.LinAeroEla], the object behind
    [self.sys]: the flexible degree-of-freedom count and the gains that
    [get_gebm2uvlm_gains] leaves on it. *)
Module lin_aeroelastic.

Record LinAeroEla := {
  num_dof_flex : Z;
  Kss : np.ndarray;
  Krs : np.ndarray;
  Csr : np.ndarray;
  Crs : np.ndarray;
  Crr : np.ndarray;
  Kforces : np.ndarray;
  Kdisp : np.ndarray;
  Kdisp_vel : np.ndarray;
  Kvel_disp : np.ndarray;
  Kvel_vel : np.ndarray
}.

End lin_aeroelastic.

(** [sharpy.linear.assembler.linearuvlm.LinearUVLM].  [ScalingFacts] is the
    dictionary [uvlm.sys.ScalingFacts]; [rom], when present, is the
    reduction object, given by its [run] method. *)
Module linearuvlm.

Record LinUVLM := {
  ScalingFacts : gmap string float
}.

Record LinearUVLM := {
  sys : LinUVLM;
  ss : option libss.ss;
  rom : option (libss.ss -> result libss.ss)
}.

Definition set_ss (x : option libss.ss) (u : LinearUVLM) : LinearUVLM :=
  {| sys := sys u; ss := x; rom := rom u |}.

End linearuvlm.

(** [sharpy.linear.assembler.linearbeam.LinearBeam] and the structural
    solver behind [beam.sys].  [Kstr], [Cstr], [num_dof], [num_modes], [U]
    and [SSdisc] are the attributes the assembler uses; [time_ref] and
    [realization] serve the model of the solver given below. *)
Module linearbeam.

Record FlexDynamic := {
  Kstr : np.ndarray;
  Cstr : np.ndarray;
  num_dof : Z;
  num_modes : Z;
  U : np.ndarray;
  time_ref : float;
  SSdisc : option libss.ss;
  (** the first-order discrete realization of the second-order model with
      the given stiffness and damping, at a time scale; the mass matrix, the
      physical time step and the solver settings are fixed in the object *)
  realization : np.ndarray -> np.ndarray -> float -> result libss.ss
}.

Record LinearBeam := {
  sys : FlexDynamic;
  ss : option libss.ss
}.

Definition set_Kstr (x : np.ndarray) (b : FlexDynamic) : FlexDynamic :=
  {| Kstr := x; Cstr := Cstr b; num_dof := num_dof b; num_modes := num_modes b;
     U := U b; time_ref := time_ref b; SSdisc := SSdisc b;
     realization := realization b |}.

Definition set_Cstr (x : np.ndarray) (b : FlexDynamic) : FlexDynamic :=
  {| Kstr := Kstr b; Cstr := x; num_dof := num_dof b; num_modes := num_modes b;
     U := U b; time_ref := time_ref b; SSdisc := SSdisc b;
     realization := realization b |}.

Definition set_time_ref (x : float) (b : FlexDynamic) : FlexDynamic :=
  {| Kstr := Kstr b; Cstr := Cstr b; num_dof := num_dof b; num_modes := num_modes b;
     U := U b; time_ref := x; SSdisc := SSdisc b;
     realization := realization b |}.

Definition set_SSdisc (x : option libss.ss) (b : FlexDynamic) : FlexDynamic :=
  {| Kstr := Kstr b; Cstr := Cstr b; num_dof := num_dof b; num_modes := num_modes b;
     U := U b; time_ref := time_ref b; SSdisc := x;
     realization := realization b |}.

Definition set_sys (x : FlexDynamic) (b : LinearBeam) : LinearBeam :=
  {| sys := x; ss := ss b |}.

Definition set_ss (x : option libss.ss) (b : LinearBeam) : LinearBeam :=
  {| sys := sys b; ss := x |}.

(** Modelled from the spec: the structural subsystem's time rescaling and
    assembly ([update_matrices_time_scale] and [assemble] of [beam.sys],
    [assemble] of the beam wrapper), which are outside the two files.  The
    spec has the subsystem wrap "a first-order state-space realization of a
    mass/stiffness/damping second-order structural model" with "a
    time-rescaling operation", has it "assembled at the aerodynamic
    subsystem's non-dimensional time scale", and has an update reassemble
    "the structural subsystem's discrete realization at the new time step".
    So rescaling records the time scale, and assembling realizes the current
    stiffness and damping at the recorded scale. *)
Definition update_matrices_time_scale (t_ref : float) (b : FlexDynamic)
  : FlexDynamic :=
  set_time_ref t_ref b.

(** Modelled from the spec: [beam.sys.assemble()], which is outside the two
    files; it realizes the current stiffness and damping at the recorded
    time scale and keeps the result in [SSdisc]. *)
Definition FlexDynamic_assemble (b : FlexDynamic) : result FlexDynamic :=
  let? d := realization b (Kstr b) (Cstr b) (time_ref b) in
  Ok (set_SSdisc (Some d) b).

(** Modelled from the spec: [beam.assemble(t_ref)], which is outside the two
    files; the structural subsystem is "assembled at the aerodynamic
    subsystem's non-dimensional time scale" and [beam.ss] is its discrete
    realization. *)
Definition assemble (t_ref : float) (b : LinearBeam) : result LinearBeam :=
  let? s := FlexDynamic_assemble (update_matrices_time_scale t_ref (sys b)) in
  Ok {| sys := s; ss := SSdisc s |}.

End linearbeam.

(** [sharpy.utils.h5utils]: what [readh5] returns, as a tree of objects
    with attributes, dictionaries, arrays and numbers. *)
Module h5.

#[warnings="-register-all"]
Inductive obj :=
| Object (attrs : gmap string obj)
| Dict (items : gmap string obj)
| Array (a : np.ndarray)
| Float (x : float).

(** [o.name] *)
Definition getattr (o : obj) (name : string) : result obj :=
  match o with
  | Object attrs =>
      match attrs !! name with
      | Some x => Ok x
      | None => Raise AttributeError
      end
  | _ => Raise AttributeError
  end.

(** [o[key]] *)
Definition getitem (o : obj) (key : string) : result obj :=
  match o with
  | Dict items =>
      match items !! key with
      | Some x => Ok x
      | None => Raise KeyError
      end
  | _ => Raise TypeError
  end.

End h5.

(** * The collaborators of the assembler

    The functions of the package that [LinearAeroelastic] calls and that
    are outside the two files.  A function that changes its object in place
    returns the changed object.  A collaborator is taken to change nothing
    else: the dictionaries under [data.settings], which [self.settings]
    aliases, stay as they are but for the conversion in place by
    [to_custom_types]. *)
Class Collaborators := {
  (** the type of the [data] object handed to [initialise], and its
      [settings] attribute *)
  PreSharpy : Type;
  data_settings : PreSharpy -> pyval;
  (** [settings.to_custom_types(dictionary, types, default)] *)
  to_custom_types :
    pyval -> gmap string string -> gmap string pyval -> result pyval;
  (** [lin_aeroelastic.LinAeroEla(data, custom_settings_linear)] *)
  LinAeroEla_new : PreSharpy -> pyval -> result lin_aeroelastic.LinAeroEla;
  (** [self.sys.get_gebm2uvlm_gains()] *)
  get_gebm2uvlm_gains :
    lin_aeroelastic.LinAeroEla -> result lin_aeroelastic.LinAeroEla;
  (** [linearuvlm.LinearUVLM()] followed by [initialise(data, custom_settings)] *)
  LinearUVLM_initialise : PreSharpy -> pyval -> result linearuvlm.LinearUVLM;
  (** [uvlm.assemble()] *)
  LinearUVLM_assemble : linearuvlm.LinearUVLM -> result linearuvlm.LinearUVLM;
  (** [linearbeam.LinearBeam()] followed by [initialise(data, custom_settings)] *)
  LinearBeam_initialise : PreSharpy -> pyval -> result linearbeam.LinearBeam;
  (** [ss.addGain(K, where)] *)
  addGain : libss.ss -> np.ndarray -> libss.side -> result libss.ss;
  (** [libss.couple(ss01, ss02, K12, K21)] *)
  couple : libss.ss -> libss.ss -> np.ndarray -> np.ndarray -> result libss.ss;
  (** [libss.ss(A, B, C, D, dt=dt)] *)
  libss_ss : h5.obj -> h5.obj -> h5.obj -> h5.obj -> h5.obj -> result libss.ss;
  (** [h5.readh5(filename)] *)
  readh5 : pyval -> result h5.obj;
  (** [x ** y] on floats, the C library's [pow] *)
  float_pow : float -> float -> float
}.

(** * sharpy/linear/assembler/linearaeroelastic.py *)

Module LinearAeroelastic.

Definition sys_id : string := "LinearAeroelastic".

Definition settings_types : gmap string string :=
  <["uvlm_filename" := "str"]>
    (<["beam_settings" := "dict"]> (<["aero_settings" := "dict"]> ∅)).

Definition settings_default : gmap string pyval :=
  <["uvlm_filename" := PyStr ""]>
    (<["beam_settings" := PyNone]> (<["aero_settings" := PyNone]> ∅)).

(** What the assembler does to the outside: warnings, console output and
    the calls to its collaborators, with the arguments that the properties
    below speak of. *)
Inductive event :=
| Warn (message : string)
| Cout (message : string)
| Call_to_custom_types
| Call_LinAeroEla
| Call_get_gebm2uvlm_gains
| Call_uvlm_initialise (custom_settings : pyval)
| Call_uvlm_assemble
| Call_beam_initialise (custom_settings : pyval)
| Call_beam_assemble (t_ref : float)
| Call_update_matrices_time_scale (t_ref : float)
| Call_beam_sys_assemble
| Call_addGain (K : np.ndarray) (side : libss.side)
| Call_rom_run
| Call_readh5 (filename : pyval)
| Call_libss_ss (A B C D dt : h5.obj)
| Call_couple (ss01 ss02 : libss.ss) (K12 K21 : np.ndarray).

(** The attributes of a [LinearAeroelastic] object.  ([lsys] is created
    empty by [__init__] and never used again; it is left out.) *)
Record object := {
  sys : option lin_aeroelastic.LinAeroEla;
  ss : option libss.ss;
  uvlm : option linearuvlm.LinearUVLM;
  beam : option linearbeam.LinearBeam;
  load_uvlm_from_file : bool;
  settings : pyval;
  state_variables : option (gmap string Z);
  couplings : gmap string np.ndarray
}.

Definition set_sys x (o : object) : object :=
  {| sys := x; ss := ss o; uvlm := uvlm o; beam := beam o;
     load_uvlm_from_file := load_uvlm_from_file o; settings := settings o;
     state_variables := state_variables o; couplings := couplings o |}.

Definition set_ss x (o : object) : object :=
  {| sys := sys o; ss := x; uvlm := uvlm o; beam := beam o;
     load_uvlm_from_file := load_uvlm_from_file o; settings := settings o;
     state_variables := state_variables o; couplings := couplings o |}.

Definition set_uvlm x (o : object) : object :=
  {| sys := sys o; ss := ss o; uvlm := x; beam := beam o;
     load_uvlm_from_file := load_uvlm_from_file o; settings := settings o;
     state_variables := state_variables o; couplings := couplings o |}.

Definition set_beam x (o : object) : object :=
  {| sys := sys o; ss := ss o; uvlm := uvlm o; beam := x;
     load_uvlm_from_file := load_uvlm_from_file o; settings := settings o;
     state_variables := state_variables o; couplings := couplings o |}.

Definition set_load_uvlm_from_file x (o : object) : object :=
  {| sys := sys o; ss := ss o; uvlm := uvlm o; beam := beam o;
     load_uvlm_from_file := x; settings := settings o;
     state_variables := state_variables o; couplings := couplings o |}.

Definition set_settings x (o : object) : object :=
  {| sys := sys o; ss := ss o; uvlm := uvlm o; beam := beam o;
     load_uvlm_from_file := load_uvlm_from_file o; settings := x;
     state_variables := state_variables o; couplings := couplings o |}.

Definition set_state_variables x (o : object) : object :=
  {| sys := sys o; ss := ss o; uvlm := uvlm o; beam := beam o;
     load_uvlm_from_file := load_uvlm_from_file o; settings := settings o;
     state_variables := x; couplings := couplings o |}.

Definition set_couplings x (o : object) : object :=
  {| sys := sys o; ss := ss o; uvlm := uvlm o; beam := beam o;
     load_uvlm_from_file := load_uvlm_from_file o; settings := settings o;
     state_variables := state_variables o; couplings := x |}.

(** ** The monad of a method body

    A method runs on the object [self] and appends to the trace; it ends
    with a value or with an exception, and what it did to the object and to
    the trace before an exception stays done. *)
Record world := {
  self : object;
  trace : list event
}.

Definition M (A : Type) : Type := world -> result A * world.

Definition ret {A} (a : A) : M A := fun w => (Ok a, w).

Definition bind {A B} (m : M A) (k : A -> M B) : M B :=
  fun w =>
    match m w with
    | (Ok a, w') => k a w'
    | (Raise e, w') => (Raise e, w')
    end.

Definition lift {A} (r : result A) : M A := fun w => (r, w).

Definition emit (ev : event) : M unit :=
  fun w => (Ok tt, {| self := self w; trace := trace w ++ [ev] |}).

(** reading and writing attributes of [self] *)
Definition read {A} (f : object -> A) : M A := fun w => (Ok (f (self w)), w).

Definition modify (f : object -> object) : M unit :=
  fun w => (Ok tt, {| self := f (self w); trace := trace w |}).

(** an attribute of an object that may be [None] *)
Definition attr_of {A} (o : option A) : result A :=
  match o with
  | Some a => Ok a
  | None => Raise AttributeError
  end.

(** [try: body  except KeyError: handler] *)
Definition try_except_KeyError {A} (body handler : M A) : M A :=
  fun w =>
    match body w with
    | (Raise KeyError, w') => handler w'
    | r => r
    end.

(** a call to a collaborator *)
Definition call {A} (ev : event) (r : result A) : M A :=
  bind (emit ev) (fun _ => lift r).

Notation "x <- m ;; k" := (bind m (fun x => k))
  (at level 100, m at next level, right associativity).
Notation "m ;; k" := (bind m (fun _ => k))
  (at level 100, right associativity).

(** ** [__init__] *)
Definition __init__ : object :=
  {| sys := None;
     ss := None;
     uvlm := None;
     beam := None;
     load_uvlm_from_file := false;
     settings := PyDict ∅;
     state_variables := None;
     couplings := ∅ |}.

Section methods.

Context {collaborators : Collaborators}.

(** An argument that [to_custom_types] converts in place: the caller's
    dictionary holds the converted entries afterwards, while [None] (or any
    other immutable value) is what it was. *)
Definition in_place (before after : pyval) : pyval :=
  match before with
  | PyDict _ => after
  | _ => before
  end.

(** [self.settings[key]] inside [try: ... except KeyError: ... = None] *)
Definition sub_settings (key : string) : M pyval :=
  try_except_KeyError
    (s <- read settings ;; lift (subscript s key))
    (ret PyNone).

(** ** [initialise] *)
Definition initialise (data : PreSharpy) : M unit :=
  try_except_KeyError
    (la <- lift (subscript (data_settings data) "LinearAssembler") ;;
     s <- lift (subscript la sys_id) ;;
     modify (set_settings s))
    (modify (set_settings PyNone)) ;;
  s <- read settings ;;
  converted <- call Call_to_custom_types
                 (to_custom_types s settings_types settings_default) ;;
  modify (set_settings (in_place s converted)) ;;

  s <- read settings ;;
  lin <- call Call_LinAeroEla (LinAeroEla_new data s) ;;
  modify (set_sys (Some lin)) ;;

  (* Initialise aerodynamic *)
  uvlm_settings <- sub_settings "aero_settings" ;;
  uvlm <- call (Call_uvlm_initialise uvlm_settings)
            (LinearUVLM_initialise data uvlm_settings) ;;
  s <- read settings ;;
  filename <- lift (subscript s "uvlm_filename") ;;
  uvlm <- (if eq_str filename ""
           then call Call_uvlm_assemble (LinearUVLM_assemble uvlm)
           else modify (set_load_uvlm_from_file true) ;; ret uvlm) ;;
  modify (set_uvlm (Some uvlm)) ;;

  (* Create beam *)
  beam_settings <- sub_settings "beam_settings" ;;
  beam <- call (Call_beam_initialise beam_settings)
            (LinearBeam_initialise data beam_settings) ;;
  modify (set_beam (Some beam)).

(** ** Attribute paths used by [assemble] and [update]

    [uvlm] and [beam] in [assemble] are aliases of [self.uvlm] and
    [self.beam]; each path is followed from [self] at the point of use. *)
Definition self_sys : M lin_aeroelastic.LinAeroEla :=
  o <- read sys ;; lift (attr_of o).

Definition self_uvlm : M linearuvlm.LinearUVLM :=
  o <- read uvlm ;; lift (attr_of o).

Definition self_beam : M linearbeam.LinearBeam :=
  o <- read beam ;; lift (attr_of o).

Definition uvlm_ss : M libss.ss :=
  u <- self_uvlm ;; lift (attr_of (linearuvlm.ss u)).

Definition beam_ss : M libss.ss :=
  b <- self_beam ;; lift (attr_of (linearbeam.ss b)).

Definition beam_sys : M linearbeam.FlexDynamic :=
  b <- self_beam ;; ret (linearbeam.sys b).

Definition set_uvlm_ss (x : libss.ss) : M unit :=
  u <- self_uvlm ;; modify (set_uvlm (Some (linearuvlm.set_ss (Some x) u))).

Definition set_beam_sys (x : linearbeam.FlexDynamic) : M unit :=
  b <- self_beam ;; modify (set_beam (Some (linearbeam.set_sys x b))).

(** [uvlm.sys.ScalingFacts[key]] *)
Definition ScalingFacts (key : string) : M float :=
  u <- self_uvlm ;;
  lift (lookup_key (linearuvlm.ScalingFacts (linearuvlm.sys u)) key).

(** [self.settings['beam_settings'][key]] *)
Definition beam_settings (key : string) : M pyval :=
  s <- read settings ;;
  bs <- lift (subscript s "beam_settings") ;;
  lift (subscript bs key).

(** [self.couplings[key] = x] *)
Definition set_coupling (key : string) (x : np.ndarray) : M unit :=
  c <- read couplings ;; modify (set_couplings (<[key := x]> c)).

(** ** [load_uvlm] *)
Definition load_uvlm (filename : pyval) : M libss.ss :=
  emit (Cout "Loading UVLM state space system projected onto structural DOFs from file") ;;
  file <- call (Call_readh5 filename) (readh5 filename) ;;
  read_data <- lift (h5.getattr file "data") ;;
  linear <- lift (h5.getattr read_data "linear") ;;
  lsys <- lift (h5.getattr linear "lsys") ;;
  element <- lift (h5.getitem lsys sys_id) ;;
  element_uvlm <- lift (h5.getattr element "uvlm") ;;
  uvlm_ss_read <- lift (h5.getattr element_uvlm "ss") ;;
  A <- lift (h5.getattr uvlm_ss_read "A") ;;
  B <- lift (h5.getattr uvlm_ss_read "B") ;;
  C <- lift (h5.getattr uvlm_ss_read "C") ;;
  D <- lift (h5.getattr uvlm_ss_read "D") ;;
  dt <- lift (h5.getattr uvlm_ss_read "dt") ;;
  call (Call_libss_ss A B C D dt) (libss_ss A B C D dt).

(** ** [assemble] *)

(** Lines 122-135: the stiffening and damping terms that the linearisation
    of the aerodynamic forces adds to the beam matrices. *)
Record aero_terms := {
  stiff_aero : np.ndarray;
  damping_aero : np.ndarray;
  rigid_dof : Z;
  total_dof : Z
}.

Definition aero_stiffening_damping (flex_nodes : Z)
    (lin : lin_aeroelastic.LinAeroEla) (Kstr Cstr : np.ndarray)
  : result aero_terms :=
  let stiff_aero := np.zeros_like Kstr in
  let damping_aero := np.zeros_like Cstr in
  let? stiff_aero :=
    np.setitem stiff_aero (np.upto flex_nodes) (np.upto flex_nodes)
      (lin_aeroelastic.Kss lin) in
  let rigid_dof := Z.of_nat (np.shape0 Kstr) - flex_nodes in
  let total_dof := flex_nodes + rigid_dof in
  if 0 <? rigid_dof then
    let rigid_dof :=
      Z.of_nat (np.shape0 Kstr) - Z.of_nat (np.shape0 (lin_aeroelastic.Kss lin)) in
    let? stiff_aero :=
      np.setitem stiff_aero (np.from flex_nodes) (np.upto flex_nodes)
        (lin_aeroelastic.Krs lin) in
    let? damping_aero :=
      np.setitem damping_aero (np.upto flex_nodes) (np.from flex_nodes)
        (lin_aeroelastic.Csr lin) in
    let? damping_aero :=
      np.setitem damping_aero (np.from flex_nodes) (np.from flex_nodes)
        (lin_aeroelastic.Crr lin) in
    let? damping_aero :=
      np.setitem damping_aero (np.from flex_nodes) (np.upto flex_nodes)
        (lin_aeroelastic.Crs lin) in
    Ok {| stiff_aero := stiff_aero; damping_aero := damping_aero;
          rigid_dof := rigid_dof; total_dof := total_dof |}
  else
    Ok {| stiff_aero := stiff_aero; damping_aero := damping_aero;
          rigid_dof := rigid_dof; total_dof := total_dof |}.

(** Lines 145-153: the gains that project the UVLM outputs and inputs onto
    the structural degrees of freedom. *)
Definition projection_gains (lin : lin_aeroelastic.LinAeroEla)
    (num_dof uvlm_inputs : Z) : result (np.ndarray * np.ndarray) :=
  let Ksa := np.getitem (lin_aeroelastic.Kforces lin) (np.upto num_dof) np.all in
  let Kdisp_rows := Z.of_nat (np.shape0 (lin_aeroelastic.Kdisp lin)) in
  let? Kas :=
    np.zeros uvlm_inputs (2 * num_dof + (uvlm_inputs - 2 * Kdisp_rows)) in
  let? blocks :=
    np.block
      (np.getitem (lin_aeroelastic.Kdisp lin) np.all (np.upto num_dof))
      (np.getitem (lin_aeroelastic.Kdisp_vel lin) np.all (np.upto num_dof))
      (np.getitem (lin_aeroelastic.Kvel_disp lin) np.all (np.upto num_dof))
      (np.getitem (lin_aeroelastic.Kvel_vel lin) np.all (np.upto num_dof)) in
  let? Kas :=
    np.setitem Kas (np.upto (2 * Kdisp_rows)) (np.upto (2 * num_dof)) blocks in
  (* Retain other inputs *)
  let? retained :=
    np.eye (uvlm_inputs - 2 * Kdisp_rows) (uvlm_inputs - 2 * Kdisp_rows) in
  let? Kas :=
    np.setitem Kas (np.from (2 * Kdisp_rows)) (np.from (2 * num_dof)) retained in
  Ok (Ksa, Kas).

(** Lines 164-167: the input-side modal projection matrix. *)
Definition in_mode_matrix (phi : np.ndarray)
    (uvlm_inputs beam_outputs num_dof num_modes : Z)
    (scaling : gmap string float) : result np.ndarray :=
  let? m := np.eye uvlm_inputs (beam_outputs + (uvlm_inputs - 2 * num_dof)) in
  let? m :=
    np.setitem m (np.upto (2 * num_dof)) (np.upto (2 * num_modes))
      (sclalg.block_diag phi phi) in
  let? length := lookup_key scaling "length" in
  Ok (np.idiv m np.all np.all length).

(** Lines 142-178: projection of the UVLM, or the load from file. *)
Definition project_uvlm : M unit :=
  load <- read load_uvlm_from_file ;;
  if negb load then
    (* Projecting the UVLM inputs and outputs onto the structural degrees of freedom *)
    lin <- self_sys ;;
    b <- beam_sys ;;
    u <- uvlm_ss ;;
    gains <- lift (projection_gains lin (linearbeam.num_dof b) (libss.inputs u)) ;;
    let '(Ksa, Kas) := gains in
    u <- uvlm_ss ;;
    u <- call (Call_addGain Ksa libss.gain_out) (addGain u Ksa libss.gain_out) ;;
    set_uvlm_ss u ;;
    u <- uvlm_ss ;;
    u <- call (Call_addGain Kas libss.gain_in) (addGain u Kas libss.gain_in) ;;
    set_uvlm_ss u ;;
    set_coupling "Ksa" Ksa ;;
    set_coupling "Kas" Kas ;;

    modal_projection <- beam_settings "modal_projection" ;;
    modal <- lift (value modal_projection) ;;
    modes <- (if modal
              then inout_coords <- beam_settings "inout_coords" ;;
                   ret (eq_str inout_coords "modes")
              else ret false) ;;
    (if modes then
       (* Project UVLM onto modal space and scale length *)
       b <- beam_sys ;;
       let phi := linearbeam.U b in
       u <- uvlm_ss ;;
       bs <- beam_ss ;;
       uv <- self_uvlm ;;
       m_in <- lift (in_mode_matrix phi (libss.inputs u) (libss.outputs bs)
                       (linearbeam.num_dof b) (linearbeam.num_modes b)
                       (linearuvlm.ScalingFacts (linearuvlm.sys uv))) ;;
       let m_out := np.T phi in
       u <- uvlm_ss ;;
       u <- call (Call_addGain m_in libss.gain_in) (addGain u m_in libss.gain_in) ;;
       set_uvlm_ss u ;;
       u <- uvlm_ss ;;
       u <- call (Call_addGain m_out libss.gain_out) (addGain u m_out libss.gain_out) ;;
       set_uvlm_ss u
     else ret tt) ;;

    (* Reduce uvlm projected onto structural coordinates *)
    uv <- self_uvlm ;;
    match linearuvlm.rom uv with
    | Some run =>
        u <- uvlm_ss ;;
        u <- call Call_rom_run (run u) ;;
        set_uvlm_ss u
    | None => ret tt
    end
  else
    s <- read settings ;;
    filename <- lift (subscript s "uvlm_filename") ;;
    u <- load_uvlm filename ;;
    set_uvlm_ss u.

Definition rigid_warning : string :=
  "Time scaling for problems with rigid body motion not yet supported.".

(** Lines 181-193: the coupling matrices and their scaling. *)
Definition coupling_matrices (flex_nodes rigid_dof total_dof : Z)
  : M (np.ndarray * np.ndarray) :=
  u <- uvlm_ss ;;
  b <- beam_ss ;;
  Tas <- lift (np.eye (libss.inputs u) (libss.outputs b)) ;;
  Tsa <- lift (np.eye (libss.inputs b) (libss.outputs u)) ;;

  (* Scale coupling matrices *)
  force <- ScalingFacts "force" ;;
  time <- ScalingFacts "time" ;;
  let Tsa := np.imul Tsa (force * float_pow time 2)%float in
  if 0 <? rigid_dof then
    emit (Warn rigid_warning) ;;
    length <- ScalingFacts "length" ;;
    let Tas := np.idiv Tas (np.upto (flex_nodes + 3)) (np.upto (flex_nodes + 3)) length in
    length <- ScalingFacts "length" ;;
    let Tas :=
      np.idiv Tas (np.between total_dof (total_dof + flex_nodes + 3)) np.all length in
    ret (Tas, Tsa)
  else
    modal_projection <- beam_settings "modal_projection" ;;
    modal <- lift (value modal_projection) ;;
    if negb modal then
      length <- ScalingFacts "length" ;;
      ret (np.idiv Tas np.all np.all length, Tsa)
    else ret (Tas, Tsa).

Definition assemble : M unit :=
  (* Linearisation of the aerodynamic forces introduces stiffenning and
     damping terms into the beam matrices *)
  lin <- self_sys ;;
  let flex_nodes := lin_aeroelastic.num_dof_flex lin in
  lin <- call Call_get_gebm2uvlm_gains (get_gebm2uvlm_gains lin) ;;
  modify (set_sys (Some lin)) ;;

  b <- beam_sys ;;
  lin <- self_sys ;;
  terms <- lift (aero_stiffening_damping flex_nodes lin
                   (linearbeam.Kstr b) (linearbeam.Cstr b)) ;;

  b <- beam_sys ;;
  Cstr <- lift (np.iadd (linearbeam.Cstr b) (damping_aero terms)) ;;
  set_beam_sys (linearbeam.set_Cstr Cstr b) ;;
  b <- beam_sys ;;
  Kstr <- lift (np.iadd (linearbeam.Kstr b) (stiff_aero terms)) ;;
  set_beam_sys (linearbeam.set_Kstr Kstr b) ;;

  t_ref <- ScalingFacts "time" ;;
  b <- self_beam ;;
  b <- call (Call_beam_assemble t_ref) (linearbeam.assemble t_ref b) ;;
  modify (set_beam (Some b)) ;;

  project_uvlm ;;

  (* Coupling matrices *)
  T <- coupling_matrices flex_nodes (rigid_dof terms) (total_dof terms) ;;
  let '(Tas, Tsa) := T in

  u <- uvlm_ss ;;
  b <- beam_ss ;;
  coupled <- call (Call_couple u b Tas Tsa) (couple u b Tas Tsa) ;;
  modify (set_ss (Some coupled)) ;;
  set_coupling "Tas" Tas ;;
  set_coupling "Tsa" Tsa ;;

  u <- uvlm_ss ;;
  b <- beam_ss ;;
  modify (set_state_variables
            (Some (<["beam" := libss.states b]> (<["aero" := libss.states u]> ∅)))).

(** ** [update] *)
Definition update (u_infty : float) : M libss.ss :=
  length <- ScalingFacts "length" ;;
  t_ref <- lift (truediv length u_infty) ;;

  b <- beam_sys ;;
  emit (Call_update_matrices_time_scale t_ref) ;;
  set_beam_sys (linearbeam.update_matrices_time_scale t_ref b) ;;
  b <- beam_sys ;;
  b <- call Call_beam_sys_assemble (linearbeam.FlexDynamic_assemble b) ;;
  set_beam_sys b ;;
  b <- self_beam ;;
  modify (set_beam (Some (linearbeam.set_ss (linearbeam.SSdisc (linearbeam.sys b)) b))) ;;

  u <- self_uvlm ;;
  b <- self_beam ;;
  c <- read couplings ;;
  Tas <- lift (lookup_key c "Tas") ;;
  Tsa <- lift (lookup_key c "Tsa") ;;
  (* [couple] works on state-space objects: [None] in the place of one
     fails in it on the first attribute *)
  ss01 <- lift (attr_of (linearuvlm.ss u)) ;;
  ss02 <- lift (attr_of (linearbeam.ss b)) ;;
  coupled <- call (Call_couple ss01 ss02 Tas Tsa) (couple ss01 ss02 Tas Tsa) ;;
  modify (set_ss (Some coupled)) ;;

  (* return self.ss *)
  ret coupled.

End methods.

End LinearAeroelastic.

(** * Runs of the methods

    The vocabulary in which the properties of [assemble] and [update] are
    stated: what a successful run of each part of [assemble] has read, has
    computed, has asked of the collaborators and has left in the object. *)

Module runs.
Import LinearAeroelastic.

(** [wp m w Q]: whenever [m] runs from [w] to a value, the value and the
    world it leaves satisfy [Q]. *)
Definition wp {A} (m : M A) (w : world) (Q : A -> world -> Prop) : Prop :=
  forall a w', m w = (Ok a, w') -> Q a w'.

Definition after_emit (ev : event) (w : world) : world :=
  {| self := self w; trace := trace w ++ [ev] |}.

Definition after_modify (f : object -> object) (w : world) : world :=
  {| self := f (self w); trace := trace w |}.

(** the beam after its realization [d] at the time scale [t_ref] *)
Definition reassembled (t_ref : float) (d : libss.ss) (b : linearbeam.LinearBeam)
  : linearbeam.LinearBeam :=
  {| linearbeam.sys :=
       linearbeam.set_SSdisc (Some d)
         (linearbeam.update_matrices_time_scale t_ref (linearbeam.sys b));
     linearbeam.ss := Some d |}.

(** [self.settings['beam_settings']['modal_projection'].value] *)
Definition modal_projection (s : pyval) : result bool :=
  let? bs := subscript s "beam_settings" in
  let? mp := subscript bs "modal_projection" in
  value mp.

(** the test of line 161: modal projection with input and output in modes *)
Definition projected_onto_modes (s : pyval) : result bool :=
  let? modal := modal_projection s in
  if modal then
    let? bs := subscript s "beam_settings" in
    let? inout_coords := subscript bs "inout_coords" in
    Ok (eq_str inout_coords "modes")
  else Ok false.

(** [data.settings['LinearAssembler']['LinearAeroelastic']] *)
Definition own_settings (data_settings : pyval) : result pyval :=
  let? block := subscript data_settings "LinearAssembler" in
  subscript block sys_id.

(** the events of a run from [w] to [w'] *)
Definition emitted (w w' : world) (evs : list event) : Prop :=
  trace w' = trace w ++ evs.

(** the warnings among the events, in order *)
Definition warnings (evs : list event) : list string :=
  omap (fun ev => match ev with Warn message => Some message | _ => None end) evs.

(** the gains injected with [addGain] *)
Definition gains_added (evs : list event) : list (np.ndarray * libss.side) :=
  omap (fun ev => match ev with Call_addGain K side => Some (K, side) | _ => None end)
    evs.

(** the model-order reductions run *)
Definition reductions (evs : list event) : list unit :=
  omap (fun ev => match ev with Call_rom_run => Some tt | _ => None end) evs.

(** the interconnections formed with [couple] *)
Definition interconnections (evs : list event)
  : list (libss.ss * libss.ss * np.ndarray * np.ndarray) :=
  omap (fun ev =>
          match ev with
          | Call_couple ss01 ss02 K12 K21 => Some (ss01, ss02, K12, K21)
          | _ => None
          end) evs.

(** the state-space objects built from persisted fields *)
Definition reconstructions (evs : list event)
  : list (h5.obj * h5.obj * h5.obj * h5.obj * h5.obj) :=
  omap (fun ev =>
          match ev with
          | Call_libss_ss A B C D dt => Some (A, B, C, D, dt)
          | _ => None
          end) evs.

(** the rigid-body degrees of freedom of the structural model: the rows of
    the beam stiffness matrix beyond the flexible ones *)
Definition rigid_body_dofs (w : world) : option Z :=
  b ← beam (self w);
  lin ← sys (self w);
  Some (Z.of_nat (np.shape0 (linearbeam.Kstr (linearbeam.sys b)))
        - lin_aeroelastic.num_dof_flex lin).

(** the aerodynamic time scaling factor *)
Definition time_scaling (w : world) : option float :=
  u ← uvlm (self w);
  linearuvlm.ScalingFacts (linearuvlm.sys u) !! "time".

(** the events that a run from [w] has added to the trace of [w'] *)
Definition new_events (w w' : world) : list event :=
  drop (length (trace w)) (trace w').

(** the attributes that only [initialise] sets *)
Definition same_configuration (o o' : object) : Prop :=
  settings o' = settings o
  /\ load_uvlm_from_file o' = load_uvlm_from_file o.

Section runs.

Context {collaborators : Collaborators}.

(** [load_uvlm(filename)] has returned [s] *)
Definition loaded (filename : pyval) (s : libss.ss) (evs : list event) : Prop :=
  exists file data linear lsys element element_uvlm uvlm_ss_read A B C D dt,
    readh5 filename = Ok file
    /\ h5.getattr file "data" = Ok data
    /\ h5.getattr data "linear" = Ok linear
    /\ h5.getattr linear "lsys" = Ok lsys
    /\ h5.getitem lsys sys_id = Ok element
    /\ h5.getattr element "uvlm" = Ok element_uvlm
    /\ h5.getattr element_uvlm "ss" = Ok uvlm_ss_read
    /\ h5.getattr uvlm_ss_read "A" = Ok A
    /\ h5.getattr uvlm_ss_read "B" = Ok B
    /\ h5.getattr uvlm_ss_read "C" = Ok C
    /\ h5.getattr uvlm_ss_read "D" = Ok D
    /\ h5.getattr uvlm_ss_read "dt" = Ok dt
    /\ libss_ss A B C D dt = Ok s
    /\ evs = [Cout "Loading UVLM state space system projected onto structural DOFs from file";
              Call_readh5 filename;
              Call_libss_ss A B C D dt].

(** lines 161-171: from the aerodynamic system [u2] to [u4] *)
Definition modal_stage (w : world) (modes : bool) (u2 u4 : libss.ss)
    (evs : list event) : Prop :=
  if modes then
    exists b bs uv m_in u3,
      beam (self w) = Some b
      /\ linearbeam.ss b = Some bs
      /\ uvlm (self w) = Some uv
      /\ in_mode_matrix (linearbeam.U (linearbeam.sys b))
           (libss.inputs u2) (libss.outputs bs)
           (linearbeam.num_dof (linearbeam.sys b))
           (linearbeam.num_modes (linearbeam.sys b))
           (linearuvlm.ScalingFacts (linearuvlm.sys uv)) = Ok m_in
      /\ addGain u2 m_in libss.gain_in = Ok u3
      /\ addGain u3 (np.T (linearbeam.U (linearbeam.sys b))) libss.gain_out = Ok u4
      /\ evs = [Call_addGain m_in libss.gain_in;
                Call_addGain (np.T (linearbeam.U (linearbeam.sys b))) libss.gain_out]
  else u4 = u2 /\ evs = [].

(** lines 174-175: from [u4] to [u5] *)
Definition reduction_stage (rom : option (libss.ss -> result libss.ss))
    (u4 u5 : libss.ss) (evs : list event) : Prop :=
  match rom with
  | Some run => run u4 = Ok u5 /\ evs = [Call_rom_run]
  | None => u5 = u4 /\ evs = []
  end.

(** lines 142-178 have run from [w] to [w'] *)
Definition projected (w w' : world) : Prop :=
  exists uv u5 evs,
    uvlm (self w) = Some uv
    /\ emitted w w' evs
    /\ uvlm (self w') = Some (linearuvlm.set_ss (Some u5) uv)
    /\ sys (self w') = sys (self w)
    /\ beam (self w') = beam (self w)
    /\ ss (self w') = ss (self w)
    /\ state_variables (self w') = state_variables (self w)
    /\ same_configuration (self w) (self w')
    /\ if load_uvlm_from_file (self w) then
         couplings (self w') = couplings (self w)
         /\ exists filename,
              subscript (settings (self w)) "uvlm_filename" = Ok filename
              /\ loaded filename u5 evs
       else
         exists lin b u0 Ksa Kas u1 u2 modes u4 evs_modal evs_rom,
           sys (self w) = Some lin
           /\ beam (self w) = Some b
           /\ linearuvlm.ss uv = Some u0
           /\ projection_gains lin (linearbeam.num_dof (linearbeam.sys b))
                (libss.inputs u0) = Ok (Ksa, Kas)
           /\ addGain u0 Ksa libss.gain_out = Ok u1
           /\ addGain u1 Kas libss.gain_in = Ok u2
           /\ couplings (self w')
              = <["Kas" := Kas]> (<["Ksa" := Ksa]> (couplings (self w)))
           /\ projected_onto_modes (settings (self w)) = Ok modes
           /\ modal_stage w modes u2 u4 evs_modal
           /\ reduction_stage (linearuvlm.rom uv) u4 u5 evs_rom
           /\ evs = [Call_addGain Ksa libss.gain_out; Call_addGain Kas libss.gain_in]
                    ++ evs_modal ++ evs_rom.

(** lines 181-193 have run from [w] to [w'] and produced [Tas] and [Tsa] *)
Definition coupling_built (flex_nodes rigid_dof total_dof : Z)
    (w : world) (Tas Tsa : np.ndarray) (w' : world) : Prop :=
  exists uv us b bs eye_as eye_sa force time,
    uvlm (self w) = Some uv
    /\ linearuvlm.ss uv = Some us
    /\ beam (self w) = Some b
    /\ linearbeam.ss b = Some bs
    /\ np.eye (libss.inputs us) (libss.outputs bs) = Ok eye_as
    /\ np.eye (libss.inputs bs) (libss.outputs us) = Ok eye_sa
    /\ linearuvlm.ScalingFacts (linearuvlm.sys uv) !! "force" = Some force
    /\ linearuvlm.ScalingFacts (linearuvlm.sys uv) !! "time" = Some time
    /\ Tsa = np.imul eye_sa (force * float_pow time 2)%float
    /\ self w' = self w
    /\ ((0 < rigid_dof
         /\ emitted w w' [Warn rigid_warning]
         /\ exists length,
              linearuvlm.ScalingFacts (linearuvlm.sys uv) !! "length" = Some length
              /\ Tas = np.idiv
                         (np.idiv eye_as (np.upto (flex_nodes + 3))
                            (np.upto (flex_nodes + 3)) length)
                         (np.between total_dof (total_dof + flex_nodes + 3))
                         np.all length)
        \/ (rigid_dof <= 0
            /\ emitted w w' []
            /\ exists modal,
                 modal_projection (settings (self w)) = Ok modal
                 /\ if modal then Tas = eye_as
                    else exists length,
                      linearuvlm.ScalingFacts (linearuvlm.sys uv) !! "length"
                        = Some length
                      /\ Tas = np.idiv eye_as np.all np.all length)).

(** a setting [s[key]] read under [try: ... except KeyError: ... = None] *)
Definition read_or_None (s : pyval) (key : string) (v : pyval) : Prop :=
  subscript s key = Ok v \/ (subscript s key = Raise KeyError /\ v = PyNone).

(** [initialise(data)] has run from [w] to [w'] *)
Definition initialised (data : PreSharpy) (w w' : world) : Prop :=
  exists own converted lin uvlm_settings u0 filename u1 beam_settings b0,
    (own_settings (data_settings data) = Ok own
     \/ (own_settings (data_settings data) = Raise KeyError /\ own = PyNone))
    /\ to_custom_types own settings_types settings_default = Ok converted
    /\ settings (self w') = in_place own converted
    /\ LinAeroEla_new data (settings (self w')) = Ok lin
    /\ sys (self w') = Some lin
    /\ read_or_None (settings (self w')) "aero_settings" uvlm_settings
    /\ LinearUVLM_initialise data uvlm_settings = Ok u0
    /\ subscript (settings (self w')) "uvlm_filename" = Ok filename
    /\ (if eq_str filename ""
        then LinearUVLM_assemble u0 = Ok u1
             /\ load_uvlm_from_file (self w') = load_uvlm_from_file (self w)
        else u1 = u0 /\ load_uvlm_from_file (self w') = true)
    /\ uvlm (self w') = Some u1
    /\ read_or_None (settings (self w')) "beam_settings" beam_settings
    /\ LinearBeam_initialise data beam_settings = Ok b0
    /\ beam (self w') = Some b0
    /\ ss (self w') = ss (self w)
    /\ couplings (self w') = couplings (self w)
    /\ state_variables (self w') = state_variables (self w)
    /\ emitted w w'
         ([Call_to_custom_types; Call_LinAeroEla;
           Call_uvlm_initialise uvlm_settings]
          ++ (if eq_str filename "" then [Call_uvlm_assemble] else [])
          ++ [Call_beam_initialise beam_settings]).

(** [update(u_infty)] has run from [w] to [w'] and returned [r] *)
Definition updated (u_infty : float) (w : world) (r : libss.ss) (w' : world)
  : Prop :=
  exists u b length Tas Tsa ss01 ss02,
    uvlm (self w) = Some u
    /\ beam (self w) = Some b
    /\ linearuvlm.ScalingFacts (linearuvlm.sys u) !! "length" = Some length
    /\ (u_infty =? 0)%float = false
    /\ linearbeam.realization (linearbeam.sys b)
         (linearbeam.Kstr (linearbeam.sys b)) (linearbeam.Cstr (linearbeam.sys b))
         (length / u_infty)%float = Ok ss02
    /\ beam (self w') = Some (reassembled (length / u_infty)%float ss02 b)
    /\ couplings (self w) !! "Tas" = Some Tas
    /\ couplings (self w) !! "Tsa" = Some Tsa
    /\ linearuvlm.ss u = Some ss01
    /\ couple ss01 ss02 Tas Tsa = Ok r
    /\ emitted w w'
         [Call_update_matrices_time_scale (length / u_infty)%float;
          Call_beam_sys_assemble;
          Call_couple ss01 ss02 Tas Tsa]
    /\ ss (self w') = Some r
    /\ uvlm (self w') = uvlm (self w)
    /\ couplings (self w') = couplings (self w)
    /\ sys (self w') = sys (self w)
    /\ state_variables (self w') = state_variables (self w)
    /\ same_configuration (self w) (self w').

(** [assemble] has run from [w] to [w'] *)
Definition assembled (w w' : world) : Prop :=
  exists lin0 lin b0 uv terms Cstr Kstr time b1 w1 w2 w3 Tas Tsa us bs coupled,
    sys (self w) = Some lin0
    /\ get_gebm2uvlm_gains lin0 = Ok lin
    /\ beam (self w) = Some b0
    /\ uvlm (self w) = Some uv
    /\ aero_stiffening_damping (lin_aeroelastic.num_dof_flex lin0) lin
         (linearbeam.Kstr (linearbeam.sys b0))
         (linearbeam.Cstr (linearbeam.sys b0)) = Ok terms
    /\ np.iadd (linearbeam.Cstr (linearbeam.sys b0)) (damping_aero terms) = Ok Cstr
    /\ np.iadd (linearbeam.Kstr (linearbeam.sys b0)) (stiff_aero terms) = Ok Kstr
    /\ linearuvlm.ScalingFacts (linearuvlm.sys uv) !! "time" = Some time
    /\ linearbeam.assemble time
         (linearbeam.set_sys
            (linearbeam.set_Kstr Kstr
               (linearbeam.set_Cstr Cstr (linearbeam.sys b0))) b0) = Ok b1
    /\ self w1 = set_beam (Some b1) (set_sys (Some lin) (self w))
    /\ emitted w w1 [Call_get_gebm2uvlm_gains; Call_beam_assemble time]
    /\ projected w1 w2
    /\ coupling_built (lin_aeroelastic.num_dof_flex lin0)
         (rigid_dof terms) (total_dof terms) w2 Tas Tsa w3
    /\ uvlm (self w2) ≫= linearuvlm.ss = Some us
    /\ linearbeam.ss b1 = Some bs
    /\ couple us bs Tas Tsa = Ok coupled
    /\ emitted w3 w' [Call_couple us bs Tas Tsa]
    /\ ss (self w') = Some coupled
    /\ couplings (self w')
       = <["Tsa" := Tsa]> (<["Tas" := Tas]> (couplings (self w2)))
    /\ state_variables (self w')
       = Some (<["beam" := libss.states bs]> (<["aero" := libss.states us]> ∅))
    /\ sys (self w') = Some lin
    /\ uvlm (self w') = uvlm (self w2)
    /\ beam (self w') = Some b1
    /\ same_configuration (self w) (self w').

End runs.

(** [read_data.linear.lsys[self.sys_id].uvlm.ss] for the object [file] that
    [readh5] has returned (lines 232-233) *)
Definition persisted_ss (file : h5.obj) : result h5.obj :=
  let? read_data := h5.getattr file "data" in
  let? linear := h5.getattr read_data "linear" in
  let? lsys := h5.getattr linear "lsys" in
  let? element := h5.getitem lsys sys_id in
  let? element_uvlm := h5.getattr element "uvlm" in
  h5.getattr element_uvlm "ss".

(** the five attributes from which [load_uvlm] builds the state space *)
Definition persisted_fields : list string := ["A"; "B"; "C"; "D"; "dt"].

End runs.

(** * A small case to run the methods on

    An implementation of the collaborators for a beam with two flexible
    degrees of freedom and an aerodynamic grid with two coordinates, with or
    without rigid-body degrees of freedom.  The properties below are
    proved for every implementation of the collaborators; this one serves
    to run the methods on concrete inputs. *)

Module small_case.
Import np.

Definition identity (r c : nat) : ndarray :=
  tabulate r c (fun i j => if (i =? j)%nat then 1%float else 0%float).

Definition constant (r c : nat) (x : float) : ndarray :=
  tabulate r c (fun _ _ => x).

(** the matrix product *)
Definition dot (a b : ndarray) : result ndarray :=
  if (shape1 a =? shape0 b)%nat then
    Ok (tabulate (shape0 a) (shape1 b) (fun i j =>
          fold_left (fun acc k => (acc + item a i k * item b k j)%float)
            (seq 0 (shape1 a)) 0%float))
  else Raise ValueError.

Definition same_dt (x y : float) : bool := (x =? y)%float.

Record case := {
  case_settings : pyval;
  (** number of rigid-body degrees of freedom *)
  rigid : nat;
  (** the scaling factors of the aerodynamic model *)
  scaling : gmap string float;
  (** whether the UVLM carries a reduced-order model *)
  reduced : bool
}.

Definition flex : nat := 2.
Definition grid : nat := 2.
Definition uvlm_dt : float := 0.25%float.

Definition gains (c : case) : lin_aeroelastic.LinAeroEla :=
  let n := (flex + rigid c)%nat in
  {| lin_aeroelastic.num_dof_flex := Z.of_nat flex;
     lin_aeroelastic.Kss := tabulate flex flex (fun i j =>
       if (i =? j)%nat then 0.5%float else 0.125%float);
     lin_aeroelastic.Krs := constant (rigid c) flex 0.25%float;
     lin_aeroelastic.Csr := constant flex (rigid c) 0.5%float;
     lin_aeroelastic.Crs := constant (rigid c) flex 0.75%float;
     lin_aeroelastic.Crr := constant (rigid c) (rigid c) 1.5%float;
     lin_aeroelastic.Kforces := identity n grid;
     lin_aeroelastic.Kdisp := identity grid n;
     lin_aeroelastic.Kdisp_vel := constant grid n 0%float;
     lin_aeroelastic.Kvel_disp := constant grid n 0%float;
     lin_aeroelastic.Kvel_vel := identity grid n |}.

Definition uvlm_system : libss.ss :=
  {| libss.A := constant 1 1 0.5%float;
     libss.B := constant 1 (2 * grid) 1%float;
     libss.C := constant grid 1 1%float;
     libss.D := constant grid (2 * grid) 0%float;
     libss.dt := uvlm_dt;
     libss.inputs := 2 * Z.of_nat grid;
     libss.outputs := Z.of_nat grid;
     libss.states := 1 |}.

(** a reduction that keeps the system as it is *)
Definition keep (s : libss.ss) : result libss.ss := Ok s.

Definition new_uvlm (c : case) : linearuvlm.LinearUVLM :=
  {| linearuvlm.sys := {| linearuvlm.ScalingFacts := scaling c |};
     linearuvlm.ss := None;
     linearuvlm.rom := if reduced c then Some keep else None |}.

Definition modal (beam_settings : pyval) : bool :=
  match subscript beam_settings "modal_projection" with
  | Ok (PyCBool true) =>
      match subscript beam_settings "inout_coords" with
      | Ok v => eq_str v "modes"
      | Raise _ => false
      end
  | _ => false
  end.

(** The beam in first-order form at the time scale [t]: physical
    coordinates ([n] inputs, [2 n] outputs), or one mode. *)
Definition realize (modes : bool) (dt : float) (K C : ndarray) (t : float)
  : result libss.ss :=
  let n := if modes then 1%nat else shape0 K in
  let stiffness :=
    tabulate n n (fun i j => (- (t * t * item K i j))%float) in
  let damping :=
    tabulate n n (fun i j => (- (t * item C i j))%float) in
  let? a := block (constant n n 0%float) (identity n n) stiffness damping in
  Ok {| libss.A := a;
        libss.B := tabulate (2 * n) n (fun i j =>
          if (i =? n + j)%nat then 1%float else 0%float);
        libss.C := identity (2 * n) (2 * n);
        libss.D := constant (2 * n) n 0%float;
        libss.dt := (dt / t)%float;
        libss.inputs := Z.of_nat n;
        libss.outputs := 2 * Z.of_nat n;
        libss.states := 2 * Z.of_nat n |}.

Definition new_beam (c : case) (beam_settings : pyval) : linearbeam.LinearBeam :=
  let n := (flex + rigid c)%nat in
  let time := default 1%float (scaling c !! "time") in
  {| linearbeam.sys :=
       {| linearbeam.Kstr := tabulate n n (fun i j =>
            if (i =? j)%nat then 2%float else 0%float);
          linearbeam.Cstr := constant n n 0.125%float;
          linearbeam.num_dof := Z.of_nat n;
          linearbeam.num_modes := 1;
          linearbeam.U := constant n 1 0.5%float;
          linearbeam.time_ref := 1%float;
          linearbeam.SSdisc := None;
          linearbeam.realization :=
            realize (modal beam_settings) (uvlm_dt * time)%float |};
     linearbeam.ss := None |}.

Definition fill_defaults (v : pyval) (default : gmap string pyval) : pyval :=
  match v with
  | PyDict items => PyDict (items ∪ default)
  | _ => v
  end.

Definition add_gain (s : libss.ss) (K : ndarray) (side : libss.side)
  : result libss.ss :=
  match side with
  | libss.gain_in =>
      let? b := dot (libss.B s) K in
      let? d := dot (libss.D s) K in
      Ok {| libss.A := libss.A s; libss.B := b; libss.C := libss.C s;
            libss.D := d; libss.dt := libss.dt s;
            libss.inputs := Z.of_nat (shape1 K);
            libss.outputs := libss.outputs s; libss.states := libss.states s |}
  | libss.gain_out =>
      let? c := dot K (libss.C s) in
      let? d := dot K (libss.D s) in
      Ok {| libss.A := libss.A s; libss.B := libss.B s; libss.C := c;
            libss.D := d; libss.dt := libss.dt s;
            libss.inputs := libss.inputs s;
            libss.outputs := Z.of_nat (shape0 K); libss.states := libss.states s |}
  end.

(** The interconnection of two systems without feed-through. *)
Definition interconnect (s1 s2 : libss.ss) (K12 K21 : ndarray)
  : result libss.ss :=
  if same_dt (libss.dt s1) (libss.dt s2)
     && (Z.of_nat (shape0 K12) =? libss.inputs s1)
     && (Z.of_nat (shape1 K12) =? libss.outputs s2)
     && (Z.of_nat (shape0 K21) =? libss.inputs s2)
     && (Z.of_nat (shape1 K21) =? libss.outputs s1)
  then
    let? b1k := dot (libss.B s1) K12 in
    let? a12 := dot b1k (libss.C s2) in
    let? b2k := dot (libss.B s2) K21 in
    let? a21 := dot b2k (libss.C s1) in
    let? a := block (libss.A s1) a12 a21 (libss.A s2) in
    Ok {| libss.A := a;
          libss.B := sclalg.block_diag (libss.B s1) (libss.B s2);
          libss.C := sclalg.block_diag (libss.C s1) (libss.C s2);
          libss.D := sclalg.block_diag (libss.D s1) (libss.D s2);
          libss.dt := libss.dt s1;
          libss.inputs := libss.inputs s1 + libss.inputs s2;
          libss.outputs := libss.outputs s1 + libss.outputs s2;
          libss.states := libss.states s1 + libss.states s2 |}
  else Raise (OtherError "dimension mismatch").

Definition state_space (A B C D dt : h5.obj) : result libss.ss :=
  match A, B, C, D, dt with
  | h5.Array a, h5.Array b, h5.Array c, h5.Array d, h5.Float x =>
      if (shape0 a =? shape1 a)%nat && (shape0 b =? shape0 a)%nat
         && (shape1 c =? shape0 a)%nat && (shape0 d =? shape0 c)%nat
         && (shape1 d =? shape1 b)%nat
      then
        Ok {| libss.A := a; libss.B := b; libss.C := c; libss.D := d;
              libss.dt := x;
              libss.inputs := Z.of_nat (shape1 b);
              libss.outputs := Z.of_nat (shape0 c);
              libss.states := Z.of_nat (shape0 a) |}
      else Raise (OtherError "dimension mismatch")
  | _, _, _, _, _ => Raise TypeError
  end.

Definition persisted_name : string := "uvlm.data.h5".

(** the persisted file: an aerodynamic system already projected onto the
    two structural degrees of freedom *)
Definition persisted : h5.obj :=
  let system := h5.Object (
    <["A" := h5.Array (constant 1 1 0.5%float)]> (
    <["B" := h5.Array (constant 1 4 1%float)]> (
    <["C" := h5.Array (constant 2 1 1%float)]> (
    <["D" := h5.Array (constant 2 4 0%float)]> (
    <["dt" := h5.Float uvlm_dt]> ∅))))) in
  let uvlm := h5.Object (<["ss" := system]> ∅) in
  let element := h5.Object (<["uvlm" := uvlm]> ∅) in
  let lsys := h5.Dict (<[LinearAeroelastic.sys_id := element]> ∅) in
  let linear := h5.Object (<["lsys" := lsys]> ∅) in
  let data := h5.Object (<["linear" := linear]> ∅) in
  h5.Object (<["data" := data]> ∅).

Definition read_file (filename : pyval) : result h5.obj :=
  if eq_str filename persisted_name then Ok persisted
  else Raise (OtherError "OSError").

Definition collaborators : Collaborators := {|
  PreSharpy := case;
  data_settings := case_settings;
  to_custom_types v _ default := Ok (fill_defaults v default);
  LinAeroEla_new c _ := Ok (gains c);
  get_gebm2uvlm_gains lin := Ok lin;
  LinearUVLM_initialise c _ := Ok (new_uvlm c);
  LinearUVLM_assemble u := Ok (linearuvlm.set_ss (Some uvlm_system) u);
  LinearBeam_initialise c beam_settings := Ok (new_beam c beam_settings);
  addGain := add_gain;
  couple := interconnect;
  libss_ss := state_space;
  readh5 := read_file;
  float_pow x _ := (x * x)%float
|}.

Definition unit_scaling : gmap string float :=
  <["length" := 1%float]> (<["speed" := 1%float]> (<["time" := 1%float]>
  (<["force" := 1%float]> (<["density" := 1%float]> ∅)))).

(** length 2, speed 4, hence time 0.5 *)
Definition scaled : gmap string float :=
  <["length" := 2%float]> (<["speed" := 4%float]> (<["time" := 0.5%float]>
  (<["force" := 16%float]> (<["density" := 1%float]> ∅)))).

Definition beam_block (modal_projection : bool) (inout_coords : string) : pyval :=
  PyDict (<["modal_projection" := PyCBool modal_projection]>
         (<["inout_coords" := PyStr inout_coords]> ∅)).

Definition assembler_block (beam : pyval) (uvlm_filename : string) : pyval :=
  PyDict (<["beam_settings" := beam]>
         (<["aero_settings" := PyDict ∅]>
         (<["uvlm_filename" := PyStr uvlm_filename]> ∅))).

Definition settings_with (block : pyval) : pyval :=
  PyDict (<["LinearAssembler" := PyDict (<[LinearAeroelastic.sys_id := block]> ∅)]> ∅).

(** physical coordinates, no rigid-body motion, scaled *)
Definition clamped : case :=
  {| case_settings := settings_with (assembler_block (beam_block false "nodes") "");
     rigid := 0; scaling := scaled; reduced := true |}.

(** one rigid-body degree of freedom, unit scaling *)
Definition free_flying : case :=
  {| case_settings := settings_with (assembler_block (beam_block false "nodes") "");
     rigid := 1; scaling := unit_scaling; reduced := false |}.

(** modal coordinates *)
Definition in_modes : case :=
  {| case_settings := settings_with (assembler_block (beam_block true "modes") "");
     rigid := 0; scaling := scaled; reduced := false |}.

(** the aerodynamic system comes from a file *)
Definition from_file : case :=
  {| case_settings :=
       settings_with (assembler_block (beam_block false "nodes") persisted_name);
     rigid := 0; scaling := scaled; reduced := false |}.

(** no [LinearAssembler] block at all *)
Definition unconfigured : case :=
  {| case_settings := PyDict ∅;
     rigid := 0; scaling := scaled; reduced := false |}.

Definition fresh : LinearAeroelastic.world :=
  {| LinearAeroelastic.self := LinearAeroelastic.__init__;
     LinearAeroelastic.trace := [] |}.

(** the world after [initialise], and after [initialise] and [assemble] *)
Definition initialised (c : case) : LinearAeroelastic.world :=
  snd (@LinearAeroelastic.initialise collaborators c fresh).

Definition assembled (c : case) : LinearAeroelastic.world :=
  snd (@LinearAeroelastic.assemble collaborators (initialised c)).

(** an aerodynamic system with one input more than the grid has: a gust *)
Definition gusty_system : libss.ss :=
  {| libss.A := constant 1 1 0.5%float;
     libss.B := constant 1 (2 * grid + 1) 1%float;
     libss.C := constant grid 1 1%float;
     libss.D := constant grid (2 * grid + 1) 0%float;
     libss.dt := uvlm_dt;
     libss.inputs := 2 * Z.of_nat grid + 1;
     libss.outputs := Z.of_nat grid;
     libss.states := 1 |}.

(** the persisted file with the feed-through matrix missing *)
Definition truncated : h5.obj :=
  let system := h5.Object (
    <["A" := h5.Array (constant 1 1 0.5%float)]> (
    <["B" := h5.Array (constant 1 4 1%float)]> (
    <["C" := h5.Array (constant 2 1 1%float)]> (
    <["dt" := h5.Float uvlm_dt]> ∅)))) in
  let uvlm := h5.Object (<["ss" := system]> ∅) in
  let element := h5.Object (<["uvlm" := uvlm]> ∅) in
  let lsys := h5.Dict (<[LinearAeroelastic.sys_id := element]> ∅) in
  let linear := h5.Object (<["lsys" := lsys]> ∅) in
  let data := h5.Object (<["linear" := linear]> ∅) in
  h5.Object (<["data" := data]> ∅).

(** the collaborators of the small case, with another aerodynamic system
    and another file *)
Definition variant (system : libss.ss) (file : h5.obj) : Collaborators := {|
  PreSharpy := case;
  data_settings := case_settings;
  to_custom_types v _ default := Ok (fill_defaults v default);
  LinAeroEla_new c _ := Ok (gains c);
  get_gebm2uvlm_gains lin := Ok lin;
  LinearUVLM_initialise c _ := Ok (new_uvlm c);
  LinearUVLM_assemble u := Ok (linearuvlm.set_ss (Some system) u);
  LinearBeam_initialise c beam_settings := Ok (new_beam c beam_settings);
  addGain := add_gain;
  couple := interconnect;
  libss_ss := state_space;
  readh5 _ := Ok file;
  float_pow x _ := (x * x)%float
|}.

Definition gusty : Collaborators := variant gusty_system persisted.

End small_case.

(** * A small tail to run the template on *)
Module small_tail.
Import Ttail.

(** the integer [n] as a float, for the few samples of a small case *)
Definition count (n : nat) : float :=
  Nat.iter n (fun c => c + 1)%float 0%float.

(** evenly spaced samples, both ends included *)
Definition samples (start stop : float) (num : Z) : result (list float) :=
  if num <? 0 then Raise ValueError
  else
    let step :=
      if num <=? 1 then 0%float
      else ((stop - start) / count (Z.to_nat num - 1))%float in
    Ok (map (fun i => start + count i * step)%float (seq 0 (Z.to_nat num))).

(** the first terms of the tangent series *)
Definition tangent (a : float) : float := (a + a * a * a / 3)%float.

Definition library : Library := {|
  tan := tangent;
  linspace := samples;
  naca_camber := Ok (np.tabulate 2 2 (fun i j => if (j =? 0)%nat then count i else 0%float))
|}.

(** the lengths of [Ttail_canonical], with swept surfaces *)
Definition swept : geometry := {|
  chord_htp_root := 2;
  chord_htp_tip := 1;
  chord_vtp_root := 2;
  span_htp := 8;
  height_vtp := 6;
  main_ea := 0.25;
  alpha_htp_deg := 2;
  sweep_htp_deg := 30;
  sweep_vtp_deg := 15
|}.

End small_tail.


(** * Properties of the T-tail template *)

Module Ttail_properties.
Import Ttail.

Lemma parametrisation_raises (M Nv Nh : Z) :
  raises_assertion (parametrisation M Nv Nh) <-> Nv mod 2 = 1 \/ Nh mod 4 = 1.
Proof.
  unfold raises_assertion, parametrisation, assert.
  destruct (Z.eqb_spec (Nv mod 2) 1) as [Hv|Hv]; simpl.
  - split; [intros _; by left | done].
  - destruct (Z.eqb_spec (Nh mod 4) 1) as [Hh|Hh]; simpl.
    + split; [intros _; by right | done].
    + split; [done | intros [?|?]; done].
Qed.

Lemma parametrisation_accepts (M Nv Nh : Z) :
  accepted (parametrisation M Nv Nh) <-> Nv mod 2 <> 1 /\ Nh mod 4 <> 1.
Proof.
  unfold accepted, parametrisation, assert.
  destruct (Z.eqb_spec (Nv mod 2) 1) as [Hv|Hv]; simpl.
  - split; [intros [? ?]; done | intros [? _]; done].
  - destruct (Z.eqb_spec (Nh mod 4) 1) as [Hh|Hh]; simpl.
    + split; [intros [? ?]; done | intros [_ ?]; done].
    + split; [done | intros _; eauto].
Qed.

(** C10: the two panelling assertions of [Ttail_3beams.__init__] raise
    exactly when [Nv % 2 == 1] or [Nh % 4 == 1].  So with [Nv] accepted,
    every [Nh] whose remainder modulo 4 is 0, 2 or 3 passes, although only
    remainder 0 is a multiple of 4; [Nh = 6] is accepted. *)
Theorem panelling_assertions :
  (forall M Nv Nh,
     raises_assertion (parametrisation M Nv Nh) <-> Nv mod 2 = 1 \/ Nh mod 4 = 1)
  /\ (forall M Nv Nh,
        Nv mod 2 <> 1 ->
        Nh mod 4 = 0 \/ Nh mod 4 = 2 \/ Nh mod 4 = 3 ->
        accepted (parametrisation M Nv Nh))
  /\ (forall M, accepted (parametrisation M 2 6) /\ 6 mod 4 <> 0).
Proof.
  split; [exact parametrisation_raises|].
  split.
  - intros M Nv Nh Hv Hh. apply parametrisation_accepts. lia.
  - intros M. split; [|done]. apply parametrisation_accepts. done.
Qed.

(** The accepted constructor call with [Nv = 2], [Nh = 6]. *)
Lemma panelling_assertions_witness :
  accepted (parametrisation 4 2 6).
Proof.
  apply (proj1 (proj2 panelling_assertions) 4 2 6); [done | by right; left].
Defined.

End Ttail_properties.

(** * Properties of the array operations *)

Module np_properties.
Import np.

Lemma item_tabulate r c f i j :
  (i < r)%nat -> (j < c)%nat -> item (tabulate r c f) i j = f i j.
Proof.
  intros Hi Hj. unfold item, tabulate; simpl.
  rewrite (nth_indep _ [] (map (f 0%nat) (seq 0 c)))
    by (rewrite length_map, length_seq; lia).
  rewrite (map_nth (fun i => map (f i) (seq 0 c)) (seq 0 r) 0%nat i).
  rewrite seq_nth by lia. simpl.
  rewrite (nth_indep _ 0%float (f i 0%nat))
    by (rewrite length_map, length_seq; lia).
  rewrite (map_nth (f i) (seq 0 c) 0%nat j).
  by rewrite seq_nth by lia.
Qed.

Lemma item_tabulate_outside r c f i j :
  (r <= i)%nat \/ (c <= j)%nat -> item (tabulate r c f) i j = 0%float.
Proof.
  intros H. unfold item, tabulate; simpl.
  destruct (decide (i < r)%nat) as [Hi|Hi].
  - rewrite (nth_indep _ [] (map (f 0%nat) (seq 0 c)))
      by (rewrite length_map, length_seq; lia).
    rewrite (map_nth (fun i => map (f i) (seq 0 c)) (seq 0 r) 0%nat i).
    apply nth_overflow. rewrite length_map, length_seq. lia.
  - rewrite (nth_overflow (map _ _)) by (rewrite length_map, length_seq; lia).
    by destruct j.
Qed.

Lemma tabulate_ext r c f g :
  (forall i j, (i < r)%nat -> (j < c)%nat -> f i j = g i j) ->
  tabulate r c f = tabulate r c g.
Proof.
  intros H. unfold tabulate. f_equal.
  apply map_ext_in. intros i Hi. apply in_seq in Hi.
  apply map_ext_in. intros j Hj. apply in_seq in Hj.
  apply H; lia.
Qed.

Lemma selects_all d i : (i < d)%nat -> selects d all i = true.
Proof.
  intros H. unfold selects, lower, upper; simpl.
  by apply Nat.ltb_lt.
Qed.

Lemma lower_upto d n : lower d (upto n) = 0%nat.
Proof. done. Qed.

Lemma selects_upto d n i :
  selects d (upto n) i = (i <? upper d (upto n))%nat.
Proof. done. Qed.

Lemma upper_le d s : (upper d s <= d)%nat.
Proof.
  unfold upper, clip. destruct (stop s) as [n|]; [|done].
  destruct (Z.ltb_spec n 0); lia.
Qed.

Lemma idiv_all a x : idiv a all all x = divide a x.
Proof.
  unfold idiv, divide. apply tabulate_ext. intros i j Hi Hj.
  by rewrite !selects_all.
Qed.

Lemma eye_Ok N M E :
  eye N M = Ok E ->
  0 <= N /\ 0 <= M
  /\ shape0 E = Z.to_nat N /\ shape1 E = Z.to_nat M
  /\ forall i j, (i < Z.to_nat N)%nat -> (j < Z.to_nat M)%nat ->
       item E i j = if (i =? j)%nat then 1%float else 0%float.
Proof.
  unfold eye. destruct (Z.ltb_spec N 0), (Z.ltb_spec M 0); simpl; try done.
  intros [= <-]. repeat (split; [done || lia|]).
  intros i j Hi Hj. by rewrite item_tabulate.
Qed.

(** ** Slices and writes *)

Lemma setitem_Ok a rs cs v a' :
  setitem a rs cs v = Ok a' ->
  shape0 a' = shape0 a /\ shape1 a' = shape1 a
  /\ forall i j, (i < shape0 a)%nat -> (j < shape1 a)%nat ->
       item a' i j
       = if selects (shape0 a) rs i && selects (shape1 a) cs j
         then broadcast_item v (i - lower (shape0 a) rs) (j - lower (shape1 a) cs)
         else item a i j.
Proof.
  unfold setitem. destruct (broadcastable _ _ _); [|done]. intros [= <-].
  split; [done|]. split; [done|]. intros i j Hi Hj.
  by rewrite item_tabulate.
Qed.

Lemma zeros_Ok r c a :
  zeros r c = Ok a ->
  0 <= r /\ 0 <= c /\ shape0 a = Z.to_nat r /\ shape1 a = Z.to_nat c
  /\ forall i j, item a i j = 0%float.
Proof.
  unfold zeros. destruct (Z.ltb_spec r 0), (Z.ltb_spec c 0); simpl; try done.
  intros [= <-]. repeat (split; [done || lia|]). intros i j.
  destruct (decide (i < Z.to_nat r /\ j < Z.to_nat c)%nat) as [[Hi Hj]|Hout].
  - by rewrite item_tabulate.
  - apply item_tabulate_outside. lia.
Qed.

Lemma item_zeros_like a i j : item (zeros_like a) i j = 0%float.
Proof.
  unfold zeros_like.
  destruct (decide (i < shape0 a /\ j < shape1 a)%nat) as [[Hi Hj]|Hout].
  - by rewrite item_tabulate.
  - apply item_tabulate_outside. lia.
Qed.

Lemma selects_upto_nonneg d n i :
  0 <= n -> (i < d)%nat -> selects d (upto n) i = (Z.of_nat i <? n).
Proof.
  intros Hn Hi. unfold selects, lower, upper, clip; simpl.
  destruct (Z.ltb_spec n 0); [lia|].
  destruct (Nat.ltb_spec i (Z.to_nat (Z.min n (Z.of_nat d))));
    destruct (Z.ltb_spec (Z.of_nat i) n); done || lia.
Qed.

Lemma selects_from_nonneg d n i :
  0 <= n -> (i < d)%nat -> selects d (from n) i = (n <=? Z.of_nat i).
Proof.
  intros Hn Hi. unfold selects, lower, upper, clip; simpl.
  destruct (Z.ltb_spec n 0); [lia|].
  rewrite (proj2 (Nat.ltb_lt i d) Hi), andb_true_r.
  destruct (Nat.leb_spec (Z.to_nat (Z.min n (Z.of_nat d))) i);
    destruct (Z.leb_spec n (Z.of_nat i)); done || lia.
Qed.

Lemma broadcast_item_same v i j :
  (i < shape0 v)%nat -> (j < shape1 v)%nat -> broadcast_item v i j = item v i j.
Proof.
  intros Hi Hj. unfold broadcast_item.
  destruct (Nat.eqb_spec (shape0 v) 1), (Nat.eqb_spec (shape1 v) 1);
    f_equal; lia.
Qed.

Lemma iadd_Ok a v c :
  iadd a v = Ok c ->
  shape0 c = shape0 a /\ shape1 c = shape1 a
  /\ forall i j, (i < shape0 a)%nat -> (j < shape1 a)%nat ->
       item c i j = (item a i j + broadcast_item v i j)%float.
Proof.
  unfold iadd. destruct (broadcastable _ _ _); [|done]. intros [= <-].
  split; [done|]. split; [done|]. intros i j Hi Hj.
  by rewrite item_tabulate.
Qed.

Lemma imul_item a x i j :
  (i < shape0 a)%nat -> (j < shape1 a)%nat ->
  item (imul a x) i j = (item a i j * x)%float.
Proof. intros Hi Hj. unfold imul. by rewrite item_tabulate. Qed.

Lemma divide_item a x i j :
  (i < shape0 a)%nat -> (j < shape1 a)%nat ->
  item (divide a x) i j = (item a i j / x)%float.
Proof. intros Hi Hj. unfold divide. by rewrite item_tabulate. Qed.

Lemma lower_from_selected d n i :
  0 <= n -> n <= Z.of_nat i -> (i < d)%nat -> lower d (from n) = Z.to_nat n.
Proof.
  intros Hn Hi Hd. unfold lower, clip; simpl.
  destruct (Z.ltb_spec n 0); lia.
Qed.

End np_properties.

(** * Properties of the assembler *)

Module LinearAeroelastic_properties.
Import LinearAeroelastic.

Import runs.

(** ** Rules for method bodies *)

Section rules.

Lemma wp_bind {A B} (m : M A) (k : A -> M B) w Q :
  wp m w (fun a w1 => wp (k a) w1 Q) -> wp (bind m k) w Q.
Proof.
  unfold wp, bind. intros H b w' Hrun.
  destruct (m w) as [[a|e] w1] eqn:Hm; [|done].
  by eapply H.
Qed.

Lemma wp_ret {A} (a : A) w Q : Q a w -> wp (ret a) w Q.
Proof. unfold wp, ret. by intros H ? ? [= <- <-]. Qed.

Lemma wp_lift {A} (r : result A) w Q :
  (forall a, r = Ok a -> Q a w) -> wp (lift r) w Q.
Proof. unfold wp, lift. intros H ? ? [= -> <-]. by apply H. Qed.

Lemma wp_read {A} (f : object -> A) w Q : Q (f (self w)) w -> wp (read f) w Q.
Proof. unfold wp, read. by intros H ? ? [= <- <-]. Qed.

Lemma wp_modify f w (Q : unit -> world -> Prop) :
  Q tt (after_modify f w) -> wp (modify f) w Q.
Proof. unfold wp, modify. by intros H ? ? [= <- <-]. Qed.

Lemma wp_emit ev w (Q : unit -> world -> Prop) :
  Q tt (after_emit ev w) -> wp (emit ev) w Q.
Proof. unfold wp, emit. by intros H ? ? [= <- <-]. Qed.

Lemma wp_call {A} ev (r : result A) w Q :
  (forall a, r = Ok a -> Q a (after_emit ev w)) -> wp (call ev r) w Q.
Proof.
  intros H. unfold call. apply wp_bind, wp_emit, wp_lift, H.
Qed.

Lemma wp_try {A} (body handler : M A) w Q :
  wp body w Q ->
  (forall w1, body w = (Raise KeyError, w1) -> wp handler w1 Q) ->
  wp (try_except_KeyError body handler) w Q.
Proof.
  unfold wp, try_except_KeyError. intros Hb Hh a w' Hrun.
  destruct (body w) as [[a0|e] w1] eqn:Hbody.
  - by apply Hb.
  - destruct e; try done. by eapply Hh.
Qed.

End rules.

Section paths.

Context {collaborators : Collaborators}.

Lemma wp_self_sys w Q :
  (forall x, sys (self w) = Some x -> Q x w) -> wp self_sys w Q.
Proof.
  intros H. apply wp_bind, wp_read, wp_lift.
  intros x Hx. apply H. by destruct (sys (self w)); simplify_eq/=.
Qed.

Lemma wp_self_uvlm w Q :
  (forall x, uvlm (self w) = Some x -> Q x w) -> wp self_uvlm w Q.
Proof.
  intros H. apply wp_bind, wp_read, wp_lift.
  intros x Hx. apply H. by destruct (uvlm (self w)); simplify_eq/=.
Qed.

Lemma wp_self_beam w Q :
  (forall x, beam (self w) = Some x -> Q x w) -> wp self_beam w Q.
Proof.
  intros H. apply wp_bind, wp_read, wp_lift.
  intros x Hx. apply H. by destruct (beam (self w)); simplify_eq/=.
Qed.

Lemma wp_uvlm_ss w Q :
  (forall u x, uvlm (self w) = Some u -> linearuvlm.ss u = Some x -> Q x w) ->
  wp uvlm_ss w Q.
Proof.
  intros H. apply wp_bind, wp_self_uvlm. intros u Hu. apply wp_lift.
  intros x Hx. apply (H u x Hu). by destruct (linearuvlm.ss u); simplify_eq/=.
Qed.

Lemma wp_beam_ss w Q :
  (forall b x, beam (self w) = Some b -> linearbeam.ss b = Some x -> Q x w) ->
  wp beam_ss w Q.
Proof.
  intros H. apply wp_bind, wp_self_beam. intros b Hb. apply wp_lift.
  intros x Hx. apply (H b x Hb). by destruct (linearbeam.ss b); simplify_eq/=.
Qed.

Lemma wp_beam_sys w Q :
  (forall b, beam (self w) = Some b -> Q (linearbeam.sys b) w) ->
  wp beam_sys w Q.
Proof.
  intros H. apply wp_bind, wp_self_beam. intros b Hb. by apply wp_ret, H.
Qed.

Lemma wp_set_uvlm_ss x w (Q : unit -> world -> Prop) :
  (forall u, uvlm (self w) = Some u ->
     Q tt (after_modify (set_uvlm (Some (linearuvlm.set_ss (Some x) u))) w)) ->
  wp (set_uvlm_ss x) w Q.
Proof.
  intros H. apply wp_bind, wp_self_uvlm. intros u Hu. by apply wp_modify, H.
Qed.

Lemma wp_set_beam_sys x w (Q : unit -> world -> Prop) :
  (forall b, beam (self w) = Some b ->
     Q tt (after_modify (set_beam (Some (linearbeam.set_sys x b))) w)) ->
  wp (set_beam_sys x) w Q.
Proof.
  intros H. apply wp_bind, wp_self_beam. intros b Hb. by apply wp_modify, H.
Qed.

Lemma wp_ScalingFacts key w Q :
  (forall u x, uvlm (self w) = Some u ->
     linearuvlm.ScalingFacts (linearuvlm.sys u) !! key = Some x -> Q x w) ->
  wp (ScalingFacts key) w Q.
Proof.
  intros H. apply wp_bind, wp_self_uvlm. intros u Hu. apply wp_lift.
  intros x Hx. apply (H u x Hu). unfold lookup_key in Hx.
  by destruct (_ !! key); simplify_eq/=.
Qed.

Lemma wp_beam_settings key w Q :
  (forall bs x, subscript (settings (self w)) "beam_settings" = Ok bs ->
     subscript bs key = Ok x -> Q x w) ->
  wp (beam_settings key) w Q.
Proof.
  intros H. apply wp_bind, wp_read, wp_bind, wp_lift. intros bs Hbs.
  apply wp_lift. intros x Hx. by eapply H.
Qed.

Lemma wp_set_coupling key x w (Q : unit -> world -> Prop) :
  Q tt (after_modify (set_couplings (<[key := x]> (couplings (self w)))) w) ->
  wp (set_coupling key x) w Q.
Proof. intros H. by apply wp_bind, wp_read, wp_modify. Qed.

Lemma wp_sub_settings key w Q :
  (forall v, read_or_None (settings (self w)) key v -> Q v w) ->
  wp (sub_settings key) w Q.
Proof.
  intros H. unfold sub_settings. apply wp_try.
  - apply wp_bind, wp_read, wp_lift. intros v Hv. apply H. by left.
  - intros w1 Hraise. unfold bind, read, lift in Hraise. simpl in Hraise.
    injection Hraise as Hraise <-. apply wp_ret, H. by right.
Qed.

End paths.

Ltac wp_step :=
  lazymatch goal with
  | |- wp (bind _ _) _ _ => apply wp_bind
  | |- wp (ret _) _ _ => apply wp_ret
  | |- wp (lift _) _ _ => apply wp_lift; intros ? ?
  | |- wp (read _) _ _ => apply wp_read
  | |- wp (modify _) _ _ => apply wp_modify
  | |- wp (emit _) _ _ => apply wp_emit
  | |- wp (call _ _) _ _ => apply wp_call; intros ? ?
  | |- wp self_sys _ _ => apply wp_self_sys; intros ? ?
  | |- wp self_uvlm _ _ => apply wp_self_uvlm; intros ? ?
  | |- wp self_beam _ _ => apply wp_self_beam; intros ? ?
  | |- wp uvlm_ss _ _ => apply wp_uvlm_ss; intros ? ? ? ?
  | |- wp beam_ss _ _ => apply wp_beam_ss; intros ? ? ? ?
  | |- wp beam_sys _ _ => apply wp_beam_sys; intros ? ?
  | |- wp (set_uvlm_ss _) _ _ => apply wp_set_uvlm_ss; intros ? ?
  | |- wp (set_beam_sys _) _ _ => apply wp_set_beam_sys; intros ? ?
  | |- wp (ScalingFacts _) _ _ => apply wp_ScalingFacts; intros ? ? ? ?
  | |- wp (beam_settings _) _ _ => apply wp_beam_settings; intros ? ? ? ?
  | |- wp (set_coupling _ _) _ _ => apply wp_set_coupling
  | |- wp (sub_settings _) _ _ => apply wp_sub_settings; intros ? ?
  end;
  simpl in *; simplify_eq;
  repeat match goal with
  | H1 : ?r = Ok ?x, H2 : ?r = Ok ?y |- _ => rewrite H1 in H2; simplify_eq
  end.

Ltac wp_steps := repeat wp_step.

(** closes [emitted w w' ?evs] for a world [w'] built from [w] *)
Ltac emitted_by_run :=
  unfold emitted; simpl; rewrite <- ?app_assoc; reflexivity.

Section update.

Context {collaborators : Collaborators}.

Lemma FlexDynamic_assemble_Ok b b' :
  linearbeam.FlexDynamic_assemble b = Ok b' ->
  exists d,
    linearbeam.realization b (linearbeam.Kstr b) (linearbeam.Cstr b)
      (linearbeam.time_ref b) = Ok d
    /\ b' = linearbeam.set_SSdisc (Some d) b.
Proof.
  unfold linearbeam.FlexDynamic_assemble. intros H.
  destruct (linearbeam.realization _ _ _ _) as [d|e]; simplify_eq/=. eauto.
Qed.

Lemma truediv_Ok x y z :
  truediv x y = Ok z -> (y =? 0)%float = false /\ z = (x / y)%float.
Proof.
  unfold truediv. destruct (y =? 0)%float; intros; simplify_eq. done.
Qed.

Lemma lookup_key_Ok {V} (d : gmap string V) k x :
  lookup_key d k = Ok x -> d !! k = Some x.
Proof. unfold lookup_key. destruct (d !! k); intros; by simplify_eq. Qed.

Lemma attr_of_Ok {A} (o : option A) x : attr_of o = Ok x -> o = Some x.
Proof. destruct o; intros; by simplify_eq/=. Qed.

Lemma wp_update u_infty w :
  wp (update u_infty) w (fun r w' => updated u_infty w r w').
Proof.
  unfold update. wp_steps.
  match goal with H : truediv _ _ = Ok _ |- _ =>
    apply truediv_Ok in H as [Hnz ->] end.
  match goal with H : linearbeam.FlexDynamic_assemble _ = Ok _ |- _ =>
    apply FlexDynamic_assemble_Ok in H as (d & Hd & ->) end.
  repeat match goal with
  | H : lookup_key _ _ = Ok _ |- _ => apply lookup_key_Ok in H
  | H : attr_of _ = Ok _ |- _ => apply attr_of_Ok in H
  end.
  simpl in *. simplify_eq.
  eexists _, _, _, _, _, _, _.
  repeat (split; [first [eassumption | reflexivity]|]).
  split; [emitted_by_run|]. simpl.
  repeat (split; [reflexivity|]). by split.
Qed.

(** C7: [update(u_infty)] realizes the structural subsystem again, at the
    time scale [length / u_infty], and couples it with the stored
    aerodynamic system through the stored [Tas] and [Tsa].  These three
    calls are all it does to the outside; the aerodynamic subsystem, the
    coupling matrices and every other attribute but [beam] and [ss] are
    left as they were, and the coupled system is both returned and stored
    in [ss]. *)
Theorem update_reassembles_structure_only u_infty w r w' :
  update u_infty w = (Ok r, w') ->
  exists u b length Tas Tsa ss01 ss02,
    uvlm (self w) = Some u
    /\ beam (self w) = Some b
    /\ linearuvlm.ScalingFacts (linearuvlm.sys u) !! "length" = Some length
    /\ (u_infty =? 0)%float = false
    /\ linearbeam.realization (linearbeam.sys b)
         (linearbeam.Kstr (linearbeam.sys b)) (linearbeam.Cstr (linearbeam.sys b))
         (length / u_infty)%float = Ok ss02
    /\ beam (self w') = Some (reassembled (length / u_infty)%float ss02 b)
    /\ couplings (self w) !! "Tas" = Some Tas
    /\ couplings (self w) !! "Tsa" = Some Tsa
    /\ linearuvlm.ss u = Some ss01
    /\ couple ss01 ss02 Tas Tsa = Ok r
    /\ trace w' = trace w ++
         [Call_update_matrices_time_scale (length / u_infty)%float;
          Call_beam_sys_assemble;
          Call_couple ss01 ss02 Tas Tsa]
    /\ ss (self w') = Some r
    /\ uvlm (self w') = uvlm (self w)
    /\ couplings (self w') = couplings (self w)
    /\ sys (self w') = sys (self w)
    /\ settings (self w') = settings (self w)
    /\ load_uvlm_from_file (self w') = load_uvlm_from_file (self w)
    /\ state_variables (self w') = state_variables (self w).
Proof.
  intros Hrun. apply (wp_update u_infty w) in Hrun.
  destruct Hrun as (u & b & length & Tas & Tsa & ss01 & ss02 & H).
  exists u, b, length, Tas, Tsa, ss01, ss02.
  unfold emitted, same_configuration in H. tauto.
Qed.

End update.


(** The update of the assembled small case at its own reference speed. *)
Lemma update_reassembles_structure_only_witness :
  exists r w',
    @update small_case.collaborators 4 (small_case.assembled small_case.clamped)
      = (Ok r, w')
    /\ ss (self w') = Some r
    /\ uvlm (self w') = uvlm (self (small_case.assembled small_case.clamped))
    /\ couplings (self w')
       = couplings (self (small_case.assembled small_case.clamped)).
Proof.
  destruct (@update small_case.collaborators 4
              (small_case.assembled small_case.clamped))
    as [[r|e] w'] eqn:Hrun; [|vm_compute in Hrun; discriminate Hrun].
  exists r, w'. split; [reflexivity|].
  destruct (@update_reassembles_structure_only small_case.collaborators
              4 _ r w' Hrun)
    as (? & ? & ? & ? & ? & ? & ? & H).
  tauto.
Defined.

(** ** The parts of [assemble] *)

Section assemble.

Context {collaborators : Collaborators}.

Lemma wp_use {A} (m : M A) w (R Q : A -> world -> Prop) :
  wp m w R -> (forall a w', R a w' -> Q a w') -> wp m w Q.
Proof. intros Hm HQ a w' Hrun. by apply HQ, Hm. Qed.

Lemma emitted_nil w : emitted w w [].
Proof. unfold emitted. by rewrite app_nil_r. Qed.

Lemma emitted_trans w1 w2 w3 evs1 evs2 :
  emitted w1 w2 evs1 -> emitted w2 w3 evs2 -> emitted w1 w3 (evs1 ++ evs2).
Proof. unfold emitted. intros H1 H2. by rewrite H2, H1, app_assoc. Qed.

Lemma load_uvlm_spec filename w :
  wp (load_uvlm filename) w (fun s w' =>
    self w' = self w /\ exists evs, emitted w w' evs /\ loaded filename s evs).
Proof.
  unfold load_uvlm. wp_steps.
  split; [done|]. eexists. split; [|unfold loaded].
  2: { eexists _, _, _, _, _, _, _, _, _, _, _, _.
       repeat (split; [eassumption|]). reflexivity. }
  unfold emitted. simpl. by rewrite <- !app_assoc.
Qed.

Lemma modal_projection_Ok s bs mp modal :
  subscript s "beam_settings" = Ok bs ->
  subscript bs "modal_projection" = Ok mp ->
  value mp = Ok modal ->
  modal_projection s = Ok modal.
Proof.
  unfold modal_projection. intros H1 H2 H3.
  rewrite H1; simpl. by rewrite H2; simpl.
Qed.

Lemma coupling_matrices_spec flex_nodes rigid_dof total_dof w :
  wp (coupling_matrices flex_nodes rigid_dof total_dof) w (fun T w' =>
    coupling_built flex_nodes rigid_dof total_dof w T.1 T.2 w').
Proof.
  unfold coupling_matrices. wp_steps.
  destruct (Z.ltb_spec 0 rigid_dof) as [Hr|Hr].
  - wp_steps. unfold coupling_built.
    eexists _, _, _, _, _, _, _, _.
    repeat (split; [first [eassumption | reflexivity]|]).
    left. split; [done|]. split; [done|]. eauto.
  - wp_steps.
    match goal with H : value _ = Ok ?m |- _ => destruct m end; simpl.
    + wp_steps. unfold coupling_built.
      eexists _, _, _, _, _, _, _, _.
      repeat (split; [first [eassumption | reflexivity]|]).
      right. split; [done|]. split; [apply emitted_nil|].
      exists true. split; [by eapply modal_projection_Ok|done].
    + wp_steps. unfold coupling_built.
      eexists _, _, _, _, _, _, _, _.
      repeat (split; [first [eassumption | reflexivity]|]).
      right. split; [done|]. split; [apply emitted_nil|].
      exists false. split; [by eapply modal_projection_Ok|eauto].
Qed.


Lemma projected_onto_modes_Ok s bs mp modal :
  subscript s "beam_settings" = Ok bs ->
  subscript bs "modal_projection" = Ok mp ->
  value mp = Ok modal ->
  projected_onto_modes s
  = if modal then let? v := subscript bs "inout_coords" in Ok (eq_str v "modes")
    else Ok false.
Proof.
  intros H1 H2 H3. unfold projected_onto_modes.
  rewrite (modal_projection_Ok _ _ _ _ H1 H2 H3); simpl.
  destruct modal; [|done]. by rewrite H1.
Qed.

(** closes a leaf of the projection path, for the given outcome of the
    test of line 161 *)
Ltac projection_leaf Hload Hrom modes :=
  wp_steps; unfold projected; eexists _, _, _;
  (split; [eassumption|]); (split; [emitted_by_run|]); simpl;
  repeat (split; [done|]); rewrite Hload;
  eexists _, _, _, _, _, _, _, modes, _, _, _;
  repeat (split; [first [eassumption | reflexivity]|]);
  (split;
   [ erewrite projected_onto_modes_Ok by eassumption;
     try match goal with H : subscript _ "inout_coords" = _ |- _ =>
           rewrite H; simpl end;
     try match goal with H : eq_str _ "modes" = _ |- _ => rewrite H end;
     reflexivity |]);
  (split;
   [ unfold modal_stage;
     first [ split; reflexivity
           | eexists _, _, _, _, _;
             repeat (split; [eassumption|]); reflexivity ] |]);
  (split; [rewrite Hrom; split; first [eassumption | reflexivity]|]);
  reflexivity.

Lemma project_uvlm_spec w :
  wp project_uvlm w (fun _ w' => projected w w').
Proof.
  unfold project_uvlm. wp_steps.
  destruct (load_uvlm_from_file (self w)) eqn:Hload; simpl.
  - wp_steps. eapply wp_use; [apply load_uvlm_spec|].
    intros s w1 (Hself & evs & Hevs & Hloaded). wp_steps.
    rewrite Hself in *.
    unfold projected. exists u, s, evs.
    split; [done|]. split; [done|]. simpl. rewrite Hself.
    repeat (split; [done|]).
    rewrite Hload. eauto.
  - wp_steps.
    match goal with H : projection_gains _ _ _ = Ok ?g |- _ =>
      destruct g as [Ksa Kas] end.
    wp_steps.
    match goal with H : value _ = Ok ?m |- _ => destruct m end; simpl.
    + wp_steps.
      match goal with |- context [eq_str ?v "modes"] =>
        destruct (eq_str v "modes") eqn:Hmodes end.
      * wp_steps.
        match goal with |- context [linearuvlm.rom ?u] =>
          destruct (linearuvlm.rom u) eqn:Hrom end;
          projection_leaf Hload Hrom true.
      * wp_steps.
        match goal with |- context [linearuvlm.rom ?u] =>
          destruct (linearuvlm.rom u) eqn:Hrom end;
          projection_leaf Hload Hrom false.
    + wp_steps.
      match goal with |- context [linearuvlm.rom ?u] =>
        destruct (linearuvlm.rom u) eqn:Hrom end;
        projection_leaf Hload Hrom false.
Qed.


Lemma coupling_built_self flex_nodes rigid_dof total_dof w Tas Tsa w' :
  coupling_built flex_nodes rigid_dof total_dof w Tas Tsa w' -> self w' = self w.
Proof. intros (? & ? & ? & ? & ? & ? & ? & ? & H). tauto. Qed.

Lemma projected_frame w w' :
  projected w w' ->
  sys (self w') = sys (self w)
  /\ beam (self w') = beam (self w)
  /\ settings (self w') = settings (self w)
  /\ load_uvlm_from_file (self w') = load_uvlm_from_file (self w).
Proof. intros (? & ? & ? & H). unfold same_configuration in H. tauto. Qed.

Lemma wp_assemble w : wp assemble w (fun _ w' => assembled w w').
Proof.
  unfold assemble. wp_steps.
  eapply wp_use; [apply project_uvlm_spec|]. intros [] w2 Hproj.
  wp_steps.
  eapply wp_use; [apply coupling_matrices_spec|]. intros [Tas Tsa] w3 Hcoup.
  simpl in Hcoup. wp_steps.
  pose proof (coupling_built_self _ _ _ _ _ _ _ Hcoup) as Hself3.
  pose proof (projected_frame _ _ Hproj) as (Hsys2 & Hbeam2 & Hset2 & Hload2).
  simpl in Hsys2, Hbeam2, Hset2, Hload2.
  rewrite Hself3 in *. simplify_eq.
  unfold assembled.
  match type of Hproj with projected ?w1 _ =>
    eexists _, _, _, _, _, _, _, _, _, w1, w2, w3, Tas, Tsa, _, _, _ end.
  repeat (split; [eassumption|]).
  split; [reflexivity|].
  split; [emitted_by_run|].
  split; [exact Hproj|].
  split; [exact Hcoup|].
  split.
  { match goal with H : uvlm (self w2) = Some _ |- _ => by rewrite H end. }
  split; [eassumption|].
  split; [eassumption|].
  split; [emitted_by_run|].
  simpl. rewrite ?Hself3.
  repeat (split; [done|]).
  unfold same_configuration. simpl. rewrite ?Hself3. first [done | by split].
Qed.

Lemma assemble_spec w w' : assemble w = (Ok tt, w') -> assembled w w'.
Proof. apply (wp_assemble w). Qed.


(** ** The events of a run of [assemble] *)

Lemma loaded_events filename s evs :
  loaded filename s evs ->
  warnings evs = [] /\ gains_added evs = [] /\ reductions evs = []
  /\ interconnections evs = []
  /\ exists A B C D dt, reconstructions evs = [(A, B, C, D, dt)]
       /\ libss_ss A B C D dt = Ok s.
Proof.
  intros (file & data & linear & lsys & element & element_uvlm & uvlm_ss_read
          & A & B & C & D & dt & H).
  destruct H as (_ & _ & _ & _ & _ & _ & _ & _ & _ & _ & _ & _ & Hs & ->).
  repeat (split; [done|]). by exists A, B, C, D, dt.
Qed.

Lemma modal_stage_events w modes u2 u4 evs :
  modal_stage w modes u2 u4 evs ->
  warnings evs = [] /\ interconnections evs = [] /\ reductions evs = []
  /\ reconstructions evs = [].
Proof.
  unfold modal_stage. destruct modes.
  - intros (? & ? & ? & ? & ? & _ & _ & _ & _ & _ & _ & ->). done.
  - intros [_ ->]. done.
Qed.

Lemma reduction_stage_events rom u4 u5 evs :
  reduction_stage rom u4 u5 evs ->
  warnings evs = [] /\ interconnections evs = [] /\ gains_added evs = []
  /\ reconstructions evs = [].
Proof. unfold reduction_stage. destruct rom; intros [_ ->]; done. Qed.

Lemma projected_events w w' :
  projected w w' ->
  exists evs,
    emitted w w' evs
    /\ warnings evs = []
    /\ interconnections evs = [].
Proof.
  intros (uv & u5 & evs & _ & Hevs & _ & _ & _ & _ & _ & _ & H).
  exists evs. split; [done|].
  destruct (load_uvlm_from_file (self w)).
  - destruct H as (_ & filename & _ & Hl). apply loaded_events in Hl. tauto.
  - destruct H as (lin & b & u0 & Ksa & Kas & u1 & u2 & modes & u4 & evs_modal
                   & evs_rom & _ & _ & _ & _ & _ & _ & _ & _ & Hm & Hr & ->).
    apply modal_stage_events in Hm. apply reduction_stage_events in Hr.
    unfold warnings, interconnections in *. rewrite !omap_app.
    destruct Hm as (-> & -> & _), Hr as (-> & -> & _). done.
Qed.

Lemma coupling_built_events flex_nodes rigid_dof total_dof w Tas Tsa w' :
  coupling_built flex_nodes rigid_dof total_dof w Tas Tsa w' ->
  exists evs,
    emitted w w' evs
    /\ warnings evs = (if 0 <? rigid_dof then [rigid_warning] else [])
    /\ interconnections evs = []
    /\ gains_added evs = []
    /\ reductions evs = []
    /\ reconstructions evs = [].
Proof.
  intros (? & ? & ? & ? & ? & ? & ? & ? & _ & _ & _ & _ & _ & _ & _ & _ & _ & _ & H).
  destruct H as [(Hr & Hev & _)|(Hr & Hev & _)].
  - exists [Warn rigid_warning]. split; [done|].
    by destruct (Z.ltb_spec 0 rigid_dof); [|lia].
  - exists []. split; [done|].
    by destruct (Z.ltb_spec 0 rigid_dof); [lia|].
Qed.


Ltac destruct_assembled H :=
  destruct H as (lin0 & lin & b0 & uv & terms & Cstr' & Kstr' & time & b1
                 & w1 & w2 & w3 & Tas & Tsa & us & bs & coupled
                 & Hsys & Hgains & Hbeam & Huvlm & Hterms & HCstr & HKstr
                 & Htime & Hb1 & Hself1 & Hev1 & Hproj & Hcoup & Hus & Hbs
                 & Hcouple & Hev3 & Hss' & Hcouplings' & Hvars' & Hsys'
                 & Huvlm' & Hbeam' & Hconf').

(** ** The aerodynamic stiffening and damping terms *)

Lemma aero_terms_dofs flex_nodes lin Kstr Cstr terms :
  aero_stiffening_damping flex_nodes lin Kstr Cstr = Ok terms ->
  total_dof terms = Z.of_nat (np.shape0 Kstr)
  /\ rigid_dof terms
     = if 0 <? Z.of_nat (np.shape0 Kstr) - flex_nodes
       then Z.of_nat (np.shape0 Kstr)
            - Z.of_nat (np.shape0 (lin_aeroelastic.Kss lin))
       else Z.of_nat (np.shape0 Kstr) - flex_nodes.
Proof.
  unfold aero_stiffening_damping. intros H.
  destruct (np.setitem _ _ _ (lin_aeroelastic.Kss lin)) as [s1|]; simpl in H; [|done].
  destruct (0 <? Z.of_nat (np.shape0 Kstr) - flex_nodes).
  - repeat match type of H with
    | rbind ?r _ = _ => destruct r; simpl in H; [|done]
    end.
    simplify_eq/=. split; [lia|done].
  - simplify_eq/=. split; [lia|done].
Qed.

Lemma rigid_dof_present flex_nodes lin Kstr Cstr terms :
  aero_stiffening_damping flex_nodes lin Kstr Cstr = Ok terms ->
  Z.of_nat (np.shape0 (lin_aeroelastic.Kss lin)) = flex_nodes ->
  rigid_dof terms = Z.of_nat (np.shape0 Kstr) - flex_nodes.
Proof.
  intros H HKss. apply aero_terms_dofs in H as [_ ->].
  rewrite HKss. by destruct (0 <? _).
Qed.

Lemma aero_terms_without_rigid flex_nodes lin Kstr Cstr terms :
  aero_stiffening_damping flex_nodes lin Kstr Cstr = Ok terms ->
  Z.of_nat (np.shape0 Kstr) - flex_nodes <= 0 ->
  rigid_dof terms = Z.of_nat (np.shape0 Kstr) - flex_nodes
  /\ damping_aero terms = np.zeros_like Cstr
  /\ np.setitem (np.zeros_like Kstr) (np.upto flex_nodes) (np.upto flex_nodes)
       (lin_aeroelastic.Kss lin) = Ok (stiff_aero terms).
Proof.
  unfold aero_stiffening_damping. intros H Hr.
  destruct (np.setitem _ _ _ (lin_aeroelastic.Kss lin)) as [s1|]; simpl in H; [|done].
  destruct (Z.ltb_spec 0 (Z.of_nat (np.shape0 Kstr) - flex_nodes)); [lia|].
  by simplify_eq/=.
Qed.


Lemma clip_nonneg d n : 0 <= n -> Z.of_nat (np.clip d n) = Z.min n (Z.of_nat d).
Proof. intros H. unfold np.clip. destruct (Z.ltb_spec n 0); lia. Qed.

Lemma stiffness_increment_block flex_nodes Kstr V S :
  0 <= flex_nodes ->
  np.setitem (np.zeros_like Kstr) (np.upto flex_nodes) (np.upto flex_nodes) V = Ok S ->
  (forall i j,
     flex_nodes <= Z.of_nat i \/ flex_nodes <= Z.of_nat j ->
     np.item S i j = 0%float)
  /\ (forall i j,
        Z.of_nat i < flex_nodes -> Z.of_nat j < flex_nodes ->
        (i < np.shape0 Kstr)%nat -> (j < np.shape1 Kstr)%nat ->
        np.item S i j = np.broadcast_item V i j).
Proof.
  intros Hflex. unfold np.setitem.
  destruct (np.broadcastable _ _ _); [|done]. intros [= <-]. simpl.
  pose proof (clip_nonneg (np.shape0 Kstr) flex_nodes Hflex) as Hr.
  pose proof (clip_nonneg (np.shape1 Kstr) flex_nodes Hflex) as Hc.
  split.
  - intros i j Hij.
    destruct (decide (i < np.shape0 Kstr /\ j < np.shape1 Kstr)%nat) as [[Hi Hj]|Hout].
    + rewrite np_properties.item_tabulate by done.
      unfold np.selects, np.lower, np.upper; simpl.
      destruct (Nat.ltb_spec i (np.clip (np.shape0 Kstr) flex_nodes));
        destruct (Nat.ltb_spec j (np.clip (np.shape1 Kstr) flex_nodes));
        simpl; try (unfold np.zeros_like; by rewrite np_properties.item_tabulate).
      lia.
    + apply np_properties.item_tabulate_outside. lia.
  - intros i j Hi Hj Hi' Hj'.
    rewrite np_properties.item_tabulate by done.
    unfold np.selects, np.lower, np.upper; simpl.
    destruct (Nat.ltb_spec i (np.clip (np.shape0 Kstr) flex_nodes)); [|lia].
    destruct (Nat.ltb_spec j (np.clip (np.shape1 Kstr) flex_nodes)); [|lia].
    simpl. by rewrite !Nat.sub_0_r.
Qed.

(** ** Warnings *)

(** C8: when the beam stiffness matrix has exactly [num_dof_flex] rows,
    there are no rigid-body degrees of freedom and the rigid blocks stay
    out: the increment added to [Cstr] is the zero matrix, the increment
    added to [Kstr] is zero outside its leading [flex x flex] block, where
    it holds [Kss], and [assemble] raises no warning. *)
Theorem no_rigid_body_dofs w w' lin_in beam_in :
  assemble w = (Ok tt, w') ->
  sys (self w) = Some lin_in ->
  beam (self w) = Some beam_in ->
  Z.of_nat (np.shape0 (linearbeam.Kstr (linearbeam.sys beam_in)))
    = lin_aeroelastic.num_dof_flex lin_in ->
  let flex_nodes := lin_aeroelastic.num_dof_flex lin_in in
  let Kstr0 := linearbeam.Kstr (linearbeam.sys beam_in) in
  let Cstr0 := linearbeam.Cstr (linearbeam.sys beam_in) in
  exists lin terms Cstr Kstr time b1 evs,
    get_gebm2uvlm_gains lin_in = Ok lin
    /\ aero_stiffening_damping flex_nodes lin Kstr0 Cstr0 = Ok terms
    /\ rigid_dof terms = 0
    /\ damping_aero terms = np.zeros_like Cstr0
    /\ (forall i j,
          flex_nodes <= Z.of_nat i \/ flex_nodes <= Z.of_nat j ->
          np.item (stiff_aero terms) i j = 0%float)
    /\ (forall i j,
          Z.of_nat i < flex_nodes -> Z.of_nat j < flex_nodes ->
          (j < np.shape1 Kstr0)%nat ->
          np.item (stiff_aero terms) i j
          = np.broadcast_item (lin_aeroelastic.Kss lin) i j)
    /\ np.iadd Cstr0 (damping_aero terms) = Ok Cstr
    /\ np.iadd Kstr0 (stiff_aero terms) = Ok Kstr
    /\ linearbeam.assemble time
         (linearbeam.set_sys
            (linearbeam.set_Kstr Kstr
               (linearbeam.set_Cstr Cstr (linearbeam.sys beam_in))) beam_in) = Ok b1
    /\ beam (self w') = Some b1
    /\ emitted w w' evs
    /\ warnings evs = [].
Proof.
  intros Hrun Hlin0 Hb0 Hrows flex_nodes Kstr0 Cstr0.
  subst flex_nodes Kstr0 Cstr0.
  apply assemble_spec in Hrun. destruct_assembled Hrun. simplify_eq.
  destruct (aero_terms_without_rigid _ _ _ _ _ Hterms) as (Hrigid & Hdamp & Hstiff);
    [lia|].
  eapply stiffness_increment_block in Hstiff as [Hout Hin]; [|lia].
  destruct (projected_events _ _ Hproj) as (evs_p & Hev_p & Hwarn_p & _).
  destruct (coupling_built_events _ _ _ _ _ _ _ Hcoup)
    as (evs_c & Hev_c & Hwarn_c & _).
  eexists lin, terms, Cstr', Kstr', time, b1, _.
  split; [done|]. split; [done|]. split; [lia|]. split; [done|].
  split; [done|].
  split; [intros i j Hi Hj Hj'; apply Hin; lia|].
  repeat (split; [done|]).
  split.
  { eapply emitted_trans; [|exact Hev3].
    eapply emitted_trans; [|exact Hev_c].
    eapply emitted_trans; [exact Hev1|exact Hev_p]. }
  unfold warnings in *. rewrite !omap_app, Hwarn_p, Hwarn_c.
  rewrite Hrigid.
  by destruct (Z.ltb_spec 0 (Z.of_nat (np.shape0 (linearbeam.Kstr (linearbeam.sys b0)))
                             - lin_aeroelastic.num_dof_flex lin0)); [lia|].
Qed.


Lemma assembled_emitted w w1 w2 w3 w' evs1 evs3 :
  emitted w w1 evs1 -> projected w1 w2 -> emitted w3 w' evs3 ->
  forall flex_nodes rigid_dof total_dof Tas Tsa,
    coupling_built flex_nodes rigid_dof total_dof w2 Tas Tsa w3 ->
    exists evs_p evs_c,
      emitted w w' (evs1 ++ evs_p ++ evs_c ++ evs3)
      /\ emitted w1 w2 evs_p
      /\ warnings evs_p = [] /\ interconnections evs_p = []
      /\ warnings evs_c = (if 0 <? rigid_dof then [rigid_warning] else [])
      /\ interconnections evs_c = []
      /\ gains_added evs_c = [] /\ reductions evs_c = []
      /\ reconstructions evs_c = [].
Proof.
  intros Hev1 Hproj Hev3 flex_nodes rigid_dof total_dof Tas Tsa Hcoup.
  destruct (projected_events _ _ Hproj) as (evs_p & Hev_p & Hwarn_p & Hint_p).
  destruct (coupling_built_events _ _ _ _ _ _ _ Hcoup)
    as (evs_c & Hev_c & Hwarn_c & Hint_c & Hgain_c & Hred_c & Hrec_c).
  exists evs_p, evs_c. repeat (split; [|done]).
  unfold emitted in *. rewrite Hev3, Hev_c, Hev_p, Hev1.
  by rewrite <- !app_assoc.
Qed.

(** C1, as the code has it: [assemble] raises the warning "Time scaling
    for problems with rigid body motion not yet supported." exactly when
    its rigid-body count [rigid_dof] is positive, whatever the time scaling
    factor is, and goes on to couple the two systems.  With gains whose
    [Kss] has [num_dof_flex] rows, [rigid_dof] is the number of rows of the
    beam stiffness matrix less [num_dof_flex]. *)
Theorem rigid_body_warning w w' :
  assemble w = (Ok tt, w') ->
  exists lin_in lin beam_in terms evs,
    sys (self w) = Some lin_in
    /\ get_gebm2uvlm_gains lin_in = Ok lin
    /\ beam (self w) = Some beam_in
    /\ aero_stiffening_damping (lin_aeroelastic.num_dof_flex lin_in) lin
         (linearbeam.Kstr (linearbeam.sys beam_in))
         (linearbeam.Cstr (linearbeam.sys beam_in)) = Ok terms
    /\ (Z.of_nat (np.shape0 (lin_aeroelastic.Kss lin))
          = lin_aeroelastic.num_dof_flex lin_in ->
        rigid_dof terms
        = Z.of_nat (np.shape0 (linearbeam.Kstr (linearbeam.sys beam_in)))
          - lin_aeroelastic.num_dof_flex lin_in)
    /\ emitted w w' evs
    /\ warnings evs = (if 0 <? rigid_dof terms then [rigid_warning] else [])
    /\ exists ss01 ss02 Tas Tsa, last evs = Some (Call_couple ss01 ss02 Tas Tsa).
Proof.
  intros Hrun. apply assemble_spec in Hrun. destruct_assembled Hrun.
  destruct (assembled_emitted _ _ _ _ _ _ _ Hev1 Hproj Hev3 _ _ _ _ _ Hcoup)
    as (evs_p & evs_c & Hev & _ & Hwarn_p & _ & Hwarn_c & _).
  eexists lin0, lin, b0, terms, _.
  repeat (split; [done|]).
  split; [intros HKss; by eapply rigid_dof_present|].
  split; [exact Hev|].
  split.
  - unfold warnings in *. rewrite !omap_app, Hwarn_p, Hwarn_c. simpl.
    by rewrite app_nil_r.
  - exists us, bs, Tas, Tsa. by rewrite !app_assoc, last_snoc.
Qed.


(** ** The two paths of the projection *)

Lemma projected_from_file w w' :
  projected w w' ->
  load_uvlm_from_file (self w) = true ->
  exists uv s filename evs A B C D dt,
    uvlm (self w) = Some uv
    /\ uvlm (self w') = Some (linearuvlm.set_ss (Some s) uv)
    /\ subscript (settings (self w)) "uvlm_filename" = Ok filename
    /\ loaded filename s evs
    /\ emitted w w' evs
    /\ couplings (self w') = couplings (self w)
    /\ gains_added evs = []
    /\ reductions evs = []
    /\ reconstructions evs = [(A, B, C, D, dt)]
    /\ libss_ss A B C D dt = Ok s.
Proof.
  intros (uv & u5 & evs & Huv & Hevs & Huv' & _ & _ & _ & _ & _ & H) Hload.
  rewrite Hload in H. destruct H as (Hc & filename & Hfile & Hl).
  destruct (loaded_events _ _ _ Hl)
    as (_ & Hg & Hr & _ & A & B & C & D & dt & Hrec & Hs).
  by exists uv, u5, filename, evs, A, B, C, D, dt.
Qed.

Lemma projected_in_memory w w' :
  projected w w' ->
  load_uvlm_from_file (self w) = false ->
  exists Ksa Kas modes evs rest,
    emitted w w' evs
    /\ couplings (self w')
       = <["Kas" := Kas]> (<["Ksa" := Ksa]> (couplings (self w)))
    /\ projected_onto_modes (settings (self w)) = Ok modes
    /\ gains_added evs = (Ksa, libss.gain_out) :: (Kas, libss.gain_in) :: rest
    /\ reconstructions evs = []
    /\ if modes then
         exists b bs uv m_in inputs,
           beam (self w) = Some b
           /\ linearbeam.ss b = Some bs
           /\ uvlm (self w) = Some uv
           /\ in_mode_matrix (linearbeam.U (linearbeam.sys b))
                inputs (libss.outputs bs)
                (linearbeam.num_dof (linearbeam.sys b))
                (linearbeam.num_modes (linearbeam.sys b))
                (linearuvlm.ScalingFacts (linearuvlm.sys uv)) = Ok m_in
           /\ rest = [(m_in, libss.gain_in);
                      (np.T (linearbeam.U (linearbeam.sys b)), libss.gain_out)]
       else rest = [].
Proof.
  intros (uv & u5 & evs & Huv & Hevs & Huv' & _ & _ & _ & _ & _ & H) Hload.
  rewrite Hload in H.
  destruct H as (lin & b & u0 & Ksa & Kas & u1 & u2 & modes & u4 & evs_modal
                 & evs_rom & _ & Hb & _ & _ & _ & _ & Hc & Hmodes & Hm & Hr & ->).
  destruct (reduction_stage_events _ _ _ _ Hr) as (_ & _ & Hg_r & Hrec_r).
  eexists Ksa, Kas, modes, _, (gains_added evs_modal).
  split; [done|]. split; [done|]. split; [done|].
  split.
  { unfold gains_added in *. rewrite !omap_app, Hg_r. simpl.
    by rewrite app_nil_r. }
  split.
  { destruct (modal_stage_events _ _ _ _ _ Hm) as (_ & _ & _ & Hrec_m).
    unfold reconstructions in *. by rewrite !omap_app, Hrec_r, Hrec_m. }
  unfold modal_stage in Hm. destruct modes.
  - destruct Hm as (b' & bs & uv' & m_in & u3 & Hb' & Hbs & Huv'' & Hin & _ & _ & ->).
    by exists b', bs, uv', m_in, (libss.inputs u2).
  - by destruct Hm as [_ ->].
Qed.

(** ** What [assemble] stores *)

(** C9: after a successful [assemble], on either path, [couplings] holds
    under ['Tas'] and ['Tsa'] the very matrices of the one call to
    [couple], and an [update] that follows couples through the same two;
    ['Ksa'] and ['Kas'] are written on the projection path only, where they
    are the first two gains injected, while the load path injects no gain
    and leaves the two entries as they were. *)
Theorem couplings_stored w w' :
  assemble w = (Ok tt, w') ->
  exists ss01 ss02 Tas Tsa evs,
    emitted w w' evs
    /\ interconnections evs = [(ss01, ss02, Tas, Tsa)]
    /\ couplings (self w') !! "Tas" = Some Tas
    /\ couplings (self w') !! "Tsa" = Some Tsa
    /\ (if load_uvlm_from_file (self w) then
          gains_added evs = []
          /\ couplings (self w') !! "Ksa" = couplings (self w) !! "Ksa"
          /\ couplings (self w') !! "Kas" = couplings (self w) !! "Kas"
        else
          exists Ksa Kas rest,
            gains_added evs
            = (Ksa, libss.gain_out) :: (Kas, libss.gain_in) :: rest
            /\ couplings (self w') !! "Ksa" = Some Ksa
            /\ couplings (self w') !! "Kas" = Some Kas)
    /\ (forall u_infty r w'',
          update u_infty w' = (Ok r, w'') ->
          exists ss02' evs',
            emitted w' w'' evs'
            /\ interconnections evs' = [(ss01, ss02', Tas, Tsa)]).
Proof.
  intros Hrun. apply assemble_spec in Hrun. destruct_assembled Hrun.
  destruct (assembled_emitted _ _ _ _ _ _ _ Hev1 Hproj Hev3 _ _ _ _ _ Hcoup)
    as (evs_p & evs_c & Hev & Hev_p & _ & Hint_p & _ & Hint_c & Hgain_c & _).
  assert (Hload1 : load_uvlm_from_file (self w1) = load_uvlm_from_file (self w))
    by (by rewrite Hself1).
  assert (Hcoup1 : couplings (self w1) = couplings (self w))
    by (by rewrite Hself1).
  eexists us, bs, Tas, Tsa, _.
  split; [exact Hev|].
  split.
  { unfold interconnections in *. rewrite !omap_app, Hint_p, Hint_c. done. }
  split; [by rewrite Hcouplings'; simplify_map_eq|].
  split; [by rewrite Hcouplings'; simplify_map_eq|].
  split.
  - destruct (load_uvlm_from_file (self w)) eqn:Hload.
    + destruct (projected_from_file _ _ Hproj Hload1)
        as (? & ? & ? & evs_p' & ? & ? & ? & ? & ? & _ & _ & _ & _ & Hev_p' & Hc2
            & Hg & _).
      assert (evs_p' = evs_p) as ->
        by (unfold emitted in *; rewrite Hev_p in Hev_p'; by simplify_list_eq).
      split.
      { unfold gains_added in *. by rewrite !omap_app, Hg, Hgain_c. }
      rewrite Hcouplings', Hc2, Hcoup1. by simplify_map_eq.
    + destruct (projected_in_memory _ _ Hproj Hload1)
        as (Ksa & Kas & modes & evs_p' & rest & Hev_p' & Hc2 & _ & Hg & _).
      assert (evs_p' = evs_p) as ->
        by (unfold emitted in *; rewrite Hev_p in Hev_p'; by simplify_list_eq).
      exists Ksa, Kas, rest. split.
      { unfold gains_added in *. rewrite !omap_app, Hg, Hgain_c. simpl.
        by rewrite app_nil_r. }
      rewrite Hcouplings', Hc2. by simplify_map_eq.
  - intros u_infty r w'' Hup. apply (wp_update u_infty w') in Hup.
    destruct Hup as (u & b & length & Tas' & Tsa' & ss01 & ss02 & Hu & _ & _ & _
                     & _ & _ & HTas & HTsa & Hss01 & _ & Hev' & _).
    rewrite Hcouplings' in HTas, HTsa. simplify_map_eq.
    rewrite Huvlm' in Hu. rewrite Hu in Hus. simpl in Hus. simplify_eq.
    by eexists ss02, _.
Qed.


(** ** The coupling matrices *)

(** C6: [assemble] couples through [Tas = np.eye(uvlm inputs, beam
    outputs)] and [Tsa = np.eye(beam inputs, uvlm outputs)], the counts
    being those of the two systems handed to [couple]; scaling keeps the
    two shapes.  [Tsa] is multiplied by [force * time ** 2]: its diagonal
    entries are [1 * (force * time ** 2)] and the others
    [0 * (force * time ** 2)].  Without rigid-body degrees of freedom, [Tas]
    is divided by the length scaling factor, entry by entry, unless the
    [modal_projection] setting of the beam is on, in which case it stays
    [np.eye(...)], with ones on the diagonal and zeros elsewhere. *)
Theorem coupling_matrices_scaled w w' :
  assemble w = (Ok tt, w') ->
  exists ss01 ss02 Tas Tsa eye_as eye_sa uv force time evs,
    emitted w w' evs
    /\ interconnections evs = [(ss01, ss02, Tas, Tsa)]
    /\ np.eye (libss.inputs ss01) (libss.outputs ss02) = Ok eye_as
    /\ np.eye (libss.inputs ss02) (libss.outputs ss01) = Ok eye_sa
    /\ uvlm (self w) = Some uv
    /\ linearuvlm.ScalingFacts (linearuvlm.sys uv) !! "force" = Some force
    /\ linearuvlm.ScalingFacts (linearuvlm.sys uv) !! "time" = Some time
    /\ Tsa = np.imul eye_sa (force * float_pow time 2)%float
    /\ np.shape0 Tas = Z.to_nat (libss.inputs ss01)
    /\ np.shape1 Tas = Z.to_nat (libss.outputs ss02)
    /\ np.shape0 Tsa = Z.to_nat (libss.inputs ss02)
    /\ np.shape1 Tsa = Z.to_nat (libss.outputs ss01)
    /\ (forall i j,
          (i < np.shape0 Tsa)%nat -> (j < np.shape1 Tsa)%nat ->
          np.item Tsa i j
          = ((if (i =? j)%nat then 1 else 0) * (force * float_pow time 2))%float)
    /\ (forall r,
          rigid_body_dofs w = Some r -> r <= 0 ->
          exists modal,
            modal_projection (settings (self w)) = Ok modal
            /\ if modal then
                 Tas = eye_as
                 /\ forall i j,
                      (i < np.shape0 Tas)%nat -> (j < np.shape1 Tas)%nat ->
                      np.item Tas i j = if (i =? j)%nat then 1%float else 0%float
               else exists length,
                 linearuvlm.ScalingFacts (linearuvlm.sys uv) !! "length"
                   = Some length
                 /\ Tas = np.divide eye_as length
                 /\ forall i j,
                      (i < np.shape0 Tas)%nat -> (j < np.shape1 Tas)%nat ->
                      np.item Tas i j
                      = ((if (i =? j)%nat then 1 else 0) / length)%float).
Proof.
  intros Hrun. apply assemble_spec in Hrun. destruct_assembled Hrun.
  destruct (assembled_emitted _ _ _ _ _ _ _ Hev1 Hproj Hev3 _ _ _ _ _ Hcoup)
    as (evs_p & evs_c & Hev & _ & _ & Hint_p & _ & Hint_c & _).
  pose proof (projected_frame _ _ Hproj) as (_ & Hbeam2 & Hset2 & _).
  destruct Hproj as (uv1 & u5 & _ & Huv1 & _ & Huv2 & _).
  rewrite Hself1 in Hbeam2, Hset2, Huv1. simpl in Hbeam2, Hset2, Huv1.
  destruct Hcoup as (uv2 & us' & b' & bs' & eye_as & eye_sa & force & time'
                     & Huv2' & Hus' & Hb' & Hbs' & Heye_as & Heye_sa & Hforce
                     & Htime' & HTsa & _ & Hcases).
  rewrite Huv2 in Hus, Huv2'. simpl in Hus. simplify_eq.
  simpl in Hus', Hforce, Htime', Hcases. simplify_eq.
  eexists _, _, Tas, _, eye_as, eye_sa, _, force, _, _.
  split; [exact Hev|].
  split.
  { unfold interconnections in *. rewrite !omap_app, Hint_p, Hint_c.
    reflexivity. }
  repeat (split; [eassumption || reflexivity|]).
  destruct (np_properties.eye_Ok _ _ _ Heye_as) as (_ & _ & Has0 & Has1 & Has).
  destruct (np_properties.eye_Ok _ _ _ Heye_sa) as (_ & _ & Hsa0 & Hsa1 & Hsa).
  assert (np.shape0 Tas = np.shape0 eye_as /\ np.shape1 Tas = np.shape1 eye_as)
    as [HTas0 HTas1].
  { destruct Hcases as [(_ & _ & length & _ & ->)|(_ & _ & modal & _ & HTas)];
      [done|].
    destruct modal; [by subst|]. by destruct HTas as (length & _ & ->). }
  split; [by rewrite HTas0|]. split; [by rewrite HTas1|].
  split; [done|]. split; [done|].
  split.
  { intros i j Hi Hj. cbn [np.imul np.tabulate np.shape0 np.shape1] in Hi, Hj.
    rewrite np_properties.imul_item by done.
    by rewrite Hsa by (rewrite <- ?Hsa0, <- ?Hsa1; done). }
  intros r Hr Hle.
  unfold rigid_body_dofs in Hr. rewrite Hbeam, Hsys in Hr. simpl in Hr.
  apply aero_terms_dofs in Hterms as [_ Hrigid].
  destruct (Z.ltb_spec 0 (Z.of_nat (np.shape0 (linearbeam.Kstr (linearbeam.sys b0)))
                          - lin_aeroelastic.num_dof_flex lin0)); [simplify_eq; lia|].
  destruct Hcases as [(Hpos & _)|(_ & _ & modal & Hmodal & HTas)]; [lia|].
  exists modal. rewrite Hset2 in Hmodal. split; [done|].
  destruct modal.
  - split; [done|]. subst Tas. intros i j Hi Hj.
    by rewrite Has by (rewrite <- ?Has0, <- ?Has1; done).
  - destruct HTas as (length & Hlength & ->).
    exists length. rewrite np_properties.idiv_all in *.
    split; [done|]. split; [done|]. intros i j Hi Hj.
    cbn [np.divide np.tabulate np.shape0 np.shape1] in Hi, Hj.
    rewrite np_properties.divide_item by done.
    by rewrite Has by (rewrite <- ?Has0, <- ?Has1; done).
Qed.


(** ** The modal projection *)

Lemma broadcast_block_diag phi h w :
  np.broadcastable (sclalg.block_diag phi phi) h w = true ->
  np.shape0 (sclalg.block_diag phi phi) = h
  /\ np.shape1 (sclalg.block_diag phi phi) = w
  /\ forall i j,
       np.broadcast_item (sclalg.block_diag phi phi) i j
       = np.item (sclalg.block_diag phi phi) i j.
Proof.
  unfold np.broadcastable, np.broadcast_item. simpl. intros H.
  apply andb_true_iff in H as [H0 H1].
  apply orb_true_iff in H0 as [H0|H0]; apply Nat.eqb_eq in H0; [|lia].
  apply orb_true_iff in H1 as [H1|H1]; apply Nat.eqb_eq in H1; [|lia].
  split; [done|]. split; [done|]. intros i j.
  destruct (Nat.eqb_spec (np.shape0 phi + np.shape0 phi) 1); [lia|].
  destruct (Nat.eqb_spec (np.shape1 phi + np.shape1 phi) 1); [lia|].
  done.
Qed.

Lemma in_mode_matrix_block phi uvlm_inputs beam_outputs num_dof num_modes scaling m :
  in_mode_matrix phi uvlm_inputs beam_outputs num_dof num_modes scaling = Ok m ->
  exists length,
    scaling !! "length" = Some length
    /\ np.getitem m (np.upto (2 * num_dof)) (np.upto (2 * num_modes))
       = np.divide (sclalg.block_diag phi phi) length.
Proof.
  unfold in_mode_matrix. intros H.
  destruct (np.eye _ _) as [m0|] eqn:Heye; simpl in H; [|done].
  unfold np.setitem in H.
  destruct (np.broadcastable _ _ _) eqn:Hb; simpl in H; [|done].
  destruct (lookup_key scaling "length") as [length|] eqn:Hlen; simpl in H; [|done].
  apply lookup_key_Ok in Hlen. injection H as <-.
  exists length. split; [done|].
  apply broadcast_block_diag in Hb as (Hh & Hw & Hitem).
  unfold np.getitem, np.divide. cbn [np.shape0 np.shape1 np.idiv np.tabulate].
  unfold np.extent in *. rewrite !np_properties.lower_upto in *.
  rewrite !Nat.sub_0_r in *. rewrite <- Hh, <- Hw.
  apply np_properties.tabulate_ext. intros i j Hi Hj.
  pose proof (np_properties.upper_le (np.shape0 m0) (np.upto (2 * num_dof))).
  pose proof (np_properties.upper_le (np.shape1 m0) (np.upto (2 * num_modes))).
  unfold np.idiv. rewrite np_properties.item_tabulate by (simpl; lia).
  cbn [np.shape0 np.shape1 np.tabulate].
  rewrite !np_properties.selects_all by lia. simpl andb. cbv iota.
  rewrite np_properties.item_tabulate by lia.
  rewrite !np_properties.selects_upto.
  change (0 + i)%nat with i. change (0 + j)%nat with j.
  destruct (Nat.ltb_spec i (np.upper (np.shape0 m0) (np.upto (2 * num_dof)))); [|lia].
  destruct (Nat.ltb_spec j (np.upper (np.shape1 m0) (np.upto (2 * num_modes)))); [|lia].
  simpl andb. cbv iota. by rewrite !Nat.sub_0_r, Hitem.
Qed.

(** C4: with [modal_projection] on and [inout_coords] equal to ['modes'],
    the gains injected into the UVLM are [Ksa], [Kas], the input-side modal
    projection matrix and [phi.T], where [phi] is the mode-shape matrix
    [beam.sys.U]; the input-side matrix satisfies
    [in_mode_matrix[:2*num_dof, :2*num_modes] == block_diag(phi, phi) /
    length], [length] being the length scaling factor. *)
Theorem modal_projection_scale w w' :
  assemble w = (Ok tt, w') ->
  load_uvlm_from_file (self w) = false ->
  projected_onto_modes (settings (self w)) = Ok true ->
  exists Ksa Kas m_in b uv length evs,
    emitted w w' evs
    /\ beam (self w') = Some b
    /\ uvlm (self w) = Some uv
    /\ linearuvlm.ScalingFacts (linearuvlm.sys uv) !! "length" = Some length
    /\ gains_added evs
       = [(Ksa, libss.gain_out); (Kas, libss.gain_in); (m_in, libss.gain_in);
          (np.T (linearbeam.U (linearbeam.sys b)), libss.gain_out)]
    /\ np.getitem m_in
         (np.upto (2 * linearbeam.num_dof (linearbeam.sys b)))
         (np.upto (2 * linearbeam.num_modes (linearbeam.sys b)))
       = np.divide
           (sclalg.block_diag (linearbeam.U (linearbeam.sys b))
              (linearbeam.U (linearbeam.sys b)))
           length.
Proof.
  intros Hrun Hload Hmodes. apply assemble_spec in Hrun. destruct_assembled Hrun.
  destruct (assembled_emitted _ _ _ _ _ _ _ Hev1 Hproj Hev3 _ _ _ _ _ Hcoup)
    as (evs_p & evs_c & Hev & Hev_p & _ & _ & _ & _ & Hgain_c & _).
  assert (Hload1 : load_uvlm_from_file (self w1) = false) by (by rewrite Hself1).
  destruct (projected_in_memory _ _ Hproj Hload1)
    as (Ksa & Kas & modes & evs_p' & rest & Hev_p' & _ & Hmodes' & Hg & _ & Hrest).
  assert (evs_p' = evs_p) as ->
    by (unfold emitted in *; rewrite Hev_p in Hev_p'; by simplify_list_eq).
  rewrite Hself1 in Hmodes'. simpl in Hmodes'. rewrite Hmodes in Hmodes'.
  injection Hmodes' as <-.
  destruct Hrest as (b' & bs' & uv' & m_in & inputs & Hb' & _ & Huv' & Hin & ->).
  rewrite Hself1 in Hb', Huv'. simpl in Hb', Huv'. simplify_eq.
  destruct (in_mode_matrix_block _ _ _ _ _ _ _ Hin) as (length & Hlength & Hblock).
  eexists Ksa, Kas, m_in, _, _, length, _.
  split; [exact Hev|]. split; [exact Hbeam'|]. split; [exact Huvlm|].
  split; [exact Hlength|]. split; [|exact Hblock].
  unfold gains_added in *. by rewrite !omap_app, Hg, Hgain_c.
Qed.


(** ** [initialise] *)

Lemma wp_initialise data w :
  wp (initialise data) w (fun _ w' => initialised data w w').
Proof.
  unfold initialise. apply wp_bind.
  assert (Hafter : forall own,
    (own_settings (data_settings data) = Ok own
     \/ (own_settings (data_settings data) = Raise KeyError /\ own = PyNone)) ->
    wp (s <- read settings ;;
        converted <- call Call_to_custom_types
                       (to_custom_types s settings_types settings_default) ;;
        modify (set_settings (in_place s converted)) ;;
        s <- read settings ;;
        lin <- call Call_LinAeroEla (LinAeroEla_new data s) ;;
        modify (set_sys (Some lin)) ;;
        uvlm_settings <- sub_settings "aero_settings" ;;
        uvlm <- call (Call_uvlm_initialise uvlm_settings)
                  (LinearUVLM_initialise data uvlm_settings) ;;
        s <- read settings ;;
        filename <- lift (subscript s "uvlm_filename") ;;
        uvlm <- (if eq_str filename ""
                 then call Call_uvlm_assemble (LinearUVLM_assemble uvlm)
                 else modify (set_load_uvlm_from_file true) ;; ret uvlm) ;;
        modify (set_uvlm (Some uvlm)) ;;
        beam_settings <- sub_settings "beam_settings" ;;
        beam <- call (Call_beam_initialise beam_settings)
                  (LinearBeam_initialise data beam_settings) ;;
        modify (set_beam (Some beam)))
      (after_modify (set_settings own) w)
      (fun _ w' => initialised data w w')).
  { intros own Hown. wp_steps.
    match goal with |- context [eq_str ?f ""] =>
      destruct (eq_str f "") eqn:Hname end;
      wp_steps; unfold initialised;
      eexists own, _, _, _, _, _, _, _, _;
      (split; [exact Hown|]); simpl;
      repeat (split; [first [eassumption | reflexivity]|]);
      rewrite Hname;
      repeat (split; [first [eassumption | reflexivity
                             | split; first [eassumption | reflexivity]]|]);
      emitted_by_run. }
  apply wp_try.
  - apply wp_bind, wp_lift. intros block Hblock.
    apply wp_bind, wp_lift. intros own Hown.
    apply wp_modify, Hafter. left. unfold own_settings. by rewrite Hblock.
  - intros w1 Hraise. apply wp_modify.
    unfold bind, lift, modify in Hraise. unfold own_settings in Hafter.
    destruct (subscript (data_settings data) "LinearAssembler") as [block|e];
      simpl in *.
    + destruct (subscript block sys_id) as [own|e]; simpl in *; [done|].
      injection Hraise as -> <-. apply Hafter. by right.
    + injection Hraise as -> <-. apply Hafter. by right.
Qed.


(** ** The load path *)

Lemma initialise_fresh data w0 w :
  self w0 = __init__ ->
  initialise data w0 = (Ok tt, w) ->
  couplings (self w) = ∅
  /\ forall filename,
       subscript (settings (self w)) "uvlm_filename" = Ok filename ->
       load_uvlm_from_file (self w) = negb (eq_str filename "").
Proof.
  intros Hfresh Hrun. apply (wp_initialise data) in Hrun.
  destruct Hrun as (own & converted & lin & uvlm_settings & u0 & filename & u1
                    & beam_settings & b0 & _ & _ & _ & _ & _ & _ & _ & Hname
                    & Hload & _ & _ & _ & _ & _ & Hc & _).
  rewrite Hfresh in Hc, Hload. simpl in Hc, Hload.
  split; [done|]. intros filename' Hname'. rewrite Hname in Hname'.
  injection Hname' as <-.
  destruct (eq_str filename ""); by destruct Hload as [_ ->].
Qed.

(** C5: a fresh object initialised with a [uvlm_filename] other than the
    empty string takes the load path in [assemble]: no gain is injected into the
    UVLM, no reduction is run and nothing is stored under ['Ksa'] and
    ['Kas'].  The aerodynamic system that is stored and coupled is the one
    [libss.ss] builds from the fields [A], [B], [C], [D] and [dt] found in
    the file under [data.linear.lsys['LinearAeroelastic'].uvlm.ss]. *)
Theorem assemble_from_file data w0 w w' filename :
  self w0 = __init__ ->
  initialise data w0 = (Ok tt, w) ->
  subscript (settings (self w)) "uvlm_filename" = Ok filename ->
  eq_str filename "" = false ->
  assemble w = (Ok tt, w') ->
  exists uv s A B C D dt evs_load evs ss02 Tas Tsa,
    load_uvlm_from_file (self w) = true
    /\ emitted w w' evs
    /\ gains_added evs = []
    /\ reductions evs = []
    /\ couplings (self w') !! "Ksa" = None
    /\ couplings (self w') !! "Kas" = None
    /\ loaded filename s evs_load
    /\ reconstructions evs_load = [(A, B, C, D, dt)]
    /\ reconstructions evs = [(A, B, C, D, dt)]
    /\ libss_ss A B C D dt = Ok s
    /\ uvlm (self w) = Some uv
    /\ uvlm (self w') = Some (linearuvlm.set_ss (Some s) uv)
    /\ interconnections evs = [(s, ss02, Tas, Tsa)].
Proof.
  intros Hfresh Hinit Hname Hnonempty Hrun.
  destruct (initialise_fresh _ _ _ Hfresh Hinit) as [Hempty Hflag].
  specialize (Hflag _ Hname). rewrite Hnonempty in Hflag. simpl in Hflag.
  apply assemble_spec in Hrun. destruct_assembled Hrun.
  destruct (assembled_emitted _ _ _ _ _ _ _ Hev1 Hproj Hev3 _ _ _ _ _ Hcoup)
    as (evs_p & evs_c & Hev & Hev_p & _ & Hint_p & _ & Hint_c & Hgain_c & Hred_c
        & Hrec_c).
  assert (Hload1 : load_uvlm_from_file (self w1) = true) by (by rewrite Hself1).
  destruct (projected_from_file _ _ Hproj Hload1)
    as (uv1 & s & filename' & evs_p' & A & B & C & D & dt & Huv1 & Huv2 & Hname'
        & Hloaded & Hev_p' & Hc2 & Hg & Hred & Hrec & Hs).
  assert (evs_p' = evs_p) as ->
    by (unfold emitted in *; rewrite Hev_p in Hev_p'; by simplify_list_eq).
  rewrite Hself1 in Hname', Huv1, Hc2. simpl in Hname', Huv1, Hc2.
  rewrite Hname in Hname'. simplify_eq.
  rewrite Huv2 in Hus. simpl in Hus. simplify_eq.
  eexists uv, us, A, B, C, D, dt, evs_p, _, bs, Tas, Tsa.
  split; [done|]. split; [exact Hev|].
  split; [unfold gains_added in *; by rewrite !omap_app, Hg, Hgain_c|].
  split; [unfold reductions in *; by rewrite !omap_app, Hred, Hred_c|].
  split; [rewrite Hcouplings', Hc2, Hempty; by simplify_map_eq|].
  split; [rewrite Hcouplings', Hc2, Hempty; by simplify_map_eq|].
  split; [done|]. split; [done|].
  split; [unfold reconstructions in *; by rewrite !omap_app, Hrec, Hrec_c|].
  split; [done|]. split; [done|].
  split; [by rewrite Huvlm'|].
  unfold interconnections in *. by rewrite !omap_app, Hint_p, Hint_c.
Qed.


(** ** An update at the speed of the assembly *)

Lemma update_runs u_infty w u b length Tas Tsa ss01 ss02 r :
  uvlm (self w) = Some u ->
  beam (self w) = Some b ->
  linearuvlm.ScalingFacts (linearuvlm.sys u) !! "length" = Some length ->
  (u_infty =? 0)%float = false ->
  linearbeam.realization (linearbeam.sys b)
    (linearbeam.Kstr (linearbeam.sys b)) (linearbeam.Cstr (linearbeam.sys b))
    (length / u_infty)%float = Ok ss02 ->
  couplings (self w) !! "Tas" = Some Tas ->
  couplings (self w) !! "Tsa" = Some Tsa ->
  linearuvlm.ss u = Some ss01 ->
  couple ss01 ss02 Tas Tsa = Ok r ->
  exists w', update u_infty w = (Ok r, w').
Proof.
  intros Hu Hb Hlength Hnz Hreal HTas HTsa Hss01 Hcouple.
  unfold update, ScalingFacts, beam_sys, set_beam_sys, self_uvlm, self_beam,
    call, bind, read, lift, emit, modify, ret, lookup_key, truediv,
    linearbeam.FlexDynamic_assemble.
  simpl.
  repeat (first [ rewrite Hu | rewrite Hb | rewrite Hlength | rewrite Hnz
                | rewrite Hreal | rewrite HTas | rewrite HTsa | rewrite Hss01
                | rewrite Hcouple ]; simpl).
  eauto.
Qed.


Lemma linearbeam_assemble_Ok t_ref b b' :
  linearbeam.assemble t_ref b = Ok b' ->
  exists d,
    linearbeam.realization (linearbeam.sys b)
      (linearbeam.Kstr (linearbeam.sys b)) (linearbeam.Cstr (linearbeam.sys b))
      t_ref = Ok d
    /\ b' = reassembled t_ref d b.
Proof.
  unfold linearbeam.assemble. intros H.
  destruct (linearbeam.FlexDynamic_assemble _) as [s|] eqn:Hs; simpl in H; [|done].
  apply FlexDynamic_assemble_Ok in Hs as (d & Hd & ->).
  injection H as <-. by exists d.
Qed.

Lemma reassembled_again t_ref d b :
  reassembled t_ref d (reassembled t_ref d b) = reassembled t_ref d b.
Proof. done. Qed.

(** C2: let the coupled system be assembled with a time scaling factor
    equal to [length / u_infty], for a speed other than zero.  Then
    [update(u_infty)] goes through, returns the coupled system that
    [assemble] had stored, and leaves the beam as it was: its state-space
    object, hence state matrix and time step, are the ones of the
    assembly. *)
Theorem update_at_assembly_speed w w' u_infty uvlm_in time_in length :
  assemble w = (Ok tt, w') ->
  uvlm (self w) = Some uvlm_in ->
  linearuvlm.ScalingFacts (linearuvlm.sys uvlm_in) !! "time" = Some time_in ->
  linearuvlm.ScalingFacts (linearuvlm.sys uvlm_in) !! "length" = Some length ->
  (u_infty =? 0)%float = false ->
  time_in = (length / u_infty)%float ->
  exists d r w'',
    beam (self w') ≫= linearbeam.ss = Some d
    /\ update u_infty w' = (Ok r, w'')
    /\ ss (self w') = Some r
    /\ beam (self w'') = beam (self w')
    /\ exists d',
         beam (self w'') ≫= linearbeam.ss = Some d'
         /\ libss.A d' = libss.A d
         /\ libss.dt d' = libss.dt d.
Proof.
  intros Hrun Huv Htime_uv Hlength Hnz Hscale.
  apply assemble_spec in Hrun. destruct_assembled Hrun.
  rewrite Huv in Huvlm. injection Huvlm as <-.
  rewrite Htime_uv in Htime. injection Htime as <-.
  apply linearbeam_assemble_Ok in Hb1 as (d & Hd & ->). simpl in Hd, Hbs.
  injection Hbs as <-.
  destruct Hproj as (uv1 & u5 & _ & Huv1 & _ & Huv2 & _).
  rewrite Hself1 in Huv1. simpl in Huv1. rewrite Huv in Huv1.
  injection Huv1 as <-.
  rewrite Huv2 in Hus. simpl in Hus. injection Hus as ->.
  rewrite Huv2 in Huvlm'.
  destruct (update_runs u_infty w' _ _ length Tas Tsa us d coupled Huvlm' Hbeam')
    as (w'' & Hup).
  { done. }
  { done. }
  { simpl. by rewrite <- Hscale. }
  { rewrite Hcouplings'. by simplify_map_eq. }
  { rewrite Hcouplings'. by simplify_map_eq. }
  { done. }
  { done. }
  exists d, coupled, w''.
  split; [by rewrite Hbeam'|]. split; [done|]. split; [done|].
  apply (wp_update u_infty w') in Hup.
  destruct Hup as (u & b & length' & Tas' & Tsa' & ss01 & ss02 & Hu & Hb & Hlength'
                   & _ & Hreal & Hb'' & _).
  rewrite Huvlm' in Hu. injection Hu as <-.
  rewrite Hbeam' in Hb. injection Hb as <-.
  simpl in Hlength', Hreal. rewrite Hlength in Hlength'. injection Hlength' as <-.
  rewrite <- Hscale, Hd in Hreal. injection Hreal as <-.
  rewrite <- Hscale in Hb''. rewrite reassembled_again in Hb''.
  rewrite Hb'', Hbeam'. split; [done|]. by exists d.
Qed.


(** ** [initialise] without a settings block *)

(** C3 fails on the code.  When [data.settings] has no
    ['LinearAssembler']['LinearAeroelastic'] block, [initialise] sets
    [self.settings] to [None] and then always raises: if [to_custom_types]
    and the [LinAeroEla] constructor let [None] through, the exception is
    the [TypeError] of [self.settings['aero_settings']], which the
    [except KeyError] around it does not catch, and neither the UVLM nor
    the beam is initialised. *)
Theorem initialise_without_settings_block data w :
  own_settings (data_settings data) = Raise KeyError ->
  exists e w',
    initialise data w = (Raise e, w')
    /\ settings (self w') = PyNone
    /\ uvlm (self w') = uvlm (self w)
    /\ beam (self w') = beam (self w)
    /\ (forall converted lin,
          to_custom_types PyNone settings_types settings_default = Ok converted ->
          LinAeroEla_new data PyNone = Ok lin ->
          e = TypeError
          /\ emitted w w' [Call_to_custom_types; Call_LinAeroEla]).
Proof.
  intros Hown. unfold own_settings in Hown.
  assert (Hfirst :
    try_except_KeyError
      (la <- lift (subscript (data_settings data) "LinearAssembler") ;;
       s <- lift (subscript la sys_id) ;;
       modify (set_settings s))
      (modify (set_settings PyNone)) w
    = (Ok tt, after_modify (set_settings PyNone) w)).
  { unfold try_except_KeyError, bind, lift, modify.
    destruct (subscript (data_settings data) "LinearAssembler") as [block|e0];
      simpl in *; [by rewrite Hown | by injection Hown as ->]. }
  unfold initialise. unfold bind at 1. rewrite Hfirst.
  unfold sub_settings, try_except_KeyError, call, bind, lift, modify, read,
    emit, ret. simpl.
  destruct (to_custom_types PyNone settings_types settings_default)
    as [converted|e1]; simpl.
  - destruct (LinAeroEla_new data PyNone) as [lin|e2]; simpl.
    + eexists _, _. split; [reflexivity|]. simpl.
      do 3 (split; [done|]). intros ? ? _ _. split; [done|].
      unfold emitted. simpl. by rewrite <- app_assoc.
    + eexists _, _. split; [reflexivity|]. simpl.
      do 3 (split; [done|]). by intros ? ? _ ?.
  - eexists _, _. split; [reflexivity|]. simpl.
    do 3 (split; [done|]). by intros ? ? ? _.
Qed.

End assemble.

(** ** The small case, run *)

(** The small case with one rigid-body degree of freedom and unit scaling
    factors. *)
Lemma rigid_body_warning_witness :
  exists evs,
    emitted (small_case.initialised small_case.free_flying)
      (small_case.assembled small_case.free_flying) evs
    /\ warnings evs = [rigid_warning].
Proof.
  destruct (@rigid_body_warning small_case.collaborators
              (small_case.initialised small_case.free_flying)
              (small_case.assembled small_case.free_flying))
    as (lin_in & lin & beam_in & terms & evs & Hlin_in & Hlin & Hbeam_in
        & Hterms & _ & Hev & Hwarn & _).
  { by vm_compute. }
  exists evs. split; [done|]. rewrite Hwarn.
  vm_compute in Hlin_in, Hbeam_in. simplify_eq.
  vm_compute in Hlin. simplify_eq.
  vm_compute in Hterms. by simplify_eq.
Defined.

(** The clamped small case: the stiffness matrix has the two flexible rows
    only. *)
Lemma no_rigid_body_dofs_witness :
  exists evs,
    emitted (small_case.initialised small_case.clamped)
      (small_case.assembled small_case.clamped) evs
    /\ warnings evs = [].
Proof.
  destruct (@no_rigid_body_dofs small_case.collaborators
              (small_case.initialised small_case.clamped)
              (small_case.assembled small_case.clamped)
              (small_case.gains small_case.clamped)
              (small_case.new_beam small_case.clamped
                 (small_case.beam_block false "nodes")))
    as (lin & terms & Cstr & Kstr & time & b1 & evs & Hlin & Hterms & _ & Hdamp
        & _ & _ & _ & _ & _ & _ & Hev & Hwarn).
  { by vm_compute. }
  { by vm_compute. }
  { by vm_compute. }
  { by vm_compute. }
  exists evs. split; assumption.
Defined.

(** The small case without a settings block. *)
Lemma initialise_without_settings_block_witness :
  exists w',
    @initialise small_case.collaborators small_case.unconfigured small_case.fresh
    = (Raise TypeError, w')
    /\ settings (self w') = PyNone
    /\ uvlm (self w') = None
    /\ beam (self w') = None.
Proof.
  destruct (@initialise_without_settings_block small_case.collaborators
              small_case.unconfigured small_case.fresh)
    as (e & w' & Hrun & Hsettings & Huvlm & Hbeam & He).
  { by vm_compute. }
  destruct (He PyNone (small_case.gains small_case.unconfigured)) as [-> _].
  { by vm_compute. }
  { by vm_compute. }
  by exists w'.
Defined.

(** The clamped small case keeps its two coupling matrices. *)
Lemma couplings_stored_witness :
  exists Tas Tsa,
    couplings (self (small_case.assembled small_case.clamped)) !! "Tas" = Some Tas
    /\ couplings (self (small_case.assembled small_case.clamped)) !! "Tsa" = Some Tsa.
Proof.
  destruct (@couplings_stored small_case.collaborators
              (small_case.initialised small_case.clamped)
              (small_case.assembled small_case.clamped))
    as (ss01 & ss02 & Tas & Tsa & evs & _ & _ & HTas & HTsa & _).
  { by vm_compute. }
  exists Tas, Tsa. exact (conj HTas HTsa).
Defined.

(** The coupling matrices of the clamped small case. *)
Lemma coupling_matrices_scaled_witness :
  exists ss01 ss02 Tas Tsa evs,
    emitted (small_case.initialised small_case.clamped)
      (small_case.assembled small_case.clamped) evs
    /\ interconnections evs = [(ss01, ss02, Tas, Tsa)].
Proof.
  destruct (@coupling_matrices_scaled small_case.collaborators
              (small_case.initialised small_case.clamped)
              (small_case.assembled small_case.clamped))
    as (ss01 & ss02 & Tas & Tsa & eye_as & eye_sa & uv & force & time & evs
        & Hev & Hint & _).
  { by vm_compute. }
  exists ss01, ss02, Tas, Tsa, evs. exact (conj Hev Hint).
Defined.

(** The small case in modal coordinates. *)
Lemma modal_projection_scale_witness :
  exists m_in b length,
    beam (self (small_case.assembled small_case.in_modes)) = Some b
    /\ np.getitem m_in
         (np.upto (2 * linearbeam.num_dof (linearbeam.sys b)))
         (np.upto (2 * linearbeam.num_modes (linearbeam.sys b)))
       = np.divide
           (sclalg.block_diag (linearbeam.U (linearbeam.sys b))
              (linearbeam.U (linearbeam.sys b)))
           length.
Proof.
  destruct (@modal_projection_scale small_case.collaborators
              (small_case.initialised small_case.in_modes)
              (small_case.assembled small_case.in_modes))
    as (Ksa & Kas & m_in & b & uv & length & evs & _ & Hb & _ & _ & _ & Hblock).
  { by vm_compute. }
  { by vm_compute. }
  { by vm_compute. }
  exists m_in, b, length. exact (conj Hb Hblock).
Defined.

(** The small case with the aerodynamic system read from the file. *)
Lemma assemble_from_file_witness :
  exists evs,
    emitted (small_case.initialised small_case.from_file)
      (small_case.assembled small_case.from_file) evs
    /\ gains_added evs = []
    /\ reductions evs = [].
Proof.
  destruct (@assemble_from_file small_case.collaborators
              small_case.from_file small_case.fresh
              (small_case.initialised small_case.from_file)
              (small_case.assembled small_case.from_file)
              (PyStr small_case.persisted_name))
    as (uv & s & A & B & C & D & dt & evs_load & evs & ss02 & Tas & Tsa
        & _ & Hev & Hgains & Hred & _).
  { reflexivity. }
  { by vm_compute. }
  { by vm_compute. }
  { by vm_compute. }
  { by vm_compute. }
  exists evs. exact (conj Hev (conj Hgains Hred)).
Defined.

(** The clamped small case is assembled at length 2 and time 0.5, that is
    at speed 4, and updated at speed 4. *)
Lemma update_at_assembly_speed_witness :
  exists d r w'',
    beam (self (small_case.assembled small_case.clamped)) ≫= linearbeam.ss = Some d
    /\ @update small_case.collaborators 4
         (small_case.assembled small_case.clamped) = (Ok r, w'')
    /\ exists d',
         beam (self w'') ≫= linearbeam.ss = Some d'
         /\ libss.A d' = libss.A d
         /\ libss.dt d' = libss.dt d.
Proof.
  destruct (@update_at_assembly_speed small_case.collaborators
              (small_case.initialised small_case.clamped)
              (small_case.assembled small_case.clamped)
              4%float
              (linearuvlm.set_ss (Some small_case.uvlm_system)
                 (small_case.new_uvlm small_case.clamped))
              0.5%float 2%float)
    as (d & r & w'' & Hd & Hup & _ & _ & Hd').
  { by vm_compute. }
  { by vm_compute. }
  { by vm_compute. }
  { by vm_compute. }
  { by vm_compute. }
  { by vm_compute. }
  exists d, r, w''. exact (conj Hd (conj Hup Hd')).
Defined.

(** C1 as stated fails: the free-flying small case has one rigid-body
    degree of freedom and a time scaling factor of one, and its assembly
    raises the warning. *)
Lemma warning_with_unit_time_scaling :
  let w := small_case.initialised small_case.free_flying in
  let run := @assemble small_case.collaborators w in
  fst run = Ok tt
  /\ rigid_body_dofs w = Some 1
  /\ time_scaling w = Some 1%float
  /\ rigid_warning ∈ warnings (new_events w (snd run))
  /\ ~ (rigid_warning ∈ warnings (new_events w (snd run))
        <-> ((exists r, rigid_body_dofs w = Some r /\ 0 < r)
             /\ time_scaling w <> Some 1%float)).
Proof.
  assert (Hin : rigid_warning ∈
                  warnings (new_events (small_case.initialised small_case.free_flying)
                    (snd (@assemble small_case.collaborators
                       (small_case.initialised small_case.free_flying))))).
  { vm_compute. apply list_elem_of_here. }
  intros w run. split; [by vm_compute|]. split; [by vm_compute|].
  split; [by vm_compute|]. split; [exact Hin|].
  intros [H _]. destruct (H Hin) as [_ Hne]. apply Hne. by vm_compute.
Qed.

End LinearAeroelastic_properties.

(** * The assembler off the main path

    What [update] and [load_uvlm] do when the object or the file is not as
    they expect, the flag that [initialise] raises, and the blocks that
    [assemble] writes into the beam matrices and into the input gain. *)

Module LinearAeroelastic_edges.
Import LinearAeroelastic.
Import runs.
Import np_properties.
Import LinearAeroelastic_properties.

(** names the parts of a run of [assemble] *)
Ltac open_assembled H :=
  destruct H as (lin0 & lin & b0 & uv & terms & Cstr' & Kstr' & time & b1
                 & w1 & w2 & w3 & Tas & Tsa & us & bs & coupled
                 & Hsys & Hgains & Hbeam & Huvlm & Hterms & HCstr & HKstr
                 & Htime & Hb1 & Hself1 & Hev1 & Hproj & Hcoup & Hus & Hbs
                 & Hcouple & Hev3 & Hss' & Hcouplings' & Hvars' & Hsys'
                 & Huvlm' & Hbeam' & Hconf').

Section failures.

Context {collaborators : Collaborators}.

(** X1: [update(u_infty)] with a reference velocity equal to zero (a Python
    float, as the length it divides) raises [ZeroDivisionError] at its first
    statement (line 218), and the object and the trace are as they were:
    the beam is not touched. *)
Theorem update_at_zero_speed u_infty w u length :
  uvlm (self w) = Some u ->
  linearuvlm.ScalingFacts (linearuvlm.sys u) !! "length" = Some length ->
  (u_infty =? 0)%float = true ->
  update u_infty w = (Raise ZeroDivisionError, w).
Proof.
  intros Hu Hlength Hzero.
  unfold update, ScalingFacts, self_uvlm, bind, read, lift, lookup_key, truediv.
  simpl. rewrite Hu. simpl. rewrite Hlength. simpl. by rewrite Hzero.
Qed.

(** X2: [update(u_infty)] on an object whose [couplings] has no ['Tas'],
    as after [initialise] without [assemble], raises [KeyError] at line 225
    when the beam can be realized at the new time scale.  By then the two
    calls on the beam have been made: the beam holds the system realized at
    the new time scale, while [ss], [uvlm] and [couplings] are
    unchanged. *)
Theorem update_before_assemble u_infty w u b length d :
  uvlm (self w) = Some u ->
  beam (self w) = Some b ->
  linearuvlm.ScalingFacts (linearuvlm.sys u) !! "length" = Some length ->
  (u_infty =? 0)%float = false ->
  linearbeam.realization (linearbeam.sys b)
    (linearbeam.Kstr (linearbeam.sys b)) (linearbeam.Cstr (linearbeam.sys b))
    (length / u_infty)%float = Ok d ->
  couplings (self w) !! "Tas" = None ->
  exists w',
    update u_infty w = (Raise KeyError, w')
    /\ emitted w w'
         [Call_update_matrices_time_scale (length / u_infty)%float;
          Call_beam_sys_assemble]
    /\ beam (self w') = Some (reassembled (length / u_infty)%float d b)
    /\ ss (self w') = ss (self w)
    /\ uvlm (self w') = uvlm (self w)
    /\ couplings (self w') = couplings (self w).
Proof.
  intros Hu Hb Hlength Hnz Hreal HTas.
  unfold update, ScalingFacts, beam_sys, set_beam_sys, self_uvlm, self_beam,
    call, bind, read, lift, emit, modify, ret, lookup_key, truediv,
    linearbeam.FlexDynamic_assemble.
  simpl.
  repeat (first [ rewrite Hu | rewrite Hb | rewrite Hlength | rewrite Hnz
                | rewrite Hreal | rewrite HTas ]; simpl).
  eexists. split; [reflexivity|]. simpl.
  split; [unfold emitted; simpl; by rewrite <- app_assoc|].
  done.
Qed.


Lemma getattr_raises o name e : h5.getattr o name = Raise e -> e = AttributeError.
Proof.
  unfold h5.getattr. destruct o; try (by intros [= <-]).
  destruct (_ !! name); [done | by intros [= <-]].
Qed.

(** X4: when the object at [data.linear.lsys[sys_id].uvlm.ss] of the file
    lacks one of the attributes [A], [B], [C], [D], [dt], [load_uvlm] raises
    [AttributeError]; it has printed its message and read the file, and the
    assembler object is unchanged. *)
Theorem load_uvlm_missing_field filename w file o name :
  readh5 filename = Ok file ->
  persisted_ss file = Ok o ->
  name ∈ persisted_fields ->
  h5.getattr o name = Raise AttributeError ->
  exists w',
    load_uvlm filename w = (Raise AttributeError, w')
    /\ self w' = self w
    /\ emitted w w'
         [Cout "Loading UVLM state space system projected onto structural DOFs from file";
          Call_readh5 filename].
Proof.
  intros Hfile Hss Hname Hmissing.
  unfold persisted_ss in Hss.
  destruct (h5.getattr file "data") as [read_data|] eqn:H1; simpl in Hss; [|done].
  destruct (h5.getattr read_data "linear") as [linear|] eqn:H2; simpl in Hss; [|done].
  destruct (h5.getattr linear "lsys") as [lsys|] eqn:H3; simpl in Hss; [|done].
  destruct (h5.getitem lsys sys_id) as [element|] eqn:H4; simpl in Hss; [|done].
  destruct (h5.getattr element "uvlm") as [element_uvlm|] eqn:H5; simpl in Hss; [|done].
  unfold load_uvlm, call, bind, emit, lift. simpl.
  rewrite Hfile, H1, H2, H3, H4, H5, Hss.
  assert (Hev : forall tr : list event,
    (tr ++ [Cout "Loading UVLM state space system projected onto structural DOFs from file"])
      ++ [Call_readh5 filename]
    = tr ++ [Cout "Loading UVLM state space system projected onto structural DOFs from file";
             Call_readh5 filename]) by (intros; by rewrite <- app_assoc).
  destruct (h5.getattr o "A") as [A|e] eqn:HA.
  2: { apply getattr_raises in HA as ->. eexists. split; [reflexivity|].
       split; [done|]. apply Hev. }
  destruct (h5.getattr o "B") as [B|e] eqn:HB.
  2: { apply getattr_raises in HB as ->. eexists. split; [reflexivity|].
       split; [done|]. apply Hev. }
  destruct (h5.getattr o "C") as [C|e] eqn:HC.
  2: { apply getattr_raises in HC as ->. eexists. split; [reflexivity|].
       split; [done|]. apply Hev. }
  destruct (h5.getattr o "D") as [D|e] eqn:HD.
  2: { apply getattr_raises in HD as ->. eexists. split; [reflexivity|].
       split; [done|]. apply Hev. }
  destruct (h5.getattr o "dt") as [dt|e] eqn:Hdt.
  2: { apply getattr_raises in Hdt as ->. eexists. split; [reflexivity|].
       split; [done|]. apply Hev. }
  exfalso. unfold persisted_fields in Hname.
  repeat (apply elem_of_cons in Hname as [->|Hname]; [congruence|]).
  by apply elem_of_nil in Hname.
Qed.

(** X5: [load_uvlm_from_file] is only ever set.  [initialise] leaves it
    true if it was, and otherwise sets it exactly when ['uvlm_filename'] is
    not the empty string; [assemble] and [update] do not change it.  So the
    flag of an object that was initialised with a file name stays set when
    the object is initialised again without one. *)
Theorem load_flag_is_never_cleared :
  (forall data w w',
     initialise data w = (Ok tt, w') ->
     exists filename,
       subscript (settings (self w')) "uvlm_filename" = Ok filename
       /\ load_uvlm_from_file (self w')
          = load_uvlm_from_file (self w) || negb (eq_str filename ""))
  /\ (forall w w',
        assemble w = (Ok tt, w') ->
        load_uvlm_from_file (self w') = load_uvlm_from_file (self w))
  /\ (forall u_infty w r w',
        update u_infty w = (Ok r, w') ->
        load_uvlm_from_file (self w') = load_uvlm_from_file (self w)).
Proof.
  split; [|split].
  - intros data w w' Hrun. apply (wp_initialise data) in Hrun.
    destruct Hrun as (own & converted & lin & uvlm_settings & u0 & filename & u1
                      & beam_settings & b0 & _ & _ & _ & _ & _ & _ & _ & Hname
                      & Hload & _).
    exists filename. split; [done|].
    destruct (eq_str filename ""); destruct Hload as [_ ->]; simpl.
    + by rewrite orb_false_r.
    + by rewrite orb_true_r.
  - intros w w' Hrun. apply assemble_spec in Hrun. open_assembled Hrun.
    by destruct Hconf' as [_ ?].
  - intros u_infty w r w' Hrun. apply (wp_update u_infty w) in Hrun.
    destruct Hrun as (? & ? & ? & ? & ? & ? & ? & H).
    unfold same_configuration in H. tauto.
Qed.

(** X3: after a successful [assemble] the object has what [update] reads
    from it: the beam, the aerodynamic state space and the two coupling
    matrices.  What [update] then does is decided in this order: without a
    ['length'] scaling factor, which [assemble] does not always read, it
    raises [KeyError], and for a velocity equal to zero
    [ZeroDivisionError], both with the object unchanged; otherwise it fails
    only where the realization of the beam or [libss.couple] fails, and
    else returns the system that [libss.couple] gives for the stored
    ['Tas'] and ['Tsa']. *)
Theorem update_after_assemble w w' u_infty :
  assemble w = (Ok tt, w') ->
  exists uv b us Tas Tsa,
    uvlm (self w') = Some uv
    /\ linearuvlm.ss uv = Some us
    /\ beam (self w') = Some b
    /\ couplings (self w') !! "Tas" = Some Tas
    /\ couplings (self w') !! "Tsa" = Some Tsa
    /\ match linearuvlm.ScalingFacts (linearuvlm.sys uv) !! "length" with
       | None => update u_infty w' = (Raise KeyError, w')
       | Some length =>
           if (u_infty =? 0)%float
           then update u_infty w' = (Raise ZeroDivisionError, w')
           else
             match linearbeam.realization (linearbeam.sys b)
                     (linearbeam.Kstr (linearbeam.sys b))
                     (linearbeam.Cstr (linearbeam.sys b))
                     (length / u_infty)%float with
             | Raise e => exists w'', update u_infty w' = (Raise e, w'')
             | Ok d =>
                 match couple us d Tas Tsa with
                 | Raise e => exists w'', update u_infty w' = (Raise e, w'')
                 | Ok r => exists w'', update u_infty w' = (Ok r, w'')
                 end
             end
       end.
Proof.
  intros Hrun.
  apply assemble_spec in Hrun. open_assembled Hrun.
  destruct Hproj as (uv1 & u5 & _ & Huv1 & _ & Huv2 & _).
  rewrite Huv2 in Hus. simpl in Hus. injection Hus as ->.
  rewrite Huv2 in Huvlm'.
  assert (HTas : couplings (self w') !! "Tas" = Some Tas)
    by (rewrite Hcouplings'; by simplify_map_eq).
  assert (HTsa : couplings (self w') !! "Tsa" = Some Tsa)
    by (rewrite Hcouplings'; by simplify_map_eq).
  exists (linearuvlm.set_ss (Some us) uv1), b1, us, Tas, Tsa.
  do 5 (split; [done|]).
  unfold update, ScalingFacts, beam_sys, set_beam_sys, self_uvlm, self_beam,
    call, bind, read, lift, emit, modify, ret, lookup_key, truediv,
    linearbeam.FlexDynamic_assemble.
  simpl.
  repeat (first [ rewrite Huvlm' | rewrite Hbeam' ]; simpl).
  destruct (linearuvlm.ScalingFacts (linearuvlm.sys uv1) !! "length")
    as [length|]; simpl; [|done].
  destruct (u_infty =? 0)%float; simpl; [done|].
  repeat (first [ rewrite Huvlm' | rewrite Hbeam' | rewrite HTas | rewrite HTsa ];
          simpl).
  destruct (linearbeam.realization _ _ _ _) as [d|e]; simpl.
  - repeat (first [ rewrite Huvlm' | rewrite Hbeam' | rewrite HTas
                  | rewrite HTsa ]; simpl).
    destruct (couple us d Tas Tsa) as [r|e]; simpl; eauto.
  - eauto.
Qed.

End failures.


(** ** The blocks of the gains *)

Section gains.

Context {collaborators : Collaborators}.

Import np.

Lemma projection_gains_blocks lin num_dof uvlm_inputs Ksa Kas :
  projection_gains lin num_dof uvlm_inputs = Ok (Ksa, Kas) ->
  0 <= num_dof ->
  let grid := 2 * Z.of_nat (shape0 (lin_aeroelastic.Kdisp lin)) in
  grid <= uvlm_inputs
  /\ shape0 Kas = Z.to_nat uvlm_inputs
  /\ shape1 Kas = Z.to_nat (2 * num_dof + (uvlm_inputs - grid))
  /\ exists blocks,
       block
         (getitem (lin_aeroelastic.Kdisp lin) all (upto num_dof))
         (getitem (lin_aeroelastic.Kdisp_vel lin) all (upto num_dof))
         (getitem (lin_aeroelastic.Kvel_disp lin) all (upto num_dof))
         (getitem (lin_aeroelastic.Kvel_vel lin) all (upto num_dof)) = Ok blocks
       /\ forall i j, (i < shape0 Kas)%nat -> (j < shape1 Kas)%nat ->
            (Z.of_nat i < grid -> Z.of_nat j < 2 * num_dof ->
             item Kas i j = broadcast_item blocks i j)
            /\ (grid <= Z.of_nat i -> 2 * num_dof <= Z.of_nat j ->
                item Kas i j
                = if Z.of_nat i - grid =? Z.of_nat j - 2 * num_dof
                  then 1%float else 0%float)
            /\ (grid <= Z.of_nat i -> Z.of_nat j < 2 * num_dof ->
                item Kas i j = 0%float)
            /\ (Z.of_nat i < grid -> 2 * num_dof <= Z.of_nat j ->
                item Kas i j = 0%float).
Proof.
  intros Hrun Hdof grid. unfold projection_gains in Hrun. fold grid in Hrun.
  destruct (zeros _ _) as [Kas0|] eqn:H0; simpl in Hrun; [|done].
  destruct (block _ _ _ _) as [blocks|] eqn:Hb; simpl in Hrun; [|done].
  destruct (setitem Kas0 _ _ blocks) as [Kas1|] eqn:H1; simpl in Hrun; [|done].
  destruct (eye _ _) as [retained|] eqn:He; simpl in Hrun; [|done].
  destruct (setitem Kas1 _ _ retained) as [Kas2|] eqn:H2; simpl in Hrun; [|done].
  injection Hrun as _ <-.
  apply zeros_Ok in H0 as (Hr & Hc & Hs0 & Hs1 & Hz).
  apply setitem_Ok in H1 as (Hs0' & Hs1' & H1).
  apply setitem_Ok in H2 as (Hs0'' & Hs1'' & H2).
  apply np_properties.eye_Ok in He as (Hm & _ & He0 & He1 & He).
  assert (Hgrid : 0 <= grid) by (unfold grid; lia).
  split; [lia|]. split; [congruence|]. split; [congruence|].
  exists blocks. split; [done|].
  intros i j Hi Hj.
  rewrite Hs0'', Hs0' in Hi. rewrite Hs1'', Hs1' in Hj.
  pose proof Hi as Hi'. pose proof Hj as Hj'. rewrite Hs0 in Hi'. rewrite Hs1 in Hj'.
  rewrite H2 by congruence. rewrite Hs0', Hs1'.
  rewrite selects_from_nonneg by (done || lia).
  rewrite selects_from_nonneg by (done || lia).
  split; [|split; [|split]].
  - intros Hgi Hdj.
    destruct (Z.leb_spec grid (Z.of_nat i)); [lia|]. simpl.
    rewrite H1 by done.
    rewrite !selects_upto_nonneg by (done || lia).
    destruct (Z.ltb_spec (Z.of_nat i) grid); [|lia].
    destruct (Z.ltb_spec (Z.of_nat j) (2 * num_dof)); [|lia]. simpl.
    by rewrite !Nat.sub_0_r.
  - intros Hgi Hdj.
    destruct (Z.leb_spec grid (Z.of_nat i)); [|lia].
    destruct (Z.leb_spec (2 * num_dof) (Z.of_nat j)); [|lia]. simpl.
    rewrite (lower_from_selected _ _ i) by (done || lia).
    rewrite (lower_from_selected _ _ j) by (done || lia).
    unfold broadcast_item. rewrite He0, He1.
    assert (Hi2 : (i - Z.to_nat grid < Z.to_nat (uvlm_inputs - grid))%nat) by lia.
    assert (Hj2 : (j - Z.to_nat (2 * num_dof) < Z.to_nat (uvlm_inputs - grid))%nat)
      by lia.
    destruct (Nat.eqb_spec (Z.to_nat (uvlm_inputs - grid)) 1) as [Hone|Hone].
    + replace (i - Z.to_nat grid)%nat with 0%nat in * by lia.
      replace (j - Z.to_nat (2 * num_dof))%nat with 0%nat in * by lia.
      rewrite He by lia. simpl.
      by destruct (Z.eqb_spec (Z.of_nat i - grid) (Z.of_nat j - 2 * num_dof)); [|lia].
    + rewrite He by lia.
      destruct (Nat.eqb_spec (i - Z.to_nat grid) (j - Z.to_nat (2 * num_dof)));
        destruct (Z.eqb_spec (Z.of_nat i - grid) (Z.of_nat j - 2 * num_dof));
        done || lia.
  - intros Hgi Hdj.
    destruct (Z.leb_spec (2 * num_dof) (Z.of_nat j)); [lia|].
    rewrite andb_false_r. rewrite H1 by done.
    rewrite selects_upto_nonneg by (done || lia).
    destruct (Z.ltb_spec (Z.of_nat i) grid); [lia|]. simpl. apply Hz.
  - intros Hgi Hdj.
    destruct (Z.leb_spec grid (Z.of_nat i)); [lia|]. simpl.
    rewrite H1 by done.
    rewrite (selects_upto_nonneg _ (2 * num_dof)) by (done || lia).
    destruct (Z.ltb_spec (Z.of_nat j) (2 * num_dof)); [lia|].
    rewrite andb_false_r. apply Hz.
Qed.


Lemma aero_terms_blocks flex_nodes lin Kstr Cstr terms :
  aero_stiffening_damping flex_nodes lin Kstr Cstr = Ok terms ->
  0 <= flex_nodes < Z.of_nat (shape0 Kstr) ->
  (forall i j, (i < shape0 Kstr)%nat -> (j < shape1 Kstr)%nat ->
     item (stiff_aero terms) i j
     = if Z.of_nat j <? flex_nodes then
         if Z.of_nat i <? flex_nodes
         then broadcast_item (lin_aeroelastic.Kss lin) i j
         else broadcast_item (lin_aeroelastic.Krs lin) (i - Z.to_nat flex_nodes) j
       else 0%float)
  /\ (forall i j, (i < shape0 Cstr)%nat -> (j < shape1 Cstr)%nat ->
        item (damping_aero terms) i j
        = if Z.of_nat i <? flex_nodes then
            if Z.of_nat j <? flex_nodes then 0%float
            else broadcast_item (lin_aeroelastic.Csr lin) i (j - Z.to_nat flex_nodes)
          else
            if Z.of_nat j <? flex_nodes
            then broadcast_item (lin_aeroelastic.Crs lin) (i - Z.to_nat flex_nodes) j
            else broadcast_item (lin_aeroelastic.Crr lin)
                   (i - Z.to_nat flex_nodes) (j - Z.to_nat flex_nodes)).
Proof.
  intros Hrun [Hflex Hrigid]. unfold aero_stiffening_damping in Hrun.
  destruct (setitem (zeros_like Kstr) _ _ (lin_aeroelastic.Kss lin)) as [S1|] eqn:HS1;
    simpl in Hrun; [|done].
  destruct (Z.ltb_spec 0 (Z.of_nat (shape0 Kstr) - flex_nodes)); [|lia].
  destruct (setitem S1 _ _ (lin_aeroelastic.Krs lin)) as [S2|] eqn:HS2;
    simpl in Hrun; [|done].
  destruct (setitem (zeros_like Cstr) _ _ (lin_aeroelastic.Csr lin)) as [D1|] eqn:HD1;
    simpl in Hrun; [|done].
  destruct (setitem D1 _ _ (lin_aeroelastic.Crr lin)) as [D2|] eqn:HD2;
    simpl in Hrun; [|done].
  destruct (setitem D2 _ _ (lin_aeroelastic.Crs lin)) as [D3|] eqn:HD3;
    simpl in Hrun; [|done].
  injection Hrun as <-. simpl.
  apply setitem_Ok in HS1 as (HS1r & HS1c & HS1).
  apply setitem_Ok in HS2 as (HS2r & HS2c & HS2).
  apply setitem_Ok in HD1 as (HD1r & HD1c & HD1).
  apply setitem_Ok in HD2 as (HD2r & HD2c & HD2).
  apply setitem_Ok in HD3 as (HD3r & HD3c & HD3).
  simpl in *.
  split.
  - intros i j Hi Hj.
    rewrite HS2 by congruence. rewrite HS1r, HS1c.
    rewrite selects_from_nonneg, selects_upto_nonneg by (done || lia).
    rewrite HS1 by done.
    rewrite !selects_upto_nonneg by (done || lia).
    destruct (Z.ltb_spec (Z.of_nat j) flex_nodes); simpl.
    + destruct (Z.leb_spec flex_nodes (Z.of_nat i));
        destruct (Z.ltb_spec (Z.of_nat i) flex_nodes); try lia; simpl.
      * rewrite (lower_from_selected _ _ i) by (done || lia).
        by rewrite Nat.sub_0_r.
      * by rewrite !Nat.sub_0_r.
    + rewrite !andb_false_r. apply item_zeros_like.
  - intros i j Hi Hj.
    rewrite HD3 by congruence. rewrite HD2r, HD2c, HD1r, HD1c.
    rewrite selects_from_nonneg, selects_upto_nonneg by (done || lia).
    rewrite HD2 by congruence. rewrite HD1r, HD1c.
    rewrite !selects_from_nonneg by (done || lia).
    rewrite HD1 by done.
    rewrite selects_from_nonneg, selects_upto_nonneg by (done || lia).
    destruct (Z.ltb_spec (Z.of_nat i) flex_nodes);
      destruct (Z.leb_spec flex_nodes (Z.of_nat i)); try lia;
      destruct (Z.ltb_spec (Z.of_nat j) flex_nodes);
      destruct (Z.leb_spec flex_nodes (Z.of_nat j)); try lia; simpl.
    + apply item_zeros_like.
    + rewrite (lower_from_selected _ _ j) by (done || lia).
      by rewrite Nat.sub_0_r.
    + rewrite (lower_from_selected _ _ i) by (done || lia).
      by rewrite Nat.sub_0_r.
    + rewrite (lower_from_selected _ _ i) by (done || lia).
      by rewrite (lower_from_selected _ _ j) by (done || lia).
Qed.


Lemma aero_terms_shapes flex_nodes lin Kstr Cstr terms :
  aero_stiffening_damping flex_nodes lin Kstr Cstr = Ok terms ->
  shape0 (stiff_aero terms) = shape0 Kstr
  /\ shape1 (stiff_aero terms) = shape1 Kstr
  /\ shape0 (damping_aero terms) = shape0 Cstr
  /\ shape1 (damping_aero terms) = shape1 Cstr.
Proof.
  intros Hrun. unfold aero_stiffening_damping in Hrun.
  destruct (setitem (zeros_like Kstr) _ _ (lin_aeroelastic.Kss lin)) as [S1|] eqn:HS1;
    simpl in Hrun; [|done].
  apply setitem_Ok in HS1 as (HS1r & HS1c & _).
  destruct (0 <? Z.of_nat (shape0 Kstr) - flex_nodes).
  - destruct (setitem S1 _ _ (lin_aeroelastic.Krs lin)) as [S2|] eqn:HS2;
      simpl in Hrun; [|done].
    destruct (setitem (zeros_like Cstr) _ _ (lin_aeroelastic.Csr lin))
      as [D1|] eqn:HD1; simpl in Hrun; [|done].
    destruct (setitem D1 _ _ (lin_aeroelastic.Crr lin)) as [D2|] eqn:HD2;
      simpl in Hrun; [|done].
    destruct (setitem D2 _ _ (lin_aeroelastic.Crs lin)) as [D3|] eqn:HD3;
      simpl in Hrun; [|done].
    injection Hrun as <-. simpl.
    apply setitem_Ok in HS2 as (HS2r & HS2c & _).
    apply setitem_Ok in HD1 as (HD1r & HD1c & _).
    apply setitem_Ok in HD2 as (HD2r & HD2c & _).
    apply setitem_Ok in HD3 as (HD3r & HD3c & _).
    simpl in *. repeat split; congruence.
  - injection Hrun as <-. simpl in *. by repeat split.
Qed.

(** X6: when the beam stiffness matrix has more rows than [num_dof_flex],
    the stiffness matrix that [assemble] hands to [beam.assemble], and that
    the beam of the object is assembled from, is the one of the beam plus
    the block matrix [[Kss, 0], [Krs, 0]], and the damping matrix is the one
    of the beam plus [[0, Csr], [Crs, Crr]], entry by entry and split at
    [num_dof_flex]: the rigid-body columns of the stiffness and the
    flexible block of the damping receive zero. *)
Theorem rigid_body_blocks w w' lin_in beam_in :
  assemble w = (Ok tt, w') ->
  sys (self w) = Some lin_in ->
  beam (self w) = Some beam_in ->
  let flex_nodes := lin_aeroelastic.num_dof_flex lin_in in
  let Kstr0 := linearbeam.Kstr (linearbeam.sys beam_in) in
  let Cstr0 := linearbeam.Cstr (linearbeam.sys beam_in) in
  0 <= flex_nodes < Z.of_nat (shape0 Kstr0) ->
  exists lin terms Cstr Kstr time b1,
    get_gebm2uvlm_gains lin_in = Ok lin
    /\ aero_stiffening_damping flex_nodes lin Kstr0 Cstr0 = Ok terms
    /\ iadd Cstr0 (damping_aero terms) = Ok Cstr
    /\ iadd Kstr0 (stiff_aero terms) = Ok Kstr
    /\ (forall i j, (i < shape0 Kstr0)%nat -> (j < shape1 Kstr0)%nat ->
          item (stiff_aero terms) i j
          = if Z.of_nat j <? flex_nodes then
              if Z.of_nat i <? flex_nodes
              then broadcast_item (lin_aeroelastic.Kss lin) i j
              else broadcast_item (lin_aeroelastic.Krs lin)
                     (i - Z.to_nat flex_nodes) j
            else 0%float)
    /\ (forall i j, (i < shape0 Cstr0)%nat -> (j < shape1 Cstr0)%nat ->
          item (damping_aero terms) i j
          = if Z.of_nat i <? flex_nodes then
              if Z.of_nat j <? flex_nodes then 0%float
              else broadcast_item (lin_aeroelastic.Csr lin)
                     i (j - Z.to_nat flex_nodes)
            else
              if Z.of_nat j <? flex_nodes
              then broadcast_item (lin_aeroelastic.Crs lin)
                     (i - Z.to_nat flex_nodes) j
              else broadcast_item (lin_aeroelastic.Crr lin)
                     (i - Z.to_nat flex_nodes) (j - Z.to_nat flex_nodes))
    /\ linearbeam.assemble time
         (linearbeam.set_sys
            (linearbeam.set_Kstr Kstr
               (linearbeam.set_Cstr Cstr (linearbeam.sys beam_in))) beam_in) = Ok b1
    /\ beam (self w') = Some b1
    /\ shape0 Kstr = shape0 Kstr0 /\ shape1 Kstr = shape1 Kstr0
    /\ shape0 Cstr = shape0 Cstr0 /\ shape1 Cstr = shape1 Cstr0
    /\ (forall i j, (i < shape0 Kstr0)%nat -> (j < shape1 Kstr0)%nat ->
          item Kstr i j = (item Kstr0 i j + item (stiff_aero terms) i j)%float)
    /\ (forall i j, (i < shape0 Cstr0)%nat -> (j < shape1 Cstr0)%nat ->
          item Cstr i j = (item Cstr0 i j + item (damping_aero terms) i j)%float).
Proof.
  intros Hrun Hlin0 Hb0 flex_nodes Kstr0 Cstr0 Hflex.
  subst flex_nodes Kstr0 Cstr0.
  apply assemble_spec in Hrun. open_assembled Hrun. simplify_eq.
  destruct (aero_terms_blocks _ _ _ _ _ Hterms Hflex) as [Hstiff Hdamp].
  destruct (aero_terms_shapes _ _ _ _ _ Hterms) as (Hs0 & Hs1 & Hd0 & Hd1).
  pose proof (iadd_Ok _ _ _ HKstr) as (HK0 & HK1 & HK).
  pose proof (iadd_Ok _ _ _ HCstr) as (HC0 & HC1 & HC).
  exists lin, terms, Cstr', Kstr', time, b1.
  do 8 (split; [done|]). do 4 (split; [done|]).
  split.
  - intros i j Hi Hj. rewrite HK by done.
    by rewrite broadcast_item_same by congruence.
  - intros i j Hi Hj. rewrite HC by done.
    by rewrite broadcast_item_same by congruence.
Qed.

(** X7: on the path that does not load from file, ['Kas'] has one row per
    input of the aerodynamic system, as it is before the gains are added,
    and [2 * num_dof] columns plus one per input beyond the grid.  Its top
    left corner is the block matrix of the four displacement and velocity
    gains, its bottom right corner the identity, and the two other corners
    are zero: the inputs beyond the grid pass through unchanged. *)
Theorem retained_inputs w w' uvlm_in aero_ss beam_out :
  assemble w = (Ok tt, w') ->
  load_uvlm_from_file (self w) = false ->
  uvlm (self w) = Some uvlm_in ->
  linearuvlm.ss uvlm_in = Some aero_ss ->
  beam (self w') = Some beam_out ->
  let dofs := 2 * linearbeam.num_dof (linearbeam.sys beam_out) in
  0 <= dofs ->
  exists lin Kas blocks,
    sys (self w') = Some lin
    /\ couplings (self w') !! "Kas" = Some Kas
    /\ block
         (getitem (lin_aeroelastic.Kdisp lin) all
            (upto (linearbeam.num_dof (linearbeam.sys beam_out))))
         (getitem (lin_aeroelastic.Kdisp_vel lin) all
            (upto (linearbeam.num_dof (linearbeam.sys beam_out))))
         (getitem (lin_aeroelastic.Kvel_disp lin) all
            (upto (linearbeam.num_dof (linearbeam.sys beam_out))))
         (getitem (lin_aeroelastic.Kvel_vel lin) all
            (upto (linearbeam.num_dof (linearbeam.sys beam_out)))) = Ok blocks
    /\ let grid := 2 * Z.of_nat (shape0 (lin_aeroelastic.Kdisp lin)) in
       grid <= libss.inputs aero_ss
       /\ Z.of_nat (shape0 Kas) = libss.inputs aero_ss
       /\ Z.of_nat (shape1 Kas) = dofs + (libss.inputs aero_ss - grid)
       /\ forall i j, (i < shape0 Kas)%nat -> (j < shape1 Kas)%nat ->
            (Z.of_nat i < grid -> Z.of_nat j < dofs ->
             item Kas i j = broadcast_item blocks i j)
            /\ (grid <= Z.of_nat i -> dofs <= Z.of_nat j ->
                item Kas i j
                = if Z.of_nat i - grid =? Z.of_nat j - dofs
                  then 1%float else 0%float)
            /\ (grid <= Z.of_nat i -> Z.of_nat j < dofs ->
                item Kas i j = 0%float)
            /\ (Z.of_nat i < grid -> dofs <= Z.of_nat j ->
                item Kas i j = 0%float).
Proof.
  intros Hrun Hload Huvlm_in Haero_ss Hbeam_out dofs Hdofs. subst dofs.
  apply assemble_spec in Hrun. open_assembled Hrun.
  rewrite Hbeam' in Hbeam_out. injection Hbeam_out as <-.
  destruct Hproj as (uv1 & u5 & evs & Huv1 & _ & _ & _ & _ & _ & _ & _ & Hpath).
  rewrite Hself1 in Hpath, Huv1. simpl in Hpath, Huv1. rewrite Hload in Hpath.
  rewrite Huvlm_in in Huv1. injection Huv1 as <-.
  destruct Hpath as (lin' & b & u0 & Ksa & Kas & u1 & u2 & modes & u4 & evs_modal
                     & evs_rom & Hlin' & Hb & Hu0 & Hgains' & _ & _ & Hc & _).
  injection Hlin' as <-. injection Hb as <-.
  rewrite Haero_ss in Hu0. injection Hu0 as <-.
  destruct (projection_gains_blocks _ _ _ _ _ Hgains')
    as (Hgrid & Hrows & Hcols & blocks & Hblocks & Hitems); [lia|].
  exists lin, Kas, blocks.
  split; [done|].
  split; [rewrite Hcouplings', Hc; by simplify_map_eq|].
  split; [done|].
  simpl. split; [lia|]. split; [lia|]. split; [lia|].
  intros i j Hi Hj. apply Hitems; done.
Qed.

End gains.

(** ** The theorems at the small case *)

Lemma update_at_zero_speed_witness :
  @update small_case.collaborators 0 (small_case.initialised small_case.clamped)
  = (Raise ZeroDivisionError, small_case.initialised small_case.clamped).
Proof.
  apply (@update_at_zero_speed small_case.collaborators 0%float
           (small_case.initialised small_case.clamped)
           (linearuvlm.set_ss (Some small_case.uvlm_system)
              (small_case.new_uvlm small_case.clamped))
           2%float).
  - by vm_compute.
  - by vm_compute.
  - by vm_compute.
Defined.

Lemma update_before_assemble_witness :
  exists w',
    @update small_case.collaborators 4 (small_case.initialised small_case.clamped)
    = (Raise KeyError, w')
    /\ ss (self w') = ss (self (small_case.initialised small_case.clamped)).
Proof.
  pose (b := small_case.new_beam small_case.clamped
               (small_case.beam_block false "nodes")).
  destruct (linearbeam.realization (linearbeam.sys b)
              (linearbeam.Kstr (linearbeam.sys b))
              (linearbeam.Cstr (linearbeam.sys b)) (2 / 4)%float)
    as [d|e] eqn:Hd; [|vm_compute in Hd; discriminate Hd].
  destruct (@update_before_assemble small_case.collaborators 4%float
              (small_case.initialised small_case.clamped)
              (linearuvlm.set_ss (Some small_case.uvlm_system)
                 (small_case.new_uvlm small_case.clamped))
              b 2%float d)
    as (w' & Hrun & _ & _ & Hss & _).
  { by vm_compute. }
  { by vm_compute. }
  { by vm_compute. }
  { by vm_compute. }
  { exact Hd. }
  { by vm_compute. }
  exists w'. exact (conj Hrun Hss).
Defined.

Lemma update_after_assemble_witness :
  exists b us Tas Tsa,
    beam (self (small_case.assembled small_case.clamped)) = Some b
    /\ uvlm (self (small_case.assembled small_case.clamped)) ≫= linearuvlm.ss
       = Some us
    /\ couplings (self (small_case.assembled small_case.clamped)) !! "Tas" = Some Tas
    /\ couplings (self (small_case.assembled small_case.clamped)) !! "Tsa" = Some Tsa.
Proof.
  destruct (@update_after_assemble small_case.collaborators
              (small_case.initialised small_case.clamped)
              (small_case.assembled small_case.clamped)
              4%float)
    as (uv & b & us & Tas & Tsa & Huv & Hus & Hb & HTas & HTsa & _).
  { by vm_compute. }
  exists b, us, Tas, Tsa.
  refine (conj Hb (conj _ (conj HTas HTsa))).
  rewrite Huv. exact Hus.
Defined.

Lemma load_uvlm_missing_field_witness :
  exists w',
    @load_uvlm (small_case.variant small_case.uvlm_system small_case.truncated)
      (PyStr small_case.persisted_name) small_case.fresh
    = (Raise AttributeError, w')
    /\ self w' = self small_case.fresh.
Proof.
  destruct (persisted_ss small_case.truncated) as [o|e] eqn:Ho;
    [|vm_compute in Ho; discriminate Ho].
  destruct (@load_uvlm_missing_field
              (small_case.variant small_case.uvlm_system small_case.truncated)
              (PyStr small_case.persisted_name) small_case.fresh
              small_case.truncated o "D")
    as (w' & Hrun & Hself & _).
  { reflexivity. }
  { exact Ho. }
  { unfold persisted_fields. repeat constructor. }
  { vm_compute in Ho. injection Ho as <-. by vm_compute. }
  exists w'. exact (conj Hrun Hself).
Defined.

Lemma rigid_body_blocks_witness :
  exists lin terms,
    @get_gebm2uvlm_gains small_case.collaborators
      (small_case.gains small_case.free_flying) = Ok lin
    /\ aero_stiffening_damping 2 lin
         (linearbeam.Kstr (linearbeam.sys
            (small_case.new_beam small_case.free_flying
               (small_case.beam_block false "nodes"))))
         (linearbeam.Cstr (linearbeam.sys
            (small_case.new_beam small_case.free_flying
               (small_case.beam_block false "nodes")))) = Ok terms
    /\ np.item (stiff_aero terms) 2 2 = 0%float.
Proof.
  destruct (@rigid_body_blocks small_case.collaborators
              (small_case.initialised small_case.free_flying)
              (small_case.assembled small_case.free_flying)
              (small_case.gains small_case.free_flying)
              (small_case.new_beam small_case.free_flying
                 (small_case.beam_block false "nodes")))
    as (lin & terms & Cstr & Kstr & time & b1 & Hlin & Hterms & _ & _ & Hstiff & _).
  { by vm_compute. }
  { by vm_compute. }
  { by vm_compute. }
  { vm_compute. split; [intros H; discriminate H | reflexivity]. }
  exists lin, terms. split; [exact Hlin|]. split; [exact Hterms|].
  apply (Hstiff 2%nat 2%nat); vm_compute; lia.
Defined.

Lemma retained_inputs_witness :
  exists Kas,
    couplings
      (self (snd (@assemble small_case.gusty
                    (snd (@initialise small_case.gusty small_case.clamped
                            small_case.fresh))))) !! "Kas" = Some Kas
    /\ np.item Kas 4 4 = 1%float.
Proof.
  pose (w := snd (@initialise small_case.gusty small_case.clamped small_case.fresh)).
  pose (w' := snd (@assemble small_case.gusty w)).
  destruct (uvlm (self w)) as [u|] eqn:Hu; [|vm_compute in Hu; discriminate Hu].
  destruct (linearuvlm.ss u) as [s|] eqn:Hs;
    [|vm_compute in Hu; injection Hu as <-; vm_compute in Hs; discriminate Hs].
  destruct (beam (self w')) as [b|] eqn:Hb; [|vm_compute in Hb; discriminate Hb].
  destruct (@retained_inputs small_case.gusty w w' u s b)
    as (lin & Kas & blocks & Hlin & HKas & _ & _ & _ & _ & Hitems).
  { by vm_compute. }
  { by vm_compute. }
  { exact Hu. }
  { exact Hs. }
  { exact Hb. }
  { vm_compute in Hb. injection Hb as <-. vm_compute. intros H; discriminate H. }
  exists Kas. split; [exact HKas|].
  vm_compute in Hlin. injection Hlin as <-.
  vm_compute in Hb. injection Hb as <-.
  vm_compute in HKas. injection HKas as <-.
  reflexivity.
Defined.

End LinearAeroelastic_edges.

(** * The structural mesh of the T-tail *)

Module Ttail_fem_properties.
Import Ttail Ttail_meshes.

(** ** Index arithmetic *)

Lemma range_of_nat n : range (Z.of_nat n) = map Z.of_nat (seq 0 n).
Proof. unfold range. by rewrite Nat2Z.id. Qed.

Lemma range_negative n : n <= 0 -> range n = [].
Proof. intros H. unfold range. by replace (Z.to_nat n) with 0%nat by lia. Qed.

Lemma length_range n : length (range n) = Z.to_nat n.
Proof. unfold range. by rewrite length_map, length_seq. Qed.

Lemma range_S n : range (Z.of_nat (S n)) = 0 :: map Z.succ (range (Z.of_nat n)).
Proof.
  rewrite !range_of_nat. simpl. f_equal.
  rewrite <- seq_shift, !map_map. apply map_ext. intros k. lia.
Qed.

Lemma range_app a b :
  range (Z.of_nat (a + b))
  = range (Z.of_nat a) ++ map (fun k => Z.of_nat a + k) (range (Z.of_nat b)).
Proof.
  rewrite !range_of_nat, seq_app, map_app. f_equal. simpl.
  replace a with (a + 0)%nat at 1 by lia.
  rewrite <- (fmap_add_seq a 0 b).
  change (Nat.add a <$> seq 0 b) with (map (Nat.add a) (seq 0 b)).
  rewrite !map_map. apply map_ext. intros k. lia.
Qed.

Lemma elem_of_range n i : i ∈ range n <-> 0 <= i < n.
Proof.
  unfold range. rewrite list_elem_of_fmap. split.
  - intros (k & -> & Hk). apply elem_of_seq in Hk. lia.
  - intros H. exists (Z.to_nat i). split; [lia|]. apply elem_of_seq. lia.
Qed.

Lemma index_valid d i :
  0 <= i < Z.of_nat d -> index d i = Ok (Z.to_nat i).
Proof.
  intros H. unfold index.
  destruct (Z.leb_spec 0 i); [|lia]. by destruct (Z.ltb_spec i (Z.of_nat d)); [|lia].
Qed.

Lemma index_from_end d i :
  - Z.of_nat d <= i < 0 -> index d i = Ok (Z.to_nat (i + Z.of_nat d)).
Proof.
  intros H. unfold index.
  destruct (Z.leb_spec 0 i); [lia|]. simpl.
  destruct (Z.ltb_spec i 0); [|lia]. by destruct (Z.leb_spec (- Z.of_nat d) i); [|lia].
Qed.

Lemma index_outside d i :
  Z.of_nat d <= i \/ i < - Z.of_nat d -> index d i = Raise IndexError.
Proof.
  intros H. unfold index.
  destruct (Z.leb_spec 0 i); destruct (Z.ltb_spec i (Z.of_nat d));
    destruct (Z.ltb_spec i 0); destruct (Z.leb_spec (- Z.of_nat d) i);
    simpl; done || lia.
Qed.

Lemma index_Ok d i k : index d i = Ok k -> (k < d)%nat.
Proof.
  unfold index.
  destruct (Z.leb_spec 0 i); destruct (Z.ltb_spec i (Z.of_nat d));
    destruct (Z.ltb_spec i 0); destruct (Z.leb_spec (- Z.of_nat d) i);
    simpl; intros; simplify_eq; lia.
Qed.

(** ** Vectors *)

Section vectors.

Context {A : Type}.
Implicit Types a vs : list A.

Lemma full_Ok n (x : A) : 0 <= n -> full n x = Ok (replicate (Z.to_nat n) x).
Proof. intros H. unfold full. by destruct (Z.ltb_spec n 0); [lia|]. Qed.

Lemma length_fill a s (x : A) : length (fill a s x) = length a.
Proof. unfold fill. by rewrite length_imap. Qed.

Lemma lookup_fill a s (x : A) i :
  fill a s x !! i
  = (fun y => if np.selects (length a) s i then x else y) <$> a !! i.
Proof. unfold fill. by rewrite list_lookup_imap. Qed.

Lemma get_valid a i :
  0 <= i < Z.of_nat (length a) ->
  exists x, get a i = Ok x /\ a !! Z.to_nat i = Some x.
Proof.
  intros H. unfold get. rewrite index_valid by done. simpl.
  destruct (lookup_lt_is_Some_2 a (Z.to_nat i)) as [x Hx]; [lia|].
  exists x. by rewrite Hx.
Qed.

Lemma set_valid a i (x : A) :
  0 <= i < Z.of_nat (length a) -> set a i x = Ok (<[Z.to_nat i := x]> a).
Proof. intros H. unfold set. by rewrite index_valid. Qed.

Lemma set_Ok a i (x : A) a' :
  set a i x = Ok a' -> exists k, (k < length a)%nat /\ a' = <[k := x]> a.
Proof.
  unfold set. destruct (index (length a) i) as [k|] eqn:Hk; [|done].
  intros [= <-]. exists k. split; [by eapply index_Ok|done].
Qed.

Lemma put_at_valid idx : forall vs a,
  Forall (fun i => 0 <= i < Z.of_nat (length a)) idx ->
  exists a',
    put_at a idx vs = Ok a'
    /\ length a' = length a
    /\ forall n, Z.of_nat n ∉ idx -> a' !! n = a !! n.
Proof.
  induction idx as [|i idx IH]; intros vs a Hidx.
  - exists a. by destruct vs.
  - destruct vs as [|v vs]; [by exists a|].
    apply Forall_cons in Hidx as [Hi Hidx]. simpl.
    rewrite set_valid by exact Hi. simpl.
    destruct (IH vs (<[Z.to_nat i := v]> a)) as (a' & Hput & Hlen & Hother).
    { by rewrite length_insert. }
    exists a'. split; [done|]. rewrite Hlen, length_insert. split; [done|].
    intros n Hn. rewrite Hother by (intros Hin; apply Hn; by right).
    apply list_lookup_insert_ne. intros <-. apply Hn.
    rewrite Z2Nat.id by lia. left.
Qed.

Lemma setitems_valid a idx vs :
  length vs = length idx ->
  Forall (fun i => 0 <= i < Z.of_nat (length a)) idx ->
  exists a',
    setitems a idx vs = Ok a'
    /\ length a' = length a
    /\ forall n, Z.of_nat n ∉ idx -> a' !! n = a !! n.
Proof.
  intros Hlen Hidx. unfold setitems. rewrite Hlen, Nat.eqb_refl.
  by apply put_at_valid.
Qed.

Lemma take_at_valid a idx :
  Forall (fun i => 0 <= i < Z.of_nat (length a)) idx ->
  exists xs, take_at a idx = Ok xs /\ length xs = length idx.
Proof.
  induction idx as [|i idx IH]; intros Hidx; [by exists []|].
  apply Forall_cons in Hidx as [Hi Hidx]. simpl.
  destruct (get_valid a i Hi) as (x & -> & _). simpl.
  destruct (IH Hidx) as (xs & -> & Hlen). simpl.
  exists (x :: xs). split; [done|]. simpl. by rewrite Hlen.
Qed.

(** writing a run of values at the places [s, s + 1, ...] *)
Lemma put_at_run vs : forall s a,
  (s + length vs <= length a)%nat ->
  put_at a (map Z.of_nat (seq s (length vs))) vs
  = Ok (take s a ++ vs ++ drop (s + length vs) a).
Proof.
  induction vs as [|v vs IH]; intros s a Hlen; simpl.
  - by rewrite Nat.add_0_r, take_drop.
  - simpl in Hlen. rewrite set_valid by lia. simpl.
    rewrite Nat2Z.id, IH by (rewrite length_insert; lia).
    f_equal. rewrite (take_S_r _ _ v) by (apply list_lookup_insert_eq; lia).
    rewrite take_insert_ge by lia. rewrite drop_insert_lt by lia.
    rewrite <- app_assoc. simpl. by rewrite Nat.add_succ_r.
Qed.

End vectors.


(** ** The connectivity table *)

Lemma zeros_table_Ok r c :
  0 <= r -> 0 <= c ->
  zeros_table r c
  = Ok {| width := Z.to_nat c;
          rows := replicate (Z.to_nat r) (replicate (Z.to_nat c) 0) |}.
Proof.
  intros Hr Hc. unfold zeros_table.
  by destruct (Z.ltb_spec r 0), (Z.ltb_spec c 0); try lia.
Qed.

Lemma setrow_valid a i v :
  0 <= i < Z.of_nat (length (rows a)) -> length v = width a ->
  setrow a i v = Ok {| width := width a; rows := <[Z.to_nat i := v]> (rows a) |}.
Proof.
  intros Hi Hv. unfold setrow. rewrite index_valid by done. simpl.
  by rewrite Hv, Nat.eqb_refl.
Qed.

Lemma setentry_valid a i j x0 :
  0 <= i < Z.of_nat (length (rows a)) -> 0 <= j < Z.of_nat (width a) ->
  setentry a i j x0
  = Ok {| width := width a;
          rows := alter (fun row => <[Z.to_nat j := x0]> row) (Z.to_nat i) (rows a) |}.
Proof.
  intros Hi Hj. unfold setentry. by rewrite !index_valid.
Qed.


Lemma three_eq (a b c a' b' c' : Z) :
  a = a' -> b = b' -> c = c' -> [a; b; c] = [a'; b'; c'].
Proof. by intros -> -> ->. Qed.

Lemma run_nodes_eq h k h' k' :
  h + 2 * k = h' + 2 * k' -> run_nodes h k = run_nodes h' k'.
Proof.
  intros H. unfold run_nodes. apply three_eq; lia.
Qed.

Lemma add_elements_run n : forall s a h,
  width a = 3%nat ->
  (s + n <= length (rows a))%nat ->
  exists a',
    add_elements [0; 2; 1] (map (fun ee => Z.of_nat s + ee) (range (Z.of_nat n))) a h
    = Ok (a', h + 2 * Z.of_nat n)
    /\ width a' = 3%nat
    /\ length (rows a') = length (rows a)
    /\ forall e,
         rows a' !! e
         = if decide (s <= e < s + n)%nat
           then Some (run_nodes h (Z.of_nat e - Z.of_nat s))
           else rows a !! e.
Proof.
  induction n as [|n IH]; intros s a h Hw Hlen.
  - exists a. simpl. split; [do 2 f_equal; lia|]. split; [done|]. split; [done|].
    intros e. destruct (decide _); [lia|done].
  - rewrite range_S. simpl.
    rewrite setrow_valid by (done || lia). simpl.
    rewrite map_map.
    destruct (IH (S s)
                {| width := width a;
                   rows := <[Z.to_nat (Z.of_nat s + 0) :=
                              [h + 0; h + 2; h + 1]]> (rows a) |} (h + 2))
      as (a' & Hrun & Hw' & Hlen' & Hrows).
    { done. }
    { simpl. rewrite length_insert. lia. }
    exists a'. split.
    { erewrite map_ext; [rewrite Hrun; do 2 f_equal; lia|].
      intros k; simpl. lia. }
    split; [done|]. simpl in Hlen'. rewrite length_insert in Hlen'.
    split; [done|].
    intros e. rewrite Hrows. simpl.
    replace (Z.to_nat (Z.of_nat s + 0)) with s by lia.
    repeat case_decide; try lia.
    + apply (f_equal Some), run_nodes_eq. lia.
    + assert (e = s) as -> by lia.
      rewrite list_lookup_insert_eq by lia.
      apply (f_equal Some). unfold run_nodes. apply three_eq; lia.
    + apply list_lookup_insert_ne. lia.
Qed.


(** ** The mesh that [update_fem_prop] builds *)


Lemma parametrisation_panelled M Nv Nh self :
  parametrisation M Nv Nh = Ok self ->
  0 <= Nv -> 0 <= Nh ->
  panelled self (Z.to_nat (Nv / 2)) (Z.to_nat (Nh / 2 / 2)) (Z.to_nat (Nh / 2 / 2)).
Proof.
  unfold parametrisation, assert. intros H Hv Hh.
  destruct (negb (Nv mod 2 =? 1)); simpl in H; [|done].
  destruct (negb (Nh mod 4 =? 1)); simpl in H; [|done].
  injection H as <-. unfold panelled. simpl.
  assert (0 <= Nv / 2) by (apply Z.div_pos; lia).
  assert (0 <= Nh / 2 / 2) by (apply Z.div_pos; [apply Z.div_pos|]; lia).
  repeat split; lia.
Qed.


(** X8: the numbers that [__init__] derives from an accepted panelling.
    The fin keeps its [Nv] panels, the tail plane keeps [Nh - Nh % 4] of its
    [Nh] panels, two for each element, and the total number of nodes counts
    the node that the three beams share once. *)
Theorem panels_kept M Nv Nh self :
  parametrisation M Nv Nh = Ok self ->
  2 * num_elem_vtp self = Nv
  /\ 2 * (num_elem_htpL self + num_elem_htpR self) = Nh - Nh mod 4
  /\ num_nodes_tot self = Nv + (Nh - Nh mod 4) + 1
  /\ num_nodes_tot self
     = num_nodes_vtp self + num_nodes_htpL self + num_nodes_htpR self - 2.
Proof.
  unfold parametrisation, assert. intros H.
  destruct (Z.eqb_spec (Nv mod 2) 1) as [|Hv]; simpl in H; [done|].
  destruct (Z.eqb_spec (Nh mod 4) 1) as [|Hh]; simpl in H; [done|].
  injection H as <-. simpl.
  pose proof (Z.div_mod Nv 2 ltac:(lia)).
  pose proof (Z.mod_pos_bound Nv 2 ltac:(lia)).
  pose proof (Z.div_mod Nh 4 ltac:(lia)).
  rewrite (Z.div_div Nh 2 2) by lia. change (2 * 2) with 4.
  lia.
Qed.

Section mesh.

Context {library : Library}.


Lemma beam_numbers_spec self v l r :
  panelled self v l r -> (1 <= r)%nat ->
  exists bn,
    beam_numbers self = Ok bn
    /\ length bn = (v + l + r)%nat
    /\ forall e, (e < v + l + r)%nat ->
         bn !! e = Some (if (e <? v)%nat then 0
                         else if (e <? v + l)%nat then 1 else 2).
Proof.
  intros (_ & Hv & Hl & Hr & Htot & _) Hr1.
  unfold beam_numbers. rewrite Hv, Hl, Hr, Htot. cbv zeta.
  rewrite full_Ok by lia. cbn [rbind].
  eexists. split; [reflexivity|].
  rewrite !length_fill, length_replicate. split; [lia|].
  intros e He. rewrite !lookup_fill, !length_fill, length_replicate.
  rewrite lookup_replicate_2 by lia. simpl.
  rewrite Nat2Z.id. f_equal.
  unfold np.selects, np.lower, np.upper, np.clip; simpl.
  repeat match goal with
  | |- context [Z.ltb ?a ?b] => destruct (Z.ltb_spec a b)
  end; try lia;
  repeat match goal with
  | |- context [Nat.leb ?a ?b] => destruct (Nat.leb_spec a b)
  | |- context [Nat.ltb ?a ?b] => destruct (Nat.ltb_spec a b)
  end; simpl; try done; lia.
Qed.

Lemma connectivities_spec self v l r :
  panelled self v l r -> (1 <= l)%nat -> (1 <= r)%nat ->
  exists conn,
    connectivities self = Ok conn
    /\ loc conn = [0; 2; 1]
    /\ surf_vtp conn = range (Z.of_nat v)
    /\ surf_htpL conn = map (fun ee => Z.of_nat v + ee) (range (Z.of_nat l))
    /\ surf_htpR conn
       = map (fun ee => Z.of_nat v + Z.of_nat l + ee) (range (Z.of_nat r))
    /\ node_intersection conn = 2 * Z.of_nat v
    /\ node_free_htpL conn = 2 * Z.of_nat v + 1
    /\ node_free_htpR conn = 2 * Z.of_nat (v + l + r)
    /\ width (glob conn) = 3%nat
    /\ length (rows (glob conn)) = (v + l + r)%nat
    /\ forall e, (e < v + l + r)%nat ->
         rows (glob conn) !! e = Some (element_nodes v l e).
Proof.
  intros (Hnne & Hv & Hl & Hr & Htot & _) Hl1 Hr1.
  unfold connectivities. rewrite Hnne, Hv, Hl, Hr, Htot. cbv zeta.
  rewrite zeros_table_Ok by lia. cbn [rbind].
  set (t0 := {| width := Z.to_nat 3; rows := _ |}).
  assert (Hw0 : width t0 = 3%nat) by done.
  assert (Hlen0 : length (rows t0) = (v + l + r)%nat).
  { subst t0. simpl. rewrite length_replicate. lia. }
  assert (Hrows0 : forall e, (e < v + l + r)%nat -> rows t0 !! e = Some [0; 0; 0]).
  { intros e He. subst t0. simpl. apply lookup_replicate_2. lia. }
  clearbody t0.
  (* vtp *)
  destruct (add_elements_run v 0 t0 0) as (t1 & Hrun1 & Hw1 & Hlen1 & Hrows1);
    [done | lia |].
  erewrite (map_ext _ (fun ee => ee)) in Hrun1 by (intros; simpl; lia).
  rewrite map_id in Hrun1. rewrite Hrun1. cbn [rbind].
  (* htp left *)
  destruct (add_elements_run l v t1 (0 + 2 * Z.of_nat v + 1))
    as (t2 & Hrun2 & Hw2 & Hlen2 & Hrows2); [done | lia |].
  rewrite Hrun2. cbn [rbind].
  rewrite setentry_valid by lia. cbn [rbind].
  set (t3 := {| width := width t2; rows := _ |}).
  assert (Hw3 : width t3 = 3%nat) by done.
  assert (Hlen3 : length (rows t3) = (v + l + r)%nat).
  { subst t3. simpl. rewrite length_alter. lia. }
  (* htp right *)
  destruct (add_elements_run r (v + l) t3 (0 + 2 * Z.of_nat v + 1 + 2 * Z.of_nat l - 1))
    as (t4 & Hrun4 & Hw4 & Hlen4 & Hrows4); [done | lia |].
  erewrite (map_ext (fun ee => Z.of_nat v + Z.of_nat l + ee)
              (fun ee => Z.of_nat (v + l) + ee)) by (intros; lia).
  rewrite Hrun4. cbn [rbind].
  rewrite setentry_valid by lia. cbn [rbind].
  eexists. split; [reflexivity|]. simpl.
  do 4 (split; [done|]).
  split; [lia|]. split; [lia|]. split; [lia|].
  split; [done|]. split; [rewrite length_alter; lia|].
  intros e He. unfold element_nodes. cbv zeta.
  replace (Z.to_nat (Z.of_nat v + Z.of_nat l)) with (v + l)%nat by lia.
  change (Z.to_nat 0) with 0%nat.
  destruct (Nat.ltb_spec e v); destruct (Nat.ltb_spec e (v + l)); try lia;
    destruct (Nat.eqb_spec e (v + l - 1)); destruct (Nat.eqb_spec e (v + l));
    try lia; subst.
  - (* vtp, below the last element of the left beam *)
    rewrite list_lookup_alter_ne by lia. rewrite Hrows4.
    case_decide; [lia|]. subst t3; simpl.
    rewrite list_lookup_alter_ne by lia. rewrite Hrows2.
    case_decide; [lia|]. rewrite Hrows1. case_decide; [|lia].
    apply (f_equal Some), run_nodes_eq. lia.
  - (* the last element of the left beam *)
    rewrite list_lookup_alter_ne by lia. rewrite Hrows4.
    case_decide; [lia|]. subst t3; simpl.
    replace (Z.to_nat (Z.of_nat v + Z.of_nat l - 1)) with (v + l - 1)%nat by lia.
    rewrite list_lookup_alter_eq, Hrows2. case_decide; [|lia]. simpl.
    change (Pos.to_nat 1) with 1%nat. simpl.
    apply (f_equal Some), three_eq; lia.
  - (* the left beam *)
    rewrite list_lookup_alter_ne by lia. rewrite Hrows4.
    case_decide; [lia|]. subst t3; simpl.
    rewrite list_lookup_alter_ne by lia. rewrite Hrows2.
    case_decide; [|lia]. apply (f_equal Some), run_nodes_eq. lia.
  - (* the first element of the right beam *)
    rewrite list_lookup_alter_eq, Hrows4. case_decide; [|lia]. simpl.
    apply (f_equal Some), three_eq; lia.
  - (* the right beam *)
    rewrite list_lookup_alter_ne by lia. rewrite Hrows4.
    case_decide; [|lia]. apply (f_equal Some), run_nodes_eq. lia.
Qed.


Lemma Forall_range (P : Z -> Prop) n :
  (forall i, 0 <= i < n -> P i) -> Forall P (range n).
Proof. intros H. apply Forall_forall. intros i Hi. by apply H, elem_of_range. Qed.

Lemma nodal_coordinates_spec self g v l r :
  panelled self v l r -> (1 <= r)%nat ->
  linspace_sized ->
  let nodes := (2 * (v + l + r) + 1)%nat in
  exists xv yv zv line,
    nodal_coordinates self g (2 * Z.of_nat v) (2 * Z.of_nat (v + l + r))
    = Ok (xv, yv, zv)
    /\ linspace 0 (height_vtp g) (Z.of_nat (2 * v + 1)) = Ok line
    /\ length line = (2 * v + 1)%nat
    /\ length xv = nodes /\ length yv = nodes /\ length zv = nodes
    /\ (forall n, (n < nodes)%nat -> zv !! n = line !! Nat.min n (2 * v))
    /\ (forall n, (n < 2 * v)%nat -> yv !! n = Some 0%float).
Proof.
  intros (_ & _ & _ & _ & _ & Hnv & Hnl & Hnr & Hntot) Hr1 Hlin nodes.
  unfold nodal_coordinates. rewrite Hnv, Hnl, Hnr, Hntot. cbv zeta.
  fold nodes.
  rewrite !full_Ok by lia. cbn [rbind]. rewrite Nat2Z.id.
  pose (P := fun i : Z => 2 * Z.of_nat v <= i < Z.of_nat nodes).
  assert (Hvalid : forall (A : Type) (a : list A) idx,
            length a = nodes -> Forall P idx ->
            Forall (fun i => 0 <= i < Z.of_nat (length a)) idx).
  { intros A a idx Ha Hidx. eapply Forall_impl; [exact Hidx|].
    intros i [? ?]. rewrite Ha. lia. }
  assert (Hout : forall idx n, Forall P idx -> (n < 2 * v)%nat -> Z.of_nat n ∉ idx).
  { intros idx n Hidx Hn Hin.
    apply (proj1 (Forall_forall _ _) Hidx) in Hin. destruct Hin. lia. }
  (* vtp *)
  destruct (Hlin 0%float (height_vtp g) (Z.of_nat (2 * v + 1))) as (line & Hline & Hlen);
    [lia|].
  rewrite Nat2Z.id in Hlen. rewrite Hline. cbn [rbind].
  unfold setitems at 1. rewrite length_range, Nat2Z.id, Hlen, Nat.eqb_refl.
  rewrite range_of_nat.
  assert (Hput : put_at (replicate nodes 0%float)
                   (map Z.of_nat (seq 0 (2 * v + 1))) line
                 = Ok (line ++ drop (2 * v + 1) (replicate nodes 0%float))).
  { rewrite <- Hlen. rewrite (put_at_run line 0)
      by (rewrite length_replicate; lia). done. }
  rewrite Hput. cbn [rbind].
  set (zv1 := line ++ drop (2 * v + 1) (replicate nodes 0%float)).
  assert (Hzv1 : length zv1 = nodes).
  { subst zv1. rewrite length_app, length_drop, length_replicate. lia. }
  assert (Hvtp : Forall (fun i => 0 <= i < Z.of_nat nodes)
                   (map Z.of_nat (seq 0 (2 * v + 1)))).
  { rewrite <- range_of_nat. apply Forall_range. lia. }
  destruct (take_at_valid zv1 (map Z.of_nat (seq 0 (2 * v + 1))))
    as (zs & Hzs & Hzs_len); [by rewrite Hzv1|].
  rewrite Hzs. cbn [rbind].
  destruct (setitems_valid (replicate nodes 0%float)
              (map Z.of_nat (seq 0 (2 * v + 1)))
              (map (fun zn => zn * tan (pi / 180 * sweep_vtp_deg g))%float zs))
    as (xv1 & Hxv1 & Hxv1_len & _).
  { by rewrite length_map. }
  { by rewrite length_replicate. }
  rewrite Hxv1. cbn [rbind]. rewrite length_replicate in Hxv1_len.
  (* increment all other nodes *)
  destruct (get_valid xv1 (2 * Z.of_nat v)) as (x_int & Hx_int & _); [lia|].
  rewrite Hx_int. cbn [rbind].
  destruct (get_valid zv1 (2 * Z.of_nat v)) as (z_int & Hz_int & Hz_int'); [lia|].
  rewrite Hz_int. cbn [rbind].
  (* htpL *)
  set (nnL := map (fun nn => 1 + 2 * Z.of_nat v + nn) (range (Z.of_nat (2 * l + 1)))).
  assert (HnnL : length nnL = (2 * l + 1)%nat).
  { subst nnL. by rewrite length_map, length_range, Nat2Z.id. }
  unfold set at 1. rewrite index_from_end by lia. cbn [rbind].
  set (nnL' := <[_ := _]> nnL).
  assert (HPL : Forall P nnL').
  { subst nnL'. apply Forall_insert; [|unfold P; lia].
    subst nnL. apply Forall_fmap, Forall_range. intros i Hi. unfold P. simpl. lia. }
  assert (HnnL' : length nnL' = (2 * l + 1)%nat).
  { subst nnL'. by rewrite length_insert. }
  destruct (Hlin (-0.5 * span_htp g)%float 0%float (Z.of_nat (2 * l + 1)))
    as (lineL & HlineL & HlenL); [lia|].
  rewrite Nat2Z.id in HlenL. rewrite HlineL. cbn [rbind].
  destruct (setitems_valid (replicate nodes 0%float) nnL' lineL)
    as (yv1 & Hyv1 & Hyv1_len & Hyv1_out).
  { by rewrite HlenL. }
  { apply Hvalid; [by rewrite length_replicate | done]. }
  rewrite Hyv1. cbn [rbind]. rewrite length_replicate in Hyv1_len.
  set (xv2 := fill xv1 _ x_int).
  assert (Hxv2 : length xv2 = nodes) by (subst xv2; by rewrite length_fill).
  destruct (take_at_valid xv2 nnL') as (xsL & HxsL & HxsL_len); [by apply Hvalid|].
  rewrite HxsL. cbn [rbind].
  destruct (take_at_valid yv1 nnL') as (ysL & HysL & HysL_len); [by apply Hvalid|].
  rewrite HysL. cbn [rbind].
  destruct (setitems_valid xv2 nnL'
              (zip_with (fun xn yn => xn - yn * tan (pi / 180 * sweep_htp_deg g))%float
                 xsL ysL))
    as (xv3 & Hxv3 & Hxv3_len & _).
  { rewrite length_zip_with. lia. }
  { by apply Hvalid. }
  rewrite Hxv3. cbn [rbind]. rewrite Hxv2 in Hxv3_len.
  (* htpR *)
  set (nnR := reverse (map (fun nn => 2 * Z.of_nat (v + l + r) - nn)
                         (range (Z.of_nat (2 * r + 1))))).
  assert (HnnR : length nnR = (2 * r + 1)%nat).
  { subst nnR. by rewrite length_reverse, length_map, length_range, Nat2Z.id. }
  unfold set at 1. rewrite index_valid by lia. cbn [rbind].
  set (nnR' := <[_ := _]> nnR).
  assert (HPR : Forall P nnR').
  { subst nnR'. apply Forall_insert; [|unfold P; lia].
    subst nnR. apply Forall_reverse, Forall_fmap, Forall_range.
    intros i Hi. unfold P. simpl. lia. }
  assert (HnnR' : length nnR' = (2 * r + 1)%nat).
  { subst nnR'. by rewrite length_insert. }
  destruct (Hlin 0%float (0.5 * span_htp g)%float (Z.of_nat (2 * r + 1)))
    as (lineR & HlineR & HlenR); [lia|].
  rewrite Nat2Z.id in HlenR. rewrite HlineR. cbn [rbind].
  destruct (setitems_valid yv1 nnR' lineR) as (yv2 & Hyv2 & Hyv2_len & Hyv2_out).
  { by rewrite HlenR. }
  { by apply Hvalid. }
  rewrite Hyv2. cbn [rbind]. rewrite Hyv1_len in Hyv2_len.
  destruct (take_at_valid xv3 nnR') as (xsR & HxsR & HxsR_len); [by apply Hvalid|].
  rewrite HxsR. cbn [rbind].
  destruct (take_at_valid yv2 nnR') as (ysR & HysR & HysR_len); [by apply Hvalid|].
  rewrite HysR. cbn [rbind].
  destruct (setitems_valid xv3 nnR'
              (zip_with (fun xn yn => xn + yn * tan (pi / 180 * sweep_htp_deg g))%float
                 xsR ysR))
    as (xv4 & Hxv4 & Hxv4_len & _).
  { rewrite length_zip_with. lia. }
  { by apply Hvalid. }
  rewrite Hxv4. cbn [rbind]. rewrite Hxv3_len in Hxv4_len.
  eexists _, _, _, line. split; [reflexivity|].
  split; [done|]. split; [done|]. split; [done|]. split; [done|].
  split; [by rewrite length_fill|].
  split.
  - intros n Hn. rewrite lookup_fill, Hzv1.
    rewrite np_properties.selects_from_nonneg by (done || lia).
    destruct (lookup_lt_is_Some_2 zv1 n) as [z0 Hz0]; [lia|].
    rewrite Hz0. cbn [fmap option_fmap option_map].
    destruct (Z.leb_spec (2 * Z.of_nat v) (Z.of_nat n)).
    + replace (Nat.min n (2 * v)) with (2 * v)%nat by lia.
      rewrite <- Hz_int'. subst zv1.
      replace (Z.to_nat (2 * Z.of_nat v)) with (2 * v)%nat by lia.
      by rewrite lookup_app_l by lia.
    + replace (Nat.min n (2 * v)) with n by lia.
      rewrite <- Hz0. subst zv1.
      by rewrite lookup_app_l by lia.
  - intros n Hn.
    rewrite Hyv2_out by (by apply Hout).
    rewrite Hyv1_out by (by apply Hout).
    apply lookup_replicate_2. lia.
Qed.

Lemma boundary_spec self v l r :
  panelled self v l r -> (1 <= l + r)%nat ->
  boundary self (2 * Z.of_nat v + 1) (2 * Z.of_nat (v + l + r))
  = Ok (<[(2 * (v + l + r))%nat := -1]>
         (<[(2 * v + 1)%nat := -1]>
           (<[0%nat := 1]> (replicate (2 * (v + l + r) + 1) 0)))).
Proof.
  intros (_ & _ & _ & _ & _ & _ & _ & _ & Hntot) Hlr.
  unfold boundary. rewrite Hntot.
  rewrite full_Ok by lia. cbn [rbind]. rewrite Nat2Z.id.
  rewrite set_valid by (rewrite length_replicate; lia). cbn [rbind].
  rewrite set_valid by (rewrite length_insert, length_replicate; lia). cbn [rbind].
  rewrite set_valid by (rewrite !length_insert, length_replicate; lia).
  do 3 f_equal; lia.
Qed.


Lemma update_fem_prop_built self g v l r :
  panelled self v l r -> (1 <= l)%nat -> (1 <= r)%nat ->
  linspace_sized ->
  exists fem, update_fem_prop self g = Ok fem /\ fem_built g v l r fem.
Proof.
  intros Hself Hl1 Hr1 Hlin. unfold update_fem_prop.
  destruct (beam_numbers_spec self v l r Hself Hr1) as (bn & -> & Hbn_len & Hbn).
  cbn [rbind].
  destruct (connectivities_spec self v l r Hself Hl1 Hr1)
    as (conn & -> & Hloc & Hsv & HsL & HsR & Hint & HfreeL & HfreeR & Hw & Hrows_len
        & Hrows).
  cbn [rbind]. rewrite Hint, HfreeL, HfreeR.
  destruct (nodal_coordinates_spec self g v l r Hself Hr1 Hlin)
    as (xv & yv & zv & line & -> & Hline & Hline_len & Hx & Hy & Hz & Hzv & Hyv).
  cbn [rbind].
  rewrite (boundary_spec self v l r Hself) by lia. cbn [rbind].
  eexists. split; [reflexivity|]. unfold fem_built. simpl.
  repeat (split; [done|]). split; [|done].
  by exists line.
Qed.

(** without elements on the right beam, the last write to the
    connectivity falls outside the table *)
Lemma update_fem_prop_without_right_beam self g v l :
  panelled self v l 0 -> update_fem_prop self g = Raise IndexError.
Proof.
  intros (Hnne & Hv & Hl & Hr & Htot & _).
  unfold update_fem_prop, beam_numbers. rewrite Htot.
  rewrite full_Ok by lia. cbn [rbind].
  unfold connectivities. rewrite Hnne, Hv, Hl, Hr, Htot. cbv zeta.
  rewrite zeros_table_Ok by lia. cbn [rbind].
  set (t0 := {| width := Z.to_nat 3; rows := _ |}).
  assert (Hw0 : width t0 = 3%nat) by done.
  assert (Hlen0 : length (rows t0) = (v + l)%nat).
  { subst t0. simpl. rewrite length_replicate. lia. }
  clearbody t0.
  destruct (add_elements_run v 0 t0 0) as (t1 & Hrun1 & Hw1 & Hlen1 & _);
    [done | lia |].
  erewrite (map_ext _ (fun ee => ee)) in Hrun1 by (intros; simpl; lia).
  rewrite map_id in Hrun1. rewrite Hrun1. cbn [rbind].
  destruct (add_elements_run l v t1 (0 + 2 * Z.of_nat v + 1))
    as (t2 & Hrun2 & Hw2 & Hlen2 & _); [done | lia |].
  rewrite Hrun2. cbn [rbind].
  destruct (decide (v + l = 0)%nat) as [Hnone|Hsome].
  - unfold setentry. rewrite index_outside by lia. done.
  - rewrite setentry_valid by lia. cbn [rbind].
    change (range (Z.of_nat 0)) with (@nil Z). simpl map. cbn [add_elements rbind].
    unfold setentry. simpl rows. rewrite length_alter.
    rewrite index_outside by lia. done.
Qed.

Lemma element_nodes_cases v l e :
  (1 <= l)%nat ->
  let n := Z.of_nat e in
  let i := 2 * Z.of_nat v in
  ((e < v)%nat /\ element_nodes v l e = [2 * n; 2 * n + 2; 2 * n + 1])
  \/ ((v <= e < v + l - 1)%nat
      /\ element_nodes v l e = [2 * n + 1; 2 * n + 3; 2 * n + 2])
  \/ (e = (v + l - 1)%nat /\ element_nodes v l e = [2 * n + 1; i; 2 * n + 2])
  \/ (e = (v + l)%nat /\ element_nodes v l e = [i; 2 * n + 2; 2 * n + 1])
  \/ ((v + l < e)%nat /\ element_nodes v l e = [2 * n; 2 * n + 2; 2 * n + 1]).
Proof.
  intros Hl n i. unfold element_nodes, run_nodes. cbv zeta.
  destruct (Nat.ltb_spec e v); [left; split; [done|apply three_eq; lia]|].
  right.
  destruct (Nat.ltb_spec e (v + l)).
  - destruct (Nat.eqb_spec e (v + l - 1)).
    + right; left. split; [done|apply three_eq; lia].
    + left. split; [lia|apply three_eq; lia].
  - right; right.
    destruct (Nat.eqb_spec e (v + l)).
    + left. split; [done|apply three_eq; lia].
    + right. split; [lia|apply three_eq; lia].
Qed.

Lemma elem_of_three (n a b c : Z) : n ∈ [a; b; c] <-> n = a \/ n = b \/ n = c.
Proof. rewrite !elem_of_cons, elem_of_nil. tauto. Qed.

(** an accepted panelling with at least four panels on the tail plane *)
Lemma accepted_panelling M Nv Nh self :
  parametrisation M Nv Nh = Ok self -> 0 <= Nv -> 4 <= Nh ->
  exists v l,
    panelled self v l l /\ (1 <= l)%nat
    /\ Z.of_nat v = Nv / 2 /\ Z.of_nat l = Nh / 2 / 2.
Proof.
  intros Hself Hv Hh.
  exists (Z.to_nat (Nv / 2)), (Z.to_nat (Nh / 2 / 2)).
  split; [apply (parametrisation_panelled M); done || lia|].
  assert (0 <= Nv / 2) by (apply Z.div_pos; lia).
  assert (1 <= Nh / 2 / 2).
  { rewrite Z.div_div by lia. apply Z.div_le_lower_bound; lia. }
  lia.
Qed.

Lemma built_rows g v l r fem e row :
  fem_built g v l r fem ->
  rows (conn_glob fem) !! e = Some row ->
  (e < v + l + r)%nat /\ row = element_nodes v l e.
Proof.
  intros (_ & _ & _ & _ & _ & _ & _ & Hlen & Hrows & _) Hrow.
  assert (He : (e < v + l + r)%nat) by (rewrite <- Hlen; by eapply lookup_lt_Some).
  rewrite Hrows in Hrow by done. by injection Hrow as <-.
Qed.

Ltac element_cases v l e :=
  let H := fresh "Hcase" in
  let Hr := fresh "Hrow" in
  destruct (element_nodes_cases v l e) as [[H Hr]|[[H Hr]|[[H Hr]|[[H Hr]|[H Hr]]]]];
  [done | ..]; cbv zeta in Hr; rewrite Hr in *.

(** X10: for [Nv >= 0] and [Nh >= 4], and an [np.linspace] that returns as
    many samples as it is asked for, [update_fem_prop] returns, and
    [conn_glob] has one row of three nodes for each element; every entry is
    a node number below [num_nodes_tot], and every node belongs to an
    element. *)
Theorem connectivity_covers_the_nodes M Nv Nh self g :
  parametrisation M Nv Nh = Ok self ->
  0 <= Nv -> 4 <= Nh ->
  linspace_sized ->
  exists fem,
    update_fem_prop self g = Ok fem
    /\ Z.of_nat (length (rows (conn_glob fem))) = num_elem_tot self
    /\ (forall row, row ∈ rows (conn_glob fem) -> length row = 3%nat)
    /\ (forall row n,
          row ∈ rows (conn_glob fem) -> n ∈ row -> 0 <= n < num_nodes_tot self)
    /\ (forall n,
          0 <= n < num_nodes_tot self ->
          exists row, row ∈ rows (conn_glob fem) /\ n ∈ row).
Proof.
  intros Hself Hv Hh Hlin.
  destruct (accepted_panelling _ _ _ _ Hself Hv Hh) as (v & l & Hp & Hl1 & _ & _).
  destruct (update_fem_prop_built self g v l l Hp Hl1 Hl1 Hlin) as (fem & Hrun & Hb).
  pose proof Hp as (_ & _ & _ & _ & Htot & _ & _ & _ & Hntot).
  pose proof Hb as (_ & _ & _ & _ & _ & _ & _ & Hlen & Hrows & _).
  exists fem. split; [done|]. split; [lia|]. split; [|split].
  - intros row Hrow. apply list_elem_of_lookup in Hrow as [e He].
    destruct (built_rows _ _ _ _ _ _ _ Hb He) as [_ ->].
    by element_cases v l e.
  - intros row n Hrow Hn. apply list_elem_of_lookup in Hrow as [e He].
    destruct (built_rows _ _ _ _ _ _ _ Hb He) as [Hlt ->].
    rewrite Hntot.
    element_cases v l e; apply elem_of_three in Hn; lia.
  - intros n Hn. rewrite Hntot in Hn.
    destruct (decide (n < 2 * Z.of_nat v)) as [Hvtp|Hhtp].
    + (* on the fin, below its top *)
      pose (e := Z.to_nat (n / 2)).
      assert (He : (e < v)%nat).
      { subst e. apply Nat2Z.inj_lt. rewrite Z2Nat.id by (apply Z.div_pos; lia).
        apply Z.div_lt_upper_bound; lia. }
      exists (element_nodes v l e). split.
      { eapply list_elem_of_lookup_2. apply Hrows. lia. }
      pose proof (Z.div_mod n 2 ltac:(lia)) as Hdiv.
      pose proof (Z.mod_pos_bound n 2 ltac:(lia)) as Hmod.
      assert (Hen : Z.of_nat e = n / 2)
        by (subst e; rewrite Z2Nat.id; [done | apply Z.div_pos; lia]).
      element_cases v l e; try lia. apply elem_of_three. lia.
    + destruct (decide (n = 2 * Z.of_nat v)) as [->|Hne].
      * (* the intersection *)
        exists (element_nodes v l (v + l)). split.
        { eapply list_elem_of_lookup_2. apply Hrows. lia. }
        element_cases v l (v + l)%nat; try lia. apply elem_of_three. lia.
      * (* on the tail plane *)
        pose (e := Z.to_nat ((n - 1) / 2)).
        pose proof (Z.div_mod (n - 1) 2 ltac:(lia)) as Hdiv.
        pose proof (Z.mod_pos_bound (n - 1) 2 ltac:(lia)) as Hmod.
        assert (Hen : Z.of_nat e = (n - 1) / 2)
          by (subst e; rewrite Z2Nat.id; [done | apply Z.div_pos; lia]).
        assert (He : (v <= e < v + l + l)%nat) by lia.
        exists (element_nodes v l e). split.
        { eapply list_elem_of_lookup_2. apply Hrows. lia. }
        element_cases v l e; try lia; apply elem_of_three; lia.
Qed.

(** X11: under the conditions of X10, the node [2 * num_elem_vtp] at the
    top of the fin belongs to exactly three elements: the last one of the
    fin and of the left tail plane, where it is the second local node, and
    the first one of the right tail plane, where it is the first local
    node.  (Without elements on the fin the first of these is absent.) *)
Theorem beams_meet_at_the_intersection M Nv Nh self g :
  parametrisation M Nv Nh = Ok self ->
  0 <= Nv -> 4 <= Nh ->
  linspace_sized ->
  exists fem,
    update_fem_prop self g = Ok fem
    /\ forall e row,
         rows (conn_glob fem) !! e = Some row ->
         let node_intersection := 2 * num_elem_vtp self in
         let top_of_vtp := num_elem_vtp self - 1 in
         let root_of_htpL := num_elem_vtp self + num_elem_htpL self - 1 in
         let root_of_htpR := num_elem_vtp self + num_elem_htpL self in
         (node_intersection ∈ row
          <-> Z.of_nat e = top_of_vtp \/ Z.of_nat e = root_of_htpL
              \/ Z.of_nat e = root_of_htpR)
         /\ (Z.of_nat e = top_of_vtp \/ Z.of_nat e = root_of_htpL ->
             row !! 1%nat = Some node_intersection)
         /\ (Z.of_nat e = root_of_htpR -> row !! 0%nat = Some node_intersection).
Proof.
  intros Hself Hv Hh Hlin.
  destruct (accepted_panelling _ _ _ _ Hself Hv Hh) as (v & l & Hp & Hl1 & _ & _).
  destruct (update_fem_prop_built self g v l l Hp Hl1 Hl1 Hlin) as (fem & Hrun & Hb).
  pose proof Hp as (_ & Hnv & Hnl & _).
  exists fem. split; [done|]. intros e row He.
  destruct (built_rows _ _ _ _ _ _ _ Hb He) as [Hlt ->].
  cbv zeta. rewrite Hnv, Hnl.
  element_cases v l e; rewrite elem_of_three;
    (split; [lia|]); split; intros; simpl; f_equal; lia.
Qed.

(** X9: a tail plane of fewer than four panels passes the assertions of
    [__init__] ([Nh] is 0, 2 or 3), but [update_fem_prop] then raises
    [IndexError]: the beams of the tail plane have no element, and one of
    the two writes of the intersection node to [conn_glob] (lines 240 and
    243) falls outside the table. *)
Theorem tail_plane_needs_four_panels M Nv Nh self g :
  parametrisation M Nv Nh = Ok self ->
  0 <= Nv -> 0 <= Nh < 4 ->
  update_fem_prop self g = Raise IndexError.
Proof.
  intros Hself Hv Hh.
  pose proof (parametrisation_panelled _ _ _ _ Hself Hv ltac:(lia)) as Hp.
  assert (Nh / 2 / 2 = 0) as Hzero.
  { rewrite Z.div_div by lia. apply Z.div_small. lia. }
  rewrite Hzero in Hp. by eapply update_fem_prop_without_right_beam.
Qed.

(** X12: under the conditions of X10, [boundary_conditions] is 1 at node
    0, the foot of the fin, -1 at the two nodes [2 * num_elem_vtp + 1] and
    [num_nodes_tot - 1], and 0 elsewhere.  Each of these two nodes belongs
    to one element only, the first of the left and the last of the right
    tail plane: they are the free tips. *)
Theorem boundary_conditions_mark_the_ends M Nv Nh self g :
  parametrisation M Nv Nh = Ok self ->
  0 <= Nv -> 4 <= Nh ->
  linspace_sized ->
  exists fem,
    update_fem_prop self g = Ok fem
    /\ Z.of_nat (length (boundary_conditions fem)) = num_nodes_tot self
    /\ (let tip_htpL := 2 * num_elem_vtp self + 1 in
        let tip_htpR := num_nodes_tot self - 1 in
        (forall n, (n < length (boundary_conditions fem))%nat ->
           boundary_conditions fem !! n
           = Some (if decide (n = 0%nat) then 1
                   else if decide (Z.of_nat n = tip_htpL \/ Z.of_nat n = tip_htpR)
                        then -1 else 0))
        /\ (forall e row,
              rows (conn_glob fem) !! e = Some row ->
              (tip_htpL ∈ row <-> Z.of_nat e = num_elem_vtp self)
              /\ (Z.of_nat e = num_elem_vtp self -> row !! 0%nat = Some tip_htpL)
              /\ (tip_htpR ∈ row <-> Z.of_nat e = num_elem_tot self - 1)
              /\ (Z.of_nat e = num_elem_tot self - 1 ->
                  row !! 1%nat = Some tip_htpR))).
Proof.
  intros Hself Hv Hh Hlin.
  destruct (accepted_panelling _ _ _ _ Hself Hv Hh) as (v & l & Hp & Hl1 & _ & _).
  destruct (update_fem_prop_built self g v l l Hp Hl1 Hl1 Hlin) as (fem & Hrun & Hb).
  pose proof Hp as (_ & Hnv & _ & _ & Htot & _ & _ & _ & Hntot).
  pose proof Hb as (_ & _ & _ & _ & _ & _ & _ & _ & _ & Hbc & _).
  exists fem. split; [done|].
  rewrite Hbc, !length_insert, length_replicate. split; [lia|].
  cbv zeta. rewrite Hnv, Htot, Hntot. split.
  - intros n Hn.
    destruct (decide (n = 2 * (v + l + l))%nat) as [->|H1].
    { rewrite list_lookup_insert_eq
        by (rewrite !length_insert, length_replicate; lia).
      repeat case_decide; done || lia. }
    rewrite list_lookup_insert_ne by lia.
    destruct (decide (n = 2 * v + 1)%nat) as [->|H2].
    { rewrite list_lookup_insert_eq by (rewrite length_insert, length_replicate; lia).
      repeat case_decide; done || lia. }
    rewrite list_lookup_insert_ne by lia.
    destruct (decide (n = 0)%nat) as [->|H3].
    { rewrite list_lookup_insert_eq by (rewrite length_replicate; lia).
      repeat case_decide; done || lia. }
    rewrite list_lookup_insert_ne by lia.
    rewrite lookup_replicate_2 by lia.
    repeat case_decide; done || lia.
  - intros e row He.
    destruct (built_rows _ _ _ _ _ _ _ Hb He) as [Hlt ->].
    element_cases v l e; rewrite !elem_of_three;
      repeat split; intros; simpl; try (f_equal; lia); lia.
Qed.

(** X13: under the conditions of X10, the three lists [conn_surf_vtp],
    [conn_surf_htpL] and [conn_surf_htpR] number the elements from 0 in this
    order, and [beam_number] is 0, 1 or 2 on an element exactly when the
    element is in the first, the second or the third list. *)
Theorem beam_number_follows_surfaces M Nv Nh self g :
  parametrisation M Nv Nh = Ok self ->
  0 <= Nv -> 4 <= Nh ->
  linspace_sized ->
  exists fem,
    update_fem_prop self g = Ok fem
    /\ conn_surf_vtp fem ++ conn_surf_htpL fem ++ conn_surf_htpR fem
       = range (num_elem_tot self)
    /\ Z.of_nat (length (beam_number fem)) = num_elem_tot self
    /\ forall e b,
         beam_number fem !! e = Some b ->
         (b = 0 <-> Z.of_nat e ∈ conn_surf_vtp fem)
         /\ (b = 1 <-> Z.of_nat e ∈ conn_surf_htpL fem)
         /\ (b = 2 <-> Z.of_nat e ∈ conn_surf_htpR fem).
Proof.
  intros Hself Hv Hh Hlin.
  destruct (accepted_panelling _ _ _ _ Hself Hv Hh) as (v & l & Hp & Hl1 & _ & _).
  destruct (update_fem_prop_built self g v l l Hp Hl1 Hl1 Hlin) as (fem & Hrun & Hb).
  pose proof Hp as (_ & _ & _ & _ & Htot & _).
  pose proof Hb as (Hlen & Hbn & _ & Hsv & HsL & HsR & _).
  exists fem. split; [done|]. rewrite Hsv, HsL, HsR, Htot.
  split; [|split; [lia|]].
  - rewrite <- Nat.add_assoc, (range_app v), (range_app l).
    rewrite map_app, map_map. do 2 f_equal. apply map_ext. intros k. lia.
  - intros e b He.
    assert (Hlt : (e < v + l + l)%nat) by (rewrite <- Hlen; by eapply lookup_lt_Some).
    rewrite Hbn in He by done. injection He as <-.
    rewrite !list_elem_of_fmap. setoid_rewrite elem_of_range.
    destruct (Nat.ltb_spec e v); [|destruct (Nat.ltb_spec e (v + l))].
    + split; [split; [intros _; lia | done]|].
      split; (split; [done|]); intros (k & ? & ?); lia.
    + split; [split; [done | lia]|].
      split; [split; [intros _; exists (Z.of_nat e - Z.of_nat v); lia | done]|].
      split; [done|]. intros (k & ? & ?); lia.
    + split; [split; [done | lia]|].
      split; [split; [done|]; intros (k & ? & ?); lia|].
      split; [intros _; exists (Z.of_nat e - Z.of_nat v - Z.of_nat l); lia | done].
Qed.

(** X14: the heights of the nodes, under the conditions of X10.  Along the
    fin [z] takes the samples of
    [np.linspace(0, height_vtp, num_nodes_vtp)]; every node of the tail
    plane has the height of the top of the fin; and the nodes of the fin
    below its top have [y] equal to zero. *)
Theorem tail_plane_is_level M Nv Nh self g :
  parametrisation M Nv Nh = Ok self ->
  0 <= Nv -> 4 <= Nh ->
  linspace_sized ->
  exists fem line,
    update_fem_prop self g = Ok fem
    /\ linspace 0 (height_vtp g) (num_nodes_vtp self) = Ok line
    /\ Z.of_nat (length line) = num_nodes_vtp self
    /\ Z.of_nat (length (z fem)) = num_nodes_tot self
    /\ Z.of_nat (length (y fem)) = num_nodes_tot self
    /\ (forall n, Z.of_nat n < num_nodes_vtp self -> z fem !! n = line !! n)
    /\ (forall n,
          num_nodes_vtp self - 1 <= Z.of_nat n < num_nodes_tot self ->
          z fem !! n = last line)
    /\ (forall n,
          Z.of_nat n < num_nodes_vtp self - 1 -> y fem !! n = Some 0%float).
Proof.
  intros Hself Hv Hh Hlin.
  destruct (accepted_panelling _ _ _ _ Hself Hv Hh) as (v & l & Hp & Hl1 & _ & _).
  destruct (update_fem_prop_built self g v l l Hp Hl1 Hl1 Hlin) as (fem & Hrun & Hb).
  pose proof Hp as (_ & _ & _ & _ & _ & Hnv & _ & _ & Hntot).
  destruct Hb as (_ & _ & _ & _ & _ & _ & _ & _ & _ & _ & _ & Hy & Hz
                  & (line & Hline & Hlen & Hzv) & Hyv).
  exists fem, line. rewrite Hnv, Hntot, Hlen, Hy, Hz.
  do 5 (split; [done|]). split; [|split].
  - intros n Hn. rewrite Hzv by lia. f_equal. lia.
  - intros n Hn. rewrite Hzv by lia. rewrite last_lookup, Hlen. f_equal. lia.
  - intros n Hn. apply Hyv. lia.
Qed.

End mesh.

(** ** The theorems at the small tail *)

Lemma samples_sized : @linspace_sized small_tail.library.
Proof.
  intros a b n Hn. simpl. unfold small_tail.samples.
  destruct (Z.ltb_spec n 0); [lia|].
  eexists. split; [reflexivity|]. by rewrite length_map, length_seq.
Qed.

Lemma panels_kept_witness :
  exists self,
    parametrisation 4 6 6 = Ok self
    /\ 2 * (num_elem_htpL self + num_elem_htpR self) = 4.
Proof.
  destruct (parametrisation 4 6 6) as [self|e] eqn:Hself;
    [|vm_compute in Hself; discriminate Hself].
  exists self. split; [reflexivity|].
  destruct (panels_kept 4 6 6 self Hself) as (_ & H & _). exact H.
Defined.

Lemma tail_plane_needs_four_panels_witness :
  exists self,
    parametrisation 4 6 2 = Ok self
    /\ @update_fem_prop small_tail.library self small_tail.swept = Raise IndexError.
Proof.
  destruct (parametrisation 4 6 2) as [self|e] eqn:Hself;
    [|vm_compute in Hself; discriminate Hself].
  exists self. split; [reflexivity|].
  apply (@tail_plane_needs_four_panels small_tail.library 4 6 2 self small_tail.swept Hself);
    lia.
Defined.

Lemma connectivity_covers_the_nodes_witness :
  exists self fem,
    parametrisation 4 6 8 = Ok self
    /\ @update_fem_prop small_tail.library self small_tail.swept = Ok fem
    /\ Z.of_nat (length (rows (conn_glob fem))) = num_elem_tot self.
Proof.
  destruct (parametrisation 4 6 8) as [self|e] eqn:Hself;
    [|vm_compute in Hself; discriminate Hself].
  destruct (@connectivity_covers_the_nodes small_tail.library 4 6 8 self
              small_tail.swept Hself)
    as (fem & Hrun & Hlen & _); [lia | lia | exact samples_sized |].
  exists self, fem. exact (conj eq_refl (conj Hrun Hlen)).
Defined.

Lemma beams_meet_at_the_intersection_witness :
  exists self fem,
    parametrisation 4 6 8 = Ok self
    /\ @update_fem_prop small_tail.library self small_tail.swept = Ok fem.
Proof.
  destruct (parametrisation 4 6 8) as [self|e] eqn:Hself;
    [|vm_compute in Hself; discriminate Hself].
  destruct (@beams_meet_at_the_intersection small_tail.library 4 6 8 self
              small_tail.swept Hself)
    as (fem & Hrun & _); [lia | lia | exact samples_sized |].
  exists self, fem. exact (conj eq_refl Hrun).
Defined.

Lemma boundary_conditions_mark_the_ends_witness :
  exists self fem,
    parametrisation 4 6 8 = Ok self
    /\ @update_fem_prop small_tail.library self small_tail.swept = Ok fem
    /\ Z.of_nat (length (boundary_conditions fem)) = num_nodes_tot self.
Proof.
  destruct (parametrisation 4 6 8) as [self|e] eqn:Hself;
    [|vm_compute in Hself; discriminate Hself].
  destruct (@boundary_conditions_mark_the_ends small_tail.library 4 6 8 self
              small_tail.swept Hself)
    as (fem & Hrun & Hlen & _); [lia | lia | exact samples_sized |].
  exists self, fem. exact (conj eq_refl (conj Hrun Hlen)).
Defined.

Lemma beam_number_follows_surfaces_witness :
  exists self fem,
    parametrisation 4 6 8 = Ok self
    /\ @update_fem_prop small_tail.library self small_tail.swept = Ok fem
    /\ conn_surf_vtp fem ++ conn_surf_htpL fem ++ conn_surf_htpR fem
       = range (num_elem_tot self).
Proof.
  destruct (parametrisation 4 6 8) as [self|e] eqn:Hself;
    [|vm_compute in Hself; discriminate Hself].
  destruct (@beam_number_follows_surfaces small_tail.library 4 6 8 self
              small_tail.swept Hself)
    as (fem & Hrun & Hsurf & _); [lia | lia | exact samples_sized |].
  exists self, fem. exact (conj eq_refl (conj Hrun Hsurf)).
Defined.

Lemma tail_plane_is_level_witness :
  exists self fem line,
    parametrisation 4 6 8 = Ok self
    /\ @update_fem_prop small_tail.library self small_tail.swept = Ok fem
    /\ z fem !! 10%nat = last line.
Proof.
  destruct (parametrisation 4 6 8) as [self|e] eqn:Hself;
    [|vm_compute in Hself; discriminate Hself].
  destruct (@tail_plane_is_level small_tail.library 4 6 8 self
              small_tail.swept Hself)
    as (fem & line & Hrun & _ & _ & _ & _ & _ & Hz & _);
    [lia | lia | exact samples_sized |].
  exists self, fem, line. split; [reflexivity|]. split; [exact Hrun|].
  apply Hz. vm_compute in Hself. injection Hself as <-. simpl. lia.
Defined.

End Ttail_fem_properties.

(** * The aerodynamic properties of the T-tail *)

Module Ttail_aero_properties.
Import Ttail Ttail_meshes Ttail_fem_properties.

(** ** What a run of [update_aero_prop] has written *)

Lemma put_Ok a i j v a' :
  put a i j v = Ok a' ->
  exists k l,
    index (np.shape0 a) i = Ok k /\ index (np.shape1 a) j = Ok l
    /\ np.shape0 a' = np.shape0 a /\ np.shape1 a' = np.shape1 a
    /\ forall i' j', (i' < np.shape0 a)%nat -> (j' < np.shape1 a)%nat ->
         np.item a' i' j'
         = if (i' =? k)%nat && (j' =? l)%nat then v else np.item a i' j'.
Proof.
  unfold put.
  destruct (index (np.shape0 a) i) as [k|] eqn:Hk; [|done].
  destruct (index (np.shape1 a) j) as [l|] eqn:Hl; [|done].
  intros [= <-]. exists k, l. repeat (split; [done|]).
  intros i' j' Hi Hj. by rewrite np_properties.item_tabulate.
Qed.

Lemma index_of_nat d k i :
  index d (Z.of_nat k) = Ok i -> i = k /\ (k < d)%nat.
Proof.
  unfold index. destruct (Z.leb_spec 0 (Z.of_nat k)); [|lia].
  destruct (Z.ltb_spec (Z.of_nat k) (Z.of_nat d)); simpl.
  - intros [= <-]. lia.
  - destruct (Z.ltb_spec (Z.of_nat k) 0); [lia|done].
Qed.

Lemma for_each_cons {S A} (a : A) l (body : A -> S -> result S) s :
  for_each (a :: l) body s = let? s := body a s in for_each l body s.
Proof. done. Qed.

Lemma conn_loc_0 : get [0; 2; 1] 0 = Ok 0.
Proof. done. Qed.

Lemma conn_loc_1 : get [0; 2; 1] 1 = Ok 2.
Proof. done. Qed.

Lemma conn_loc_2 : get [0; 2; 1] 2 = Ok 1.
Proof. done. Qed.

Ltac loop_step H :=
  cbn [rbind] in H; rewrite ?conn_loc_0, ?conn_loc_1, ?conn_loc_2 in H;
  cbn [rbind] in H.


(** the three nodes of an element of the tail plane *)
Lemma htp_element a num_nodes chord_from chord_to row c0 chord chord' c' :
  np.shape1 chord = 3%nat ->
  for_each [0; 1; 2]
    (htp_node [0; 2; 1] num_nodes chord_from chord_to (Z.of_nat row)) (chord, c0)
  = Ok (chord', c') ->
  a = num_nodes - 1 ->
  c' = c0 + 3
  /\ (row < np.shape0 chord)%nat
  /\ np.shape0 chord' = np.shape0 chord /\ np.shape1 chord' = 3%nat
  /\ (exists eta0 eta1 eta2,
        ratio c0 a = Ok eta0 /\ ratio (c0 + 2) a = Ok eta1
        /\ ratio (c0 + 4) a = Ok eta2
        /\ np.item chord' row 0 = between eta0 chord_from chord_to
        /\ np.item chord' row 2 = between eta1 chord_from chord_to
        /\ np.item chord' row 1 = between eta2 chord_from chord_to)
  /\ (forall i j, i <> row -> (i < np.shape0 chord)%nat -> (j < 3)%nat ->
        np.item chord' i j = np.item chord i j).
Proof.
  intros Hcols Hrun ->. simpl in Hrun. unfold htp_node in Hrun.
  change (get [0; 2; 1] 0) with (Ok (A := Z) 0) in Hrun.
  change (get [0; 2; 1] 1) with (Ok (A := Z) 2) in Hrun.
  change (get [0; 2; 1] 2) with (Ok (A := Z) 1) in Hrun.
  cbn [rbind] in Hrun.
  destruct (ratio (c0 + 0) (num_nodes - 1)) as [eta0|] eqn:H0;
    cbn [rbind] in Hrun; [|done].
  destruct (put chord _ _ _) as [chord1|] eqn:Hp0; cbn [rbind] in Hrun; [|done].
  destruct (ratio (c0 + 1 + 1) (num_nodes - 1)) as [eta1|] eqn:H1;
    cbn [rbind] in Hrun; [|done].
  destruct (put chord1 _ _ _) as [chord2|] eqn:Hp1; cbn [rbind] in Hrun; [|done].
  destruct (ratio (c0 + 1 + 1 + 2) (num_nodes - 1)) as [eta2|] eqn:H2;
    cbn [rbind] in Hrun; [|done].
  destruct (put chord2 _ _ _) as [chord3|] eqn:Hp2; cbn [rbind] in Hrun; [|done].
  injection Hrun as <- <-.
  apply put_Ok in Hp0 as (k0 & l0 & Hk0 & Hl0 & Hr0 & Hc0 & Hi0).
  apply put_Ok in Hp1 as (k1 & l1 & Hk1 & Hl1 & Hr1 & Hc1 & Hi1).
  apply put_Ok in Hp2 as (k2 & l2 & Hk2 & Hl2 & Hr2 & Hc2 & Hi2).
  apply index_of_nat in Hk0 as [-> Hrow].
  rewrite Hr0 in Hk1. apply index_of_nat in Hk1 as [-> _].
  rewrite Hr1, Hr0 in Hk2. apply index_of_nat in Hk2 as [-> _].
  rewrite Hcols in Hl0. rewrite Hc0, Hcols in Hl1. rewrite Hc1, Hc0, Hcols in Hl2.
  change (index 3 0) with (Ok 0%nat) in Hl0. injection Hl0 as <-.
  change (index 3 2) with (Ok 2%nat) in Hl1. injection Hl1 as <-.
  change (index 3 1) with (Ok 1%nat) in Hl2. injection Hl2 as <-.
  rewrite Hr1, Hr0 in Hi2. rewrite Hc1, Hc0, Hcols in Hi2.
  rewrite Hr0 in Hi1. rewrite Hc0, Hcols in Hi1. rewrite Hcols in Hi0.
  split; [lia|]. split; [done|]. split; [congruence|]. split; [congruence|].
  split.
  - exists eta0, eta1, eta2.
    replace (c0 + 0) with c0 in H0 by lia.
    replace (c0 + 1 + 1) with (c0 + 2) in H1 by lia.
    replace (c0 + 1 + 1 + 2) with (c0 + 4) in H2 by lia.
    do 3 (split; [done|]).
    rewrite !Hi2, !Hi1, !Hi0 by lia. rewrite Nat.eqb_refl. simpl.
    done.
  - intros i j Hi Hlt Hj. rewrite Hi2, Hi1, Hi0 by lia.
    by destruct (Nat.eqb_spec i row).
Qed.


(** the elements [s, s + 1, ...] of one side of the tail plane *)
Lemma htp_beam a num_nodes chord_from chord_to n : forall s c0 chord chord' c',
  np.shape1 chord = 3%nat ->
  for_each (map (fun ee => Z.of_nat s + ee) (range (Z.of_nat n)))
    (fun ee state =>
       for_each [0; 1; 2] (htp_node [0; 2; 1] num_nodes chord_from chord_to ee) state)
    (chord, c0)
  = Ok (chord', c') ->
  a = num_nodes - 1 ->
  np.shape0 chord' = np.shape0 chord /\ np.shape1 chord' = 3%nat
  /\ (forall k, (k < n)%nat ->
        (s + k < np.shape0 chord)%nat
        /\ exists eta0 eta1 eta2,
             ratio (c0 + 3 * Z.of_nat k) a = Ok eta0
             /\ ratio (c0 + 3 * Z.of_nat k + 2) a = Ok eta1
             /\ ratio (c0 + 3 * Z.of_nat k + 4) a = Ok eta2
             /\ np.item chord' (s + k) 0 = between eta0 chord_from chord_to
             /\ np.item chord' (s + k) 2 = between eta1 chord_from chord_to
             /\ np.item chord' (s + k) 1 = between eta2 chord_from chord_to)
  /\ (forall i j, ~ (s <= i < s + n)%nat -> (i < np.shape0 chord)%nat -> (j < 3)%nat ->
        np.item chord' i j = np.item chord i j).
Proof.
  induction n as [|n IH]; intros s c0 chord chord' c' Hcols Hrun Ha.
  - simpl in Hrun. injection Hrun as <- <-.
    split; [done|]. split; [done|]. split; [intros k Hk; lia|done].
  - rewrite range_S, map_cons, for_each_cons, map_map in Hrun.
    replace (Z.of_nat s + 0) with (Z.of_nat s) in Hrun by lia.
    destruct (for_each [0; 1; 2] _ (chord, c0)) as [[chord1 c1]|] eqn:Hfirst;
      cbn [rbind] in Hrun; [|done].
    apply (htp_element a) in Hfirst
      as (-> & Hrow & Hr1 & Hc1 & (eta0 & eta1 & eta2 & H0 & H1 & H2 & E0 & E1 & E2)
          & Hframe1); [|done|done].
    erewrite (map_ext _ (fun ee => Z.of_nat (S s) + ee)) in Hrun
      by (intros; lia).
    apply IH in Hrun as (Hr' & Hc' & Hrows & Hframe); [|done|done].
    split; [congruence|]. split; [done|]. split.
    + intros k Hk. destruct k as [|k].
      * rewrite Nat.add_0_r. split; [done|].
        exists eta0, eta1, eta2.
        replace (c0 + 3 * Z.of_nat 0) with c0 by lia.
        do 3 (split; [done|]).
        rewrite !Hframe by lia. done.
      * destruct (Hrows k ltac:(lia)) as (Hlt & e0 & e1 & e2 & ? & ? & ? & ? & ? & ?).
        replace (s + S k)%nat with (S s + k)%nat by lia.
        split; [lia|].
        exists e0, e1, e2.
        replace (c0 + 3 * Z.of_nat (S k)) with (c0 + 3 + 3 * Z.of_nat k) by lia.
        done.
    + intros i j Hi Hlt Hj.
      rewrite Hframe by lia. apply Hframe1; lia.
Qed.


Section fin.

Context {library : Library}.


(** the three nodes of an element of the fin *)
Lemma vtp_element self g a row c0 chord sweep chord' sweep' :
  np.shape1 chord = 3%nat -> np.shape1 sweep = 3%nat ->
  np.shape0 sweep = np.shape0 chord ->
  for_each [0; 1; 2] (vtp_node self g [0; 2; 1] (Z.of_nat row) c0) (chord, sweep)
  = Ok (chord', sweep') ->
  a = num_nodes_vtp self - 1 ->
  (row < np.shape0 chord)%nat
  /\ np.shape0 chord' = np.shape0 chord /\ np.shape1 chord' = 3%nat
  /\ np.shape0 sweep' = np.shape0 sweep /\ np.shape1 sweep' = 3%nat
  /\ (exists eta0 eta1 eta2,
        ratio c0 a = Ok eta0 /\ ratio (c0 + 1) a = Ok eta1
        /\ ratio (c0 + 2) a = Ok eta2
        /\ np.item chord' row 0 = between eta0 (chord_vtp_root g) (chord_htp_root g)
        /\ np.item chord' row 2 = between eta1 (chord_vtp_root g) (chord_htp_root g)
        /\ np.item chord' row 1 = between eta2 (chord_vtp_root g) (chord_htp_root g)
        /\ np.item sweep' row 0 = leaning g eta0
        /\ np.item sweep' row 2 = leaning g eta1
        /\ np.item sweep' row 1 = leaning g eta2)
  /\ (forall i j, i <> row -> (i < np.shape0 chord)%nat -> (j < 3)%nat ->
        np.item chord' i j = np.item chord i j
        /\ np.item sweep' i j = np.item sweep i j).
Proof.
  intros Hcols Hcols' Hrows Hrun ->.
  rewrite !for_each_cons in Hrun. unfold vtp_node in Hrun.
  cbn [for_each] in Hrun. loop_step Hrun.
  destruct (ratio (c0 + 0) _) as [eta0|] eqn:H0; loop_step Hrun; [|done].
  destruct (put chord _ _ _) as [chord1|] eqn:Hp0; loop_step Hrun; [|done].
  destruct (put sweep _ _ _) as [sweep1|] eqn:Hq0; loop_step Hrun; [|done].
  destruct (ratio (c0 + 1) _) as [eta1|] eqn:H1; loop_step Hrun; [|done].
  destruct (put chord1 _ _ _) as [chord2|] eqn:Hp1; loop_step Hrun; [|done].
  destruct (put sweep1 _ _ _) as [sweep2|] eqn:Hq1; loop_step Hrun; [|done].
  destruct (ratio (c0 + 2) _) as [eta2|] eqn:H2; loop_step Hrun; [|done].
  destruct (put chord2 _ _ _) as [chord3|] eqn:Hp2; loop_step Hrun; [|done].
  destruct (put sweep2 _ _ _) as [sweep3|] eqn:Hq2; loop_step Hrun; [|done].
  injection Hrun as <- <-.
  apply put_Ok in Hp0 as (k0 & l0 & Hk0 & Hl0 & Hr0 & Hc0 & Hi0).
  apply put_Ok in Hp1 as (k1 & l1 & Hk1 & Hl1 & Hr1 & Hc1 & Hi1).
  apply put_Ok in Hp2 as (k2 & l2 & Hk2 & Hl2 & Hr2 & Hc2 & Hi2).
  apply put_Ok in Hq0 as (k0' & l0' & Hk0' & Hl0' & Hr0' & Hc0' & Hj0).
  apply put_Ok in Hq1 as (k1' & l1' & Hk1' & Hl1' & Hr1' & Hc1' & Hj1).
  apply put_Ok in Hq2 as (k2' & l2' & Hk2' & Hl2' & Hr2' & Hc2' & Hj2).
  apply index_of_nat in Hk0 as [-> Hrow].
  rewrite Hr0 in Hk1. apply index_of_nat in Hk1 as [-> _].
  rewrite Hr1, Hr0 in Hk2. apply index_of_nat in Hk2 as [-> _].
  apply index_of_nat in Hk0' as [-> _].
  rewrite Hr0' in Hk1'. apply index_of_nat in Hk1' as [-> _].
  rewrite Hr1', Hr0' in Hk2'. apply index_of_nat in Hk2' as [-> _].
  rewrite Hcols in Hl0. rewrite Hc0, Hcols in Hl1. rewrite Hc1, Hc0, Hcols in Hl2.
  rewrite Hcols' in Hl0'. rewrite Hc0', Hcols' in Hl1'.
  rewrite Hc1', Hc0', Hcols' in Hl2'.
  change (index 3 0) with (Ok 0%nat) in Hl0, Hl0'.
  change (index 3 2) with (Ok 2%nat) in Hl1, Hl1'.
  change (index 3 1) with (Ok 1%nat) in Hl2, Hl2'.
  injection Hl0 as <-. injection Hl1 as <-. injection Hl2 as <-.
  injection Hl0' as <-. injection Hl1' as <-. injection Hl2' as <-.
  rewrite Hr1, Hr0 in Hi2. rewrite Hc1, Hc0, Hcols in Hi2.
  rewrite Hr0 in Hi1. rewrite Hc0, Hcols in Hi1. rewrite Hcols in Hi0.
  rewrite Hr1', Hr0', Hrows in Hj2. rewrite Hc1', Hc0', Hcols' in Hj2.
  rewrite Hr0', Hrows in Hj1. rewrite Hc0', Hcols' in Hj1.
  rewrite Hrows, Hcols' in Hj0.
  split; [done|]. split; [congruence|]. split; [congruence|].
  split; [congruence|]. split; [congruence|].
  split.
  - exists eta0, eta1, eta2.
    replace (c0 + 0) with c0 in H0 by lia.
    do 3 (split; [done|]).
    rewrite !Hi2, !Hi1, !Hi0, !Hj2, !Hj1, !Hj0 by lia.
    rewrite Nat.eqb_refl. simpl. done.
  - intros i j Hi Hlt Hj. rewrite Hi2, Hi1, Hi0, Hj2, Hj1, Hj0 by lia.
    by destruct (Nat.eqb_spec i row).
Qed.

(** the elements [0, 1, ...] of the fin *)
Lemma vtp_beam self g a n : forall s c0 chord sweep chord' sweep' c',
  np.shape1 chord = 3%nat -> np.shape1 sweep = 3%nat ->
  np.shape0 sweep = np.shape0 chord ->
  for_each (map (fun ee => Z.of_nat s + ee) (range (Z.of_nat n)))
    (fun ee '(chord, sweep, nn_count) =>
       let? (chord, sweep) :=
         for_each [0; 1; 2] (vtp_node self g [0; 2; 1] ee nn_count) (chord, sweep) in
       Ok (chord, sweep, nn_count + 2))
    (chord, sweep, c0)
  = Ok (chord', sweep', c') ->
  a = num_nodes_vtp self - 1 ->
  np.shape0 chord' = np.shape0 chord /\ np.shape1 chord' = 3%nat
  /\ np.shape0 sweep' = np.shape0 sweep /\ np.shape1 sweep' = 3%nat
  /\ (forall k, (k < n)%nat ->
        (s + k < np.shape0 chord)%nat
        /\ exists eta0 eta1 eta2,
             ratio (c0 + 2 * Z.of_nat k) a = Ok eta0
             /\ ratio (c0 + 2 * Z.of_nat k + 1) a = Ok eta1
             /\ ratio (c0 + 2 * Z.of_nat k + 2) a = Ok eta2
             /\ np.item chord' (s + k) 0
                = between eta0 (chord_vtp_root g) (chord_htp_root g)
             /\ np.item chord' (s + k) 2
                = between eta1 (chord_vtp_root g) (chord_htp_root g)
             /\ np.item chord' (s + k) 1
                = between eta2 (chord_vtp_root g) (chord_htp_root g)
             /\ np.item sweep' (s + k) 0 = leaning g eta0
             /\ np.item sweep' (s + k) 2 = leaning g eta1
             /\ np.item sweep' (s + k) 1 = leaning g eta2)
  /\ (forall i j, ~ (s <= i < s + n)%nat -> (i < np.shape0 chord)%nat -> (j < 3)%nat ->
        np.item chord' i j = np.item chord i j
        /\ np.item sweep' i j = np.item sweep i j).
Proof.
  induction n as [|n IH]; intros s c0 chord sweep chord' sweep' c' Hcols Hcols' Hrows
    Hrun Ha.
  - simpl in Hrun. injection Hrun as <- <- <-.
    do 4 (split; [done|]). split; [intros k Hk; lia|done].
  - rewrite range_S, map_cons, for_each_cons, map_map in Hrun.
    replace (Z.of_nat s + 0) with (Z.of_nat s) in Hrun by lia.
    destruct (for_each [0; 1; 2] _ (chord, sweep)) as [[chord1 sweep1]|] eqn:Hfirst;
      cbn [rbind] in Hrun; [|done].
    apply (vtp_element self g a) in Hfirst
      as (Hrow & Hr1 & Hc1 & Hr1' & Hc1'
          & (eta0 & eta1 & eta2 & H0 & H1 & H2 & E0 & E1 & E2 & F0 & F1 & F2)
          & Hframe1); [|done|done|done|done].
    erewrite (map_ext _ (fun ee => Z.of_nat (S s) + ee)) in Hrun
      by (intros; lia).
    apply IH in Hrun as (Hr' & Hc' & Hr'' & Hc'' & Hrows' & Hframe);
      [|done|done|congruence|done].
    split; [congruence|]. split; [done|]. split; [congruence|]. split; [done|].
    split.
    + intros k Hk. destruct k as [|k].
      * rewrite Nat.add_0_r. split; [done|].
        exists eta0, eta1, eta2.
        replace (c0 + 2 * Z.of_nat 0) with c0 by lia.
        do 3 (split; [done|]).
        destruct (Hframe s 0%nat ltac:(lia) ltac:(lia) ltac:(lia)) as [-> ->].
        destruct (Hframe s 1%nat ltac:(lia) ltac:(lia) ltac:(lia)) as [-> ->].
        destruct (Hframe s 2%nat ltac:(lia) ltac:(lia) ltac:(lia)) as [-> ->].
        done.
      * destruct (Hrows' k ltac:(lia))
          as (Hlt & e0 & e1 & e2 & ? & ? & ? & ? & ? & ? & ? & ? & ?).
        replace (s + S k)%nat with (S s + k)%nat by lia.
        split; [lia|].
        exists e0, e1, e2.
        replace (c0 + 2 * Z.of_nat (S k)) with (c0 + 2 + 2 * Z.of_nat k) by lia.
        done.
    + intros i j Hi Hlt Hj.
      destruct (Hframe i j ltac:(lia) ltac:(lia) Hj) as [-> ->].
      apply Hframe1; lia.
Qed.

End fin.


Lemma positions_run d n : forall s ks,
  positions d (map (fun ee => Z.of_nat s + ee) (range (Z.of_nat n))) = Ok ks ->
  ks = seq s n.
Proof.
  induction n as [|n IH]; intros s ks Hks.
  - simpl in Hks. by injection Hks as <-.
  - rewrite range_S, map_cons, map_map in Hks. simpl in Hks.
    replace (Z.of_nat s + 0) with (Z.of_nat s) in Hks by lia.
    destruct (index d (Z.of_nat s)) as [k|] eqn:Hk; simpl in Hks; [|done].
    apply index_of_nat in Hk as [-> _].
    erewrite (map_ext _ (fun ee => Z.of_nat (S s) + ee)) in Hks by (intros; lia).
    destruct (positions d _) as [ks'|] eqn:Hks'; simpl in Hks; [|done].
    injection Hks as <-. simpl. f_equal. by apply IH.
Qed.

Lemma put_rows_run a s n v a' :
  put_rows a (map (fun ee => Z.of_nat s + ee) (range (Z.of_nat n))) v = Ok a' ->
  np.shape0 a' = np.shape0 a /\ np.shape1 a' = np.shape1 a
  /\ forall i j, (i < np.shape0 a)%nat -> (j < np.shape1 a)%nat ->
       np.item a' i j
       = if decide (s <= i < s + n)%nat then v else np.item a i j.
Proof.
  unfold put_rows.
  destruct (positions _ _) as [ks|] eqn:Hks; simpl; [|done].
  apply positions_run in Hks as ->. intros [= <-].
  split; [done|]. split; [done|]. intros i j Hi Hj.
  rewrite np_properties.item_tabulate by done.
  destruct (decide (s <= i < s + n)%nat) as [Hin|Hout].
  - rewrite bool_decide_eq_true_2; [done|]. apply elem_of_seq. lia.
  - rewrite bool_decide_eq_false_2; [done|]. rewrite elem_of_seq. lia.
Qed.

Section aero.

Context {library : Library}.


Lemma update_aero_prop_built self g v l r fem aero :
  panelled self v l r ->
  fem_built g v l r fem ->
  update_aero_prop self g (Some fem) = Ok aero ->
  aero_built self g v l r aero.
Proof.
  intros (_ & _ & _ & _ & Htot & _) Hfem Hrun.
  destruct Hfem as (_ & _ & Hloc & Hsv & HsL & HsR & _).
  unfold update_aero_prop in Hrun. rewrite Htot, Hloc, Hsv, HsL, HsR in Hrun.
  cbv zeta in Hrun.
  destruct (zeros_table _ _) as [distribution|]; cbn [rbind] in Hrun; [|done].
  destruct naca_camber as [camber|]; cbn [rbind] in Hrun; [|done].
  destruct (full _ true) as [nodes|]; cbn [rbind] in Hrun; [|done].
  destruct (np.zeros _ _) as [zero|] eqn:Hzero; cbn [rbind] in Hrun; [|done].
  apply np_properties.zeros_Ok in Hzero as (_ & _ & Hr0 & Hc0 & Hz).
  rewrite Nat2Z.id in Hr0. change (Z.to_nat 3) with 3%nat in Hc0.
  (* the fin *)
  assert (Hrange : range (Z.of_nat v)
                   = map (fun ee => Z.of_nat 0 + ee) (range (Z.of_nat v))).
  { rewrite <- (map_id (range _)) at 1. apply map_ext. intros; lia. }
  rewrite Hrange in Hrun. clear Hrange.
  destruct (for_each (map _ (range (Z.of_nat v))) _ (zero, zero, 0))
    as [[[chord1 sweep1] c1]|] eqn:Hvtp; cbn [rbind] in Hrun; [|done].
  apply (vtp_beam self g (num_nodes_vtp self - 1)) in Hvtp
    as (Hr1 & Hc1 & Hr1' & Hc1' & Hfin & Hframe1); [|done|done|done|done].
  (* the left tail plane *)
  destruct (put_rows zero _ _) as [twist1|] eqn:Ht1; cbn [rbind] in Hrun; [|done].
  apply put_rows_run in Ht1 as (Htr1 & Htc1 & Htwist1).
  destruct (for_each (map _ (range (Z.of_nat l))) _ (chord1, 0))
    as [[chord2 c2]|] eqn:HhtpL; cbn [rbind] in Hrun; [|done].
  apply (htp_beam (num_nodes_htpL self - 1)) in HhtpL
    as (Hr2 & Hc2 & Hleft & Hframe2); [|done|done].
  (* the right tail plane *)
  destruct (put_rows twist1 _ _) as [twist2|] eqn:Ht2; cbn [rbind] in Hrun; [|done].
  erewrite (map_ext (fun ee => Z.of_nat v + Z.of_nat l + ee)
              (fun ee => Z.of_nat (v + l) + ee)) in Ht2, Hrun by (intros; lia).
  apply put_rows_run in Ht2 as (Htr2 & Htc2 & Htwist2).
  destruct (for_each (map _ (range (Z.of_nat r))) _ (chord2, 0))
    as [[chord3 c3]|] eqn:HhtpR; cbn [rbind] in Hrun; [|done].
  apply (htp_beam (num_nodes_htpR self - 1)) in HhtpR
    as (Hr3 & Hc3 & Hright & Hframe3); [|done|done].
  injection Hrun as <-. unfold aero_built. simpl.
  split; [congruence|]. split; [done|]. split; [congruence|]. split; [done|].
  split; [congruence|]. split; [congruence|].
  split; [|split; [|split; [|split]]].
  - intros k Hk.
    destruct (Hfin k Hk)
      as (_ & eta0 & eta1 & eta2 & H0 & H1 & H2 & E0 & E1 & E2 & F0 & F1 & F2).
    exists eta0, eta1, eta2. simpl in *.
    do 3 (split; [done|]).
    rewrite !Hframe3, !Hframe2 by lia. done.
  - intros k Hk.
    destruct (Hleft k Hk) as (_ & eta0 & eta1 & eta2 & H0 & H1 & H2 & E0 & E1 & E2).
    exists eta0, eta1, eta2.
    replace (0 + 3 * Z.of_nat k) with (3 * Z.of_nat k) in * by lia.
    do 3 (split; [done|]).
    rewrite !Hframe3 by lia. done.
  - intros k Hk.
    destruct (Hright k Hk) as (_ & eta0 & eta1 & eta2 & H0 & H1 & H2 & E0 & E1 & E2).
    exists eta0, eta1, eta2.
    replace (0 + 3 * Z.of_nat k) with (3 * Z.of_nat k) in * by lia.
    done.
  - intros e j He Hj.
    destruct (Hframe1 e j ltac:(lia) ltac:(lia) Hj) as [_ ->]. apply Hz.
  - intros e j He Hj.
    rewrite Htwist2 by lia. rewrite Htwist1 by lia. rewrite Hz.
    destruct (Nat.ltb_spec e v); repeat case_decide; done || lia.
Qed.

End aero.

(** ** Integers as binary64 numbers *)

Lemma digits2_pos_bounds m :
  2 ^ (Z.pos (digits2_pos m) - 1) <= Z.pos m < 2 ^ Z.pos (digits2_pos m).
Proof.
  induction m as [m IH|m IH|]; simpl digits2_pos.
  - rewrite Pos2Z.inj_succ, Z.pow_succ_r by lia.
    replace (Z.succ (Z.pos (digits2_pos m)) - 1)
      with (Z.succ (Z.pos (digits2_pos m) - 1)) by lia.
    rewrite Z.pow_succ_r by lia. lia.
  - rewrite Pos2Z.inj_succ, Z.pow_succ_r by lia.
    replace (Z.succ (Z.pos (digits2_pos m)) - 1)
      with (Z.succ (Z.pos (digits2_pos m) - 1)) by lia.
    rewrite Z.pow_succ_r by lia. lia.
  - simpl. lia.
Qed.

Lemma digits2_pos_shift m k :
  digits2_pos (Pos.iter xO m k) = (digits2_pos m + k)%positive.
Proof.
  induction k as [|k IH] using Pos.peano_ind.
  - simpl. lia.
  - rewrite Pos.iter_succ. simpl. rewrite IH. lia.
Qed.

Lemma binary_round_aux_canonical sx m e :
  Z.pos (digits2_pos m) = 53 -> -1074 <= e <= 971 ->
  binary_round_aux prec emax sx (Z.pos m) e loc_Exact = S754_finite sx m e.
Proof.
  intros Hd He. unfold binary_round_aux, shr_fexp. cbn [Zdigits2].
  replace (fexp prec emax (Z.pos (digits2_pos m) + e) - e) with 0
    by (rewrite Hd; unfold fexp, emin, prec, emax; lia).
  cbn [shr shr_record_of_loc shr_m loc_of_shr_record round_nearest_even Zdigits2].
  replace (fexp prec emax (Z.pos (digits2_pos m) + e) - e) with 0
    by (rewrite Hd; unfold fexp, emin, prec, emax; lia).
  cbn [shr shr_record_of_loc shr_m].
  destruct (Z.leb_spec e (emax - prec)); [done|]. unfold emax, prec in *. lia.
Qed.

Lemma binary_normalize_small m :
  Z.pos m < 2 ^ 53 ->
  exists mz ez,
    binary_normalize prec emax (Z.pos m) 0 false = S754_finite false mz ez
    /\ valid_binary (S754_finite false mz ez) = true.
Proof.
  intros Hm. pose proof (digits2_pos_bounds m) as [Hlow _].
  assert (Hd : Z.pos (digits2_pos m) <= 53).
  { destruct (Z.le_gt_cases (Z.pos (digits2_pos m)) 53) as [|Hgt]; [done|].
    assert (2 ^ 53 <= 2 ^ (Z.pos (digits2_pos m) - 1))
      by (apply Z.pow_le_mono_r; lia).
    lia. }
  assert (Hvalid : forall mz ez,
            Z.pos (digits2_pos mz) = 53 -> -1074 <= ez <= 971 ->
            valid_binary (S754_finite false mz ez) = true).
  { intros mz ez Hmz Hez. unfold valid_binary, bounded, canonical_mantissa.
    rewrite Hmz. apply andb_true_intro. split.
    - apply Z.eqb_eq. unfold fexp, emin, prec, emax. lia.
    - apply Z.leb_le. unfold prec, emax. lia. }
  unfold binary_normalize, binary_round, shl_align.
  replace (fexp prec emax (Z.pos (digits2_pos m) + 0) - 0)
    with (Z.pos (digits2_pos m) - 53)
    by (unfold fexp, emin, prec, emax; lia).
  replace (fexp prec emax (Z.pos (digits2_pos m) + 0))
    with (Z.pos (digits2_pos m) - 53)
    by (unfold fexp, emin, prec, emax; lia).
  destruct (Z.pos (digits2_pos m) - 53) as [|p|p] eqn:Hshift; [|lia|].
  - exists m, 0. rewrite binary_round_aux_canonical by lia.
    split; [done|]. apply Hvalid; lia.
  - assert (Hdigits : Z.pos (digits2_pos (Pos.iter xO m p)) = 53)
      by (rewrite digits2_pos_shift; lia).
    exists (Pos.iter xO m p), (Z.neg p).
    rewrite binary_round_aux_canonical by lia.
    split; [done|]. apply Hvalid; lia.
Qed.

(** [float(n)] is finite, and not zero, for a positive [n] below [2 ** 53] *)
Lemma float_of_int_small n :
  0 < n < 2 ^ 53 ->
  exists f, float_of_int n = Ok f /\ (f =? 0)%float = false.
Proof.
  intros Hn. destruct n as [|m|m]; [lia| |lia].
  destruct (binary_normalize_small m) as (mz & ez & Hnorm & Hvalid); [lia|].
  unfold float_of_int. rewrite Hnorm.
  assert (Hback : Prim2SF (SF2Prim (S754_finite false mz ez))
                  = S754_finite false mz ez)
    by (by apply Prim2SF_SF2Prim).
  assert (Hfinite : is_infinity (SF2Prim (S754_finite false mz ez)) = false).
  { unfold is_infinity. rewrite FloatAxioms.eqb_spec, abs_spec, Hback. reflexivity. }
  cbv zeta. rewrite Hfinite. eexists. split; [reflexivity|].
  rewrite FloatAxioms.eqb_spec, Hback. reflexivity.
Qed.

Lemma float_of_int_0 : float_of_int 0 = Ok 0%float.
Proof. reflexivity. Qed.

(** the quotients of [update_aero_prop] are defined *)
Lemma ratio_small n d :
  0 <= n < 2 ^ 53 -> 0 < d < 2 ^ 53 -> exists eta, ratio n d = Ok eta.
Proof.
  intros Hn Hd. unfold ratio.
  destruct (float_of_int_small d Hd) as (fd & -> & Hfd).
  assert (exists fn, float_of_int n = Ok fn) as [fn ->].
  { destruct (decide (n = 0)) as [->|]; [by exists 0%float|].
    destruct (float_of_int_small n) as (fn & ? & _); [lia|]. by exists fn. }
  cbn [rbind]. unfold truediv. rewrite Hfd. by eexists.
Qed.

(** ** The writes of [update_aero_prop] stay inside the arrays *)

Lemma put_valid a i j v :
  0 <= i < Z.of_nat (np.shape0 a) -> 0 <= j < Z.of_nat (np.shape1 a) ->
  exists a',
    put a i j v = Ok a'
    /\ np.shape0 a' = np.shape0 a /\ np.shape1 a' = np.shape1 a.
Proof.
  intros Hi Hj. unfold put. rewrite !index_valid by lia. cbn [rbind].
  eexists. split; [reflexivity|]. done.
Qed.

Ltac run_ratio :=
  match goal with
  | |- context [ratio ?n ?d] =>
      let eta := fresh "eta" in
      destruct (ratio_small n d) as [eta ->]; [lia | lia |]; cbn [rbind]
  end.

Ltac run_put :=
  match goal with
  | |- context [put ?a ?i ?j ?v] =>
      let a' := fresh "a" in
      let Hr := fresh "Hr" in
      let Hc := fresh "Hc" in
      destruct (put_valid a i j v) as (a' & -> & Hr & Hc); [lia | lia |];
      cbn [rbind]
  end.

Lemma htp_element_runs num_nodes chord_from chord_to row c0 chord :
  np.shape1 chord = 3%nat -> (row < np.shape0 chord)%nat ->
  0 <= c0 -> c0 + 4 < 2 ^ 53 -> 0 < num_nodes - 1 < 2 ^ 53 ->
  exists state,
    for_each [0; 1; 2]
      (htp_node [0; 2; 1] num_nodes chord_from chord_to (Z.of_nat row)) (chord, c0)
    = Ok state.
Proof.
  intros Hcols Hrow Hc0 Hc4 Hnum.
  rewrite !for_each_cons. cbn [for_each]. unfold htp_node.
  rewrite conn_loc_0, conn_loc_1, conn_loc_2. cbn [rbind].
  run_ratio. run_put. run_ratio. run_put. run_ratio. run_put.
  by eexists.
Qed.

Lemma htp_beam_runs num_nodes chord_from chord_to n : forall s c0 chord,
  np.shape1 chord = 3%nat -> (s + n <= np.shape0 chord)%nat ->
  0 <= c0 -> c0 + 3 * Z.of_nat n + 1 < 2 ^ 53 -> 0 < num_nodes - 1 < 2 ^ 53 ->
  exists state,
    for_each (map (fun ee => Z.of_nat s + ee) (range (Z.of_nat n)))
      (fun ee state =>
         for_each [0; 1; 2] (htp_node [0; 2; 1] num_nodes chord_from chord_to ee) state)
      (chord, c0)
    = Ok state.
Proof.
  induction n as [|n IH]; intros s c0 chord Hcols Hrows Hc0 Hbound Hnum.
  - by eexists.
  - rewrite range_S, map_cons, for_each_cons, map_map.
    replace (Z.of_nat s + 0) with (Z.of_nat s) by lia.
    destruct (htp_element_runs num_nodes chord_from chord_to s c0 chord)
      as [[chord1 c1] Hfirst]; [done | lia | lia | lia | lia |].
    rewrite Hfirst. cbn [rbind].
    apply (htp_element (num_nodes - 1)) in Hfirst
      as (-> & _ & Hr1 & Hc1 & _); [|done|done].
    erewrite (map_ext _ (fun ee => Z.of_nat (S s) + ee)) by (intros; lia).
    apply IH; [done | lia | lia | lia | lia].
Qed.

Lemma positions_valid d n : forall s,
  (s + n <= d)%nat ->
  positions d (map (fun ee => Z.of_nat s + ee) (range (Z.of_nat n))) = Ok (seq s n).
Proof.
  induction n as [|n IH]; intros s Hs; [done|].
  rewrite range_S, map_cons, map_map. cbn [positions].
  rewrite index_valid by lia. cbn [rbind].
  erewrite (map_ext _ (fun ee => Z.of_nat (S s) + ee)) by (intros; lia).
  rewrite IH by lia. cbn [rbind seq]. do 2 f_equal. lia.
Qed.

Lemma put_rows_valid a s n v :
  (s + n <= np.shape0 a)%nat ->
  exists a', put_rows a (map (fun ee => Z.of_nat s + ee) (range (Z.of_nat n))) v = Ok a'.
Proof.
  intros Hs. unfold put_rows. rewrite positions_valid by done. by eexists.
Qed.

Section fin_runs.

Context {library : Library}.

Lemma vtp_element_runs self g row c0 chord sweep :
  np.shape1 chord = 3%nat -> np.shape1 sweep = 3%nat ->
  np.shape0 sweep = np.shape0 chord -> (row < np.shape0 chord)%nat ->
  0 <= c0 -> c0 + 2 < 2 ^ 53 -> 0 < num_nodes_vtp self - 1 < 2 ^ 53 ->
  exists arrays,
    for_each [0; 1; 2] (vtp_node self g [0; 2; 1] (Z.of_nat row) c0) (chord, sweep)
    = Ok arrays.
Proof.
  intros Hcols Hcols' Hrows Hrow Hc0 Hc2 Hnum.
  rewrite !for_each_cons. cbn [for_each]. unfold vtp_node.
  rewrite conn_loc_0, conn_loc_1, conn_loc_2. cbn [rbind].
  run_ratio. run_put. run_put. run_ratio. run_put. run_put.
  run_ratio. run_put. run_put.
  by eexists.
Qed.

Lemma vtp_beam_runs self g n : forall s c0 chord sweep,
  np.shape1 chord = 3%nat -> np.shape1 sweep = 3%nat ->
  np.shape0 sweep = np.shape0 chord -> (s + n <= np.shape0 chord)%nat ->
  0 <= c0 -> c0 + 2 * Z.of_nat n < 2 ^ 53 ->
  ((0 < n)%nat -> 0 < num_nodes_vtp self - 1 < 2 ^ 53) ->
  exists state,
    for_each (map (fun ee => Z.of_nat s + ee) (range (Z.of_nat n)))
      (fun ee '(chord, sweep, nn_count) =>
         let? (chord, sweep) :=
           for_each [0; 1; 2] (vtp_node self g [0; 2; 1] ee nn_count) (chord, sweep) in
         Ok (chord, sweep, nn_count + 2))
      (chord, sweep, c0)
    = Ok state.
Proof.
  induction n as [|n IH]; intros s c0 chord sweep Hcols Hcols' Hrows Hs Hc0 Hbound Hnum.
  - by eexists.
  - rewrite range_S, map_cons, for_each_cons, map_map.
    replace (Z.of_nat s + 0) with (Z.of_nat s) by lia.
    destruct (vtp_element_runs self g s c0 chord sweep)
      as [[chord1 sweep1] Hfirst]; [done | done | done | lia | lia | lia | |].
    { apply Hnum. lia. }
    rewrite Hfirst. cbn [rbind].
    apply (vtp_element self g (num_nodes_vtp self - 1)) in Hfirst
      as (_ & Hr1 & Hc1 & Hr1' & Hc1' & _); [|done|done|done|done].
    erewrite (map_ext _ (fun ee => Z.of_nat (S s) + ee)) by (intros; lia).
    apply IH; [done | done | congruence | lia | lia | lia |].
    intros _. apply Hnum. lia.
Qed.

End fin_runs.

Section aero_runs.

Context {library : Library}.

(** [update_aero_prop] returns on the mesh of [update_fem_prop], when the
    camber line is there and the node counts are below [2 ** 53] *)
Lemma update_aero_prop_runs self g v l r fem camber :
  panelled self v l r ->
  fem_built g v l r fem ->
  naca_camber = Ok camber ->
  (1 <= l)%nat -> (1 <= r)%nat ->
  2 * Z.of_nat v < 2 ^ 53 ->
  3 * Z.of_nat l + 1 < 2 ^ 53 -> 3 * Z.of_nat r + 1 < 2 ^ 53 ->
  exists aero, update_aero_prop self g (Some fem) = Ok aero.
Proof.
  intros (_ & _ & _ & _ & Htot & Hnv & Hnl & Hnr & Hntot) Hfem Hcamber Hl Hr Hbv Hbl Hbr.
  destruct Hfem as (_ & _ & Hloc & Hsv & HsL & HsR & _).
  unfold update_aero_prop. rewrite Htot, Hntot, Hloc, Hsv, HsL, HsR, Hcamber.
  cbv zeta.
  rewrite zeros_table_Ok by lia. cbn [rbind].
  rewrite full_Ok by lia. cbn [rbind].
  destruct (np.zeros (Z.of_nat (v + l + r)) 3) as [zero|] eqn:Hzero.
  2:{ unfold np.zeros in Hzero.
      destruct (Z.ltb_spec (Z.of_nat (v + l + r)) 0); [lia|]. done. }
  cbn [rbind].
  apply np_properties.zeros_Ok in Hzero as (_ & _ & Hr0 & Hc0 & Hz).
  rewrite Nat2Z.id in Hr0. change (Z.to_nat 3) with 3%nat in Hc0.
  assert (Hrange : range (Z.of_nat v)
                   = map (fun ee => Z.of_nat 0 + ee) (range (Z.of_nat v))).
  { rewrite <- (map_id (range _)) at 1. apply map_ext. intros; lia. }
  rewrite Hrange. clear Hrange.
  destruct (vtp_beam_runs self g v 0%nat 0 zero zero)
    as [[[chord1 sweep1] c1] Hvtp]; [done | done | done | lia | lia | lia | lia |].
  rewrite Hvtp. cbn [rbind].
  apply (vtp_beam self g (num_nodes_vtp self - 1)) in Hvtp
    as (Hr1 & Hc1 & _); [|done|done|done|done].
  destruct (put_rows_valid zero v l ((- pi) / 180 * alpha_htp_deg g)%float)
    as [twist1 Ht1]; [lia|].
  rewrite Ht1. cbn [rbind].
  apply put_rows_run in Ht1 as (Htr1 & _).
  destruct (htp_beam_runs (num_nodes_htpL self) (chord_htp_tip g) (chord_htp_root g)
              l v 0 chord1)
    as [[chord2 c2] HhtpL]; [done | lia | lia | lia | lia |].
  rewrite HhtpL. cbn [rbind].
  apply (htp_beam (num_nodes_htpL self - 1)) in HhtpL as (Hr2 & Hc2 & _); [|done|done].
  erewrite (map_ext (fun ee => Z.of_nat v + Z.of_nat l + ee)
              (fun ee => Z.of_nat (v + l) + ee)) by (intros; lia).
  destruct (put_rows_valid twist1 (v + l) r ((- pi) / 180 * alpha_htp_deg g)%float)
    as [twist2 Ht2]; [lia|].
  rewrite Ht2. cbn [rbind].
  destruct (htp_beam_runs (num_nodes_htpR self) (chord_htp_root g) (chord_htp_tip g)
              r (v + l) 0 chord2)
    as [[chord3 c3] HhtpR]; [done | lia | lia | lia | lia |].
  rewrite HhtpR. cbn [rbind].
  by eexists.
Qed.

End aero_runs.

Section chord.

Context {library : Library}.

Lemma conn_loc_cases nn nn_loc :
  0 <= nn < 3 -> get [0; 2; 1] nn = Ok nn_loc ->
  (nn = 0 /\ nn_loc = 0) \/ (nn = 1 /\ nn_loc = 2) \/ (nn = 2 /\ nn_loc = 1).
Proof.
  intros Hnn Hloc.
  assert (nn = 0 \/ nn = 1 \/ nn = 2) as [-> | [-> | ->] ] by lia;
    injection Hloc as <-; tauto.
Qed.

(** the two methods in turn, for an accepted panelling *)
Lemma accepted_aero M Nv Nh self g camber :
  parametrisation M Nv Nh = Ok self ->
  0 <= Nv < 2 ^ 53 -> 4 <= Nh < 2 ^ 53 ->
  linspace_sized ->
  naca_camber = Ok camber ->
  exists v l fem aero,
    panelled self v l l
    /\ update_fem_prop self g = Ok fem
    /\ conn_loc fem = [0; 2; 1]
    /\ update_aero_prop self g (Some fem) = Ok aero
    /\ aero_built self g v l l aero.
Proof.
  intros Hself Hv Hh Hlin Hcamber.
  destruct (accepted_panelling _ _ _ _ Hself ltac:(lia) ltac:(lia))
    as (v & l & Hp & Hl1 & Hvdiv & Hldiv).
  destruct (update_fem_prop_built self g v l l Hp Hl1 Hl1 Hlin) as (fem & Hfem & Hb).
  assert (Hbv : 2 * Z.of_nat v < 2 ^ 53).
  { rewrite Hvdiv. pose proof (Z.mul_div_le Nv 2). lia. }
  assert (Hbl : 3 * Z.of_nat l + 1 < 2 ^ 53).
  { rewrite Hldiv, Z.div_div by lia. pose proof (Z.mul_div_le Nh (2 * 2)). lia. }
  destruct (update_aero_prop_runs self g v l l fem camber Hp Hb Hcamber Hl1 Hl1
              Hbv Hbl Hbl) as [aero Haero].
  exists v, l, fem, aero. split; [done|]. split; [done|].
  split; [by destruct Hb as (_ & _ & ? & _)|]. split; [done|].
  by eapply update_aero_prop_built.
Qed.

(** X15: for [0 <= Nv] and [4 <= Nh], both below [2 ** 53], an
    [np.linspace] as in X10 and a camber line from [geo_utils],
    [update_aero_prop] returns on the mesh of [update_fem_prop].  At local node [nn] of its [k]-th element a beam has
    the chord [(1 - eta) * a + eta * b], stored at column [conn_loc[nn]].
    On the fin [eta] is [(2 * k + nn) / (num_nodes_vtp - 1)], between the
    root chord of the fin and the root chord of the tail plane.  On the two
    beams of the tail plane the counter moves with every node and not with
    every element, so [eta] is [(3 * k + 2 * nn) / (num_nodes - 1)], from
    the tip chord to the root chord on the left and from the root chord to
    the tip chord on the right. *)
Theorem chord_along_the_beams M Nv Nh self g camber :
  parametrisation M Nv Nh = Ok self ->
  0 <= Nv < 2 ^ 53 -> 4 <= Nh < 2 ^ 53 ->
  linspace_sized ->
  naca_camber = Ok camber ->
  exists fem aero,
    update_fem_prop self g = Ok fem
    /\ update_aero_prop self g (Some fem) = Ok aero
    /\ forall k nn nn_loc,
         0 <= nn < 3 ->
         get (conn_loc fem) nn = Ok nn_loc ->
         (0 <= k < num_elem_vtp self ->
          exists eta,
            ratio (2 * k + nn) (num_nodes_vtp self - 1) = Ok eta
            /\ np.item (chord aero) (Z.to_nat k) (Z.to_nat nn_loc)
               = ((1 - eta) * chord_vtp_root g + eta * chord_htp_root g)%float)
         /\ (0 <= k < num_elem_htpL self ->
             exists eta,
               ratio (3 * k + 2 * nn) (num_nodes_htpL self - 1) = Ok eta
               /\ np.item (chord aero) (Z.to_nat (num_elem_vtp self + k))
                    (Z.to_nat nn_loc)
                  = ((1 - eta) * chord_htp_tip g + eta * chord_htp_root g)%float)
         /\ (0 <= k < num_elem_htpR self ->
             exists eta,
               ratio (3 * k + 2 * nn) (num_nodes_htpR self - 1) = Ok eta
               /\ np.item (chord aero)
                    (Z.to_nat (num_elem_vtp self + num_elem_htpL self + k))
                    (Z.to_nat nn_loc)
                  = ((1 - eta) * chord_htp_root g + eta * chord_htp_tip g)%float).
Proof.
  intros Hself Hv Hh Hlin Hcamber.
  destruct (accepted_aero _ _ _ _ g _ Hself Hv Hh Hlin Hcamber)
    as (v & l & fem & aero & Hp & Hfem & Hconn & Haero & Hb).
  exists fem, aero. split; [done|]. split; [done|].
  intros k nn nn_loc Hnn Hloc.
  destruct Hp as (_ & Hnv & Hnl & Hnr & _).
  destruct Hb as (_ & _ & _ & _ & _ & _ & Hfin & Hleft & Hright & _).
  rewrite Hconn in Hloc. rewrite Hnv, Hnl, Hnr.
  split; [|split]; intros Hk.
  - destruct (Hfin (Z.to_nat k) ltac:(lia))
      as (eta0 & eta1 & eta2 & H0 & H1 & H2 & E0 & E1 & E2 & _).
    rewrite Z2Nat.id in H0, H1, H2 by lia.
    destruct (conn_loc_cases _ _ Hnn Hloc) as [ [-> ->] | [ [-> ->] | [-> ->] ] ].
    + exists eta0. split; [by rewrite Z.add_0_r|]. exact E0.
    + exists eta1. split; [done|]. exact E1.
    + exists eta2. split; [done|]. exact E2.
  - destruct (Hleft (Z.to_nat k) ltac:(lia))
      as (eta0 & eta1 & eta2 & H0 & H1 & H2 & E0 & E1 & E2).
    rewrite Z2Nat.id in H0, H1, H2 by lia.
    replace (Z.to_nat (Z.of_nat v + k)) with (v + Z.to_nat k)%nat by lia.
    destruct (conn_loc_cases _ _ Hnn Hloc) as [ [-> ->] | [ [-> ->] | [-> ->] ] ].
    + exists eta0. split; [by rewrite Z.add_0_r|]. exact E0.
    + exists eta1. split; [done|]. exact E1.
    + exists eta2. split; [done|]. exact E2.
  - destruct (Hright (Z.to_nat k) ltac:(lia))
      as (eta0 & eta1 & eta2 & H0 & H1 & H2 & E0 & E1 & E2).
    rewrite Z2Nat.id in H0, H1, H2 by lia.
    replace (Z.to_nat (Z.of_nat v + Z.of_nat l + k))
      with (v + l + Z.to_nat k)%nat by lia.
    destruct (conn_loc_cases _ _ Hnn Hloc) as [ [-> ->] | [ [-> ->] | [-> ->] ] ].
    + exists eta0. split; [by rewrite Z.add_0_r|]. exact E0.
    + exists eta1. split; [done|]. exact E1.
    + exists eta2. split; [done|]. exact E2.
Qed.

(** X16: under the same conditions, [sweep_vtp_deg] and [sweep_htp_deg] do
    not reach the aerodynamic arrays.  [twist] is zero on the fin and
    [-pi / 180 * alpha_htp_deg] on every node of the tail plane; [sweep] is
    zero on the tail plane and [eta * pi / 180 * (-alpha_htp_deg)] on the
    fin, with [eta] as for the chord. *)
Theorem incidence_sets_twist_and_sweep M Nv Nh self g camber :
  parametrisation M Nv Nh = Ok self ->
  0 <= Nv < 2 ^ 53 -> 4 <= Nh < 2 ^ 53 ->
  linspace_sized ->
  naca_camber = Ok camber ->
  exists fem aero,
    update_fem_prop self g = Ok fem
    /\ update_aero_prop self g (Some fem) = Ok aero
    /\ (forall e j,
          0 <= e < num_elem_tot self -> (j < 3)%nat ->
          np.item (twist aero) (Z.to_nat e) j
          = if e <? num_elem_vtp self then 0%float
            else ((- pi) / 180 * alpha_htp_deg g)%float)
    /\ (forall e j,
          num_elem_vtp self <= e < num_elem_tot self -> (j < 3)%nat ->
          np.item (sweep aero) (Z.to_nat e) j = 0%float)
    /\ (forall k nn nn_loc,
          0 <= k < num_elem_vtp self ->
          0 <= nn < 3 ->
          get (conn_loc fem) nn = Ok nn_loc ->
          exists eta,
            ratio (2 * k + nn) (num_nodes_vtp self - 1) = Ok eta
            /\ np.item (sweep aero) (Z.to_nat k) (Z.to_nat nn_loc)
               = (eta * pi / 180 * (- alpha_htp_deg g))%float).
Proof.
  intros Hself Hv Hh Hlin Hcamber.
  destruct (accepted_aero _ _ _ _ g _ Hself Hv Hh Hlin Hcamber)
    as (v & l & fem & aero & Hp & Hfem & Hconn & Haero & Hb).
  exists fem, aero. split; [done|]. split; [done|].
  destruct Hp as (_ & Hnv & _ & _ & Htot & _).
  destruct Hb as (_ & _ & _ & _ & _ & _ & Hfin & _ & _ & Hsweep & Htwist).
  rewrite Hnv, Htot. split; [|split].
  - intros e j He Hj. rewrite Htwist by lia.
    destruct (Nat.ltb_spec (Z.to_nat e) v); destruct (Z.ltb_spec e (Z.of_nat v));
      done || lia.
  - intros e j He Hj. apply Hsweep; lia.
  - intros k nn nn_loc Hk Hnn Hloc. rewrite Hconn in Hloc.
    destruct (Hfin (Z.to_nat k) ltac:(lia))
      as (eta0 & eta1 & eta2 & H0 & H1 & H2 & _ & _ & _ & F0 & F1 & F2).
    rewrite Z2Nat.id in H0, H1, H2 by lia.
    destruct (conn_loc_cases _ _ Hnn Hloc) as [ [-> ->] | [ [-> ->] | [-> ->] ] ].
    + exists eta0. split; [by rewrite Z.add_0_r|]. exact F0.
    + exists eta1. split; [done|]. exact F1.
    + exists eta2. split; [done|]. exact F2.
Qed.

End chord.

(** ** The theorems at the small tail *)

Lemma chord_along_the_beams_witness :
  exists self fem aero eta,
    parametrisation 4 6 8 = Ok self
    /\ @update_fem_prop small_tail.library self small_tail.swept = Ok fem
    /\ @update_aero_prop small_tail.library self small_tail.swept (Some fem) = Ok aero
    /\ ratio (3 * 1 + 2 * 2) (num_nodes_htpL self - 1) = Ok eta
    /\ np.item (chord aero) (Z.to_nat (num_elem_vtp self + 1)) (Z.to_nat 1)
       = ((1 - eta) * chord_htp_tip small_tail.swept
          + eta * chord_htp_root small_tail.swept)%float.
Proof.
  destruct (parametrisation 4 6 8) as [self|e] eqn:Hself;
    [|vm_compute in Hself; discriminate Hself].
  destruct (@chord_along_the_beams small_tail.library 4 6 8 self small_tail.swept
              _ Hself ltac:(lia) ltac:(lia) samples_sized eq_refl)
    as (fem & aero & Hfem & Haero & Hchord).
  assert (Hloc : get (conn_loc fem) 2 = Ok 1).
  { vm_compute in Hself. injection Hself as <-.
    vm_compute in Hfem. injection Hfem as <-. reflexivity. }
  assert (Hk : 0 <= 1 < num_elem_htpL self).
  { vm_compute in Hself. injection Hself as <-. vm_compute.
    split; [discriminate | reflexivity]. }
  destruct (Hchord 1 2 1 ltac:(lia) Hloc) as (_ & Hleft & _).
  destruct (Hleft Hk) as (eta & Heta & Hentry).
  exists self, fem, aero, eta.
  exact (conj eq_refl (conj Hfem (conj Haero (conj Heta Hentry)))).
Defined.

Lemma incidence_sets_twist_and_sweep_witness :
  exists self fem aero,
    parametrisation 4 6 8 = Ok self
    /\ @update_fem_prop small_tail.library self small_tail.swept = Ok fem
    /\ @update_aero_prop small_tail.library self small_tail.swept (Some fem) = Ok aero
    /\ np.item (sweep aero) (Z.to_nat (num_elem_tot self - 1)) 2 = 0%float.
Proof.
  destruct (parametrisation 4 6 8) as [self|e] eqn:Hself;
    [|vm_compute in Hself; discriminate Hself].
  destruct (@incidence_sets_twist_and_sweep small_tail.library 4 6 8 self
              small_tail.swept _ Hself ltac:(lia) ltac:(lia) samples_sized eq_refl)
    as (fem & aero & Hfem & Haero & _ & Hsweep & _).
  assert (He : num_elem_vtp self <= num_elem_tot self - 1 < num_elem_tot self).
  { vm_compute in Hself. injection Hself as <-. vm_compute.
    split; [discriminate | reflexivity]. }
  exists self, fem, aero.
  exact (conj eq_refl (conj Hfem (conj Haero
           (Hsweep (num_elem_tot self - 1) 2%nat He ltac:(lia))))).
Defined.

End Ttail_aero_properties.
